(** * A TCP-like file transfer over UDP: sender and receiver

    Shallow embedding of [tcp_client.py] (class [TCPClient]) and
    [tcp_server.py] (class [TCPServer]).

    Conventions of the embedding.
    - Python integers are [Z]; list positions and lengths are [nat].
    - [bytes] objects are lists of [byte].
    - Clock readings ([time.time()]) and the random draw of the loss
      injector are inputs of the operations, given as exact rationals.
    - The two float expressions of the window logic, [self.cwnd / 2] and
      [self.cwnd + packets_acked / self.cwnd], are computed over the
      rationals and truncated by [int]; doubles give the same integers
      for windows and counts below 2^26, far above what 32-bit sequence
      numbers allow.
    - A dictionary whose iteration order is observable (the sender's
      [unacked_packets]) is an association list in insertion order; a
      dictionary only probed by key (the receiver's [received_data]) is
      a [gmap].
    - [sock.sendto] appends to an outbound trace kept in the state.
    - A Python exception is the outcome [Raised], returned together with
      the state as it was when the exception left the method.
    - Each method runs atomically; thread interleaving inside a method
      is not modelled.
    - The loops around the socket ([TCPClient.receiver_thread],
      [TCPServer.run], the send loop of [transfer_file]) are taken one
      iteration at a time; what [recvfrom] does in an iteration (a
      datagram, a timeout, another exception) is an input. *)

From Stdlib Require Import ZArith QArith Lia List.
From Stdlib Require Import Strings.Byte.
From stdpp Require Import gmap list fin_maps strings.

Local Open Scope Z_scope.

(** ** Bytes and [struct] *)

Abbreviation bytes := (list byte).

Definition byte_val (b : byte) : Z := Z.of_N (Byte.to_N b).

Definition byte_of (z : Z) : byte :=
  default x00 (Byte.of_N (Z.to_N (z mod 256))).

(** [sum(data)] on a bytes object. *)
Definition sum_bytes (data : bytes) : Z :=
  foldr (fun b acc => byte_val b + acc) 0 data.

(** [struct.pack('!I', n)]: four bytes, most significant first;
    [struct.error] ([None]) outside [0, 2^32). *)
Definition pack_u32 (n : Z) : option bytes :=
  if bool_decide (0 <= n < 2 ^ 32)
  then Some [byte_of (n / 2 ^ 24); byte_of (n / 2 ^ 16);
             byte_of (n / 2 ^ 8); byte_of n]
  else None.

(** [struct.pack('!H', n)]. *)
Definition pack_u16 (n : Z) : option bytes :=
  if bool_decide (0 <= n < 2 ^ 16)
  then Some [byte_of (n / 2 ^ 8); byte_of n]
  else None.

Definition be_value (bs : bytes) : Z :=
  fold_left (fun acc b => acc * 256 + byte_val b) bs 0.

(** [struct.unpack('!I', bs)[0]]: [struct.error] unless [bs] has four
    bytes. *)
Definition unpack_u32 (bs : bytes) : option Z :=
  if bool_decide (length bs = 4%nat) then Some (be_value bs) else None.

(** [struct.unpack('!H', bs)[0]]. *)
Definition unpack_u16 (bs : bytes) : option Z :=
  if bool_decide (length bs = 2%nat) then Some (be_value bs) else None.

(** Python slice [data[i:j]] for [0 <= i], [0 <= j]. *)
Definition slice {A} (data : list A) (i j : nat) : list A :=
  take (j - i) (drop i data).

(** Wire constants, shared by both programs. *)
Definition SEQ_NUM_SIZE : nat := 4.
Definition CHECKSUM_SIZE : nat := 2.
Definition ACK_SIZE : nat := 4.
Definition CHUNK_SIZE : nat := 1024.

(** [calculate_checksum], identical in client and server. *)
Definition calculate_checksum (data : bytes) : Z :=
  match data with
  | [] => 0
  | _ => sum_bytes data mod 65535
  end.

(** [TCPClient.create_packet]. *)
Definition create_packet (seq_num : Z) (data : bytes) : option bytes :=
  hdr ← pack_u32 seq_num;
  ck ← pack_u16 (calculate_checksum data);
  Some (hdr ++ ck ++ data).

(** Outcome of a method call. *)
Inductive outcome := Returned | Raised.

(** [int(x)] on a number: truncation toward zero. *)
Definition py_int (x : Q) : Z := Z.quot (Qnum x) (Z.pos (Qden x)).

(** [a < b] on clock readings. *)
Definition Qltb (a b : Q) : bool := negb (Qle_bool b a).

(** ** Segmenter: the loop of [TCPClient.read_file] *)

(** [range(start, stop, step)] for a positive [step]; [fuel] bounds the
    number of elements. *)
Fixpoint range_loop (fuel i stop step : nat) : list nat :=
  match fuel with
  | O => []
  | S fuel' =>
      if (i <? stop)%nat then i :: range_loop fuel' (i + step) stop step
      else []
  end.

Definition py_range (start stop step : nat) : list nat :=
  range_loop (stop - start) start stop step.

Abbreviation segment := (Z * bytes)%type.

(** One iteration of [for i in range(0, len(file_data), CHUNK_SIZE)];
    the loop state is [(self.chunks, seq_num)]. *)
Definition read_file_iter (file_data : bytes)
    (st : list segment * Z) (i : nat) : list segment * Z :=
  let chunk_data := slice file_data i (i + CHUNK_SIZE) in
  (st.1 ++ [(st.2, chunk_data)], st.2 + Z.of_nat (length chunk_data)).

Definition read_file_chunks (file_data : bytes) : list segment :=
  (fold_left (read_file_iter file_data)
     (py_range 0 (length file_data) CHUNK_SIZE) ([], 0)).1.

(** ** The sender: [TCPClient] *)

Definition TIMEOUT : Q := 1 # 2.
Definition INITIAL_CWND : Z := 1.
Definition INITIAL_SSTHRESH : Z := 64.
Definition FAST_RETRANSMIT_DUP_ACKS : Z := 3.

Inductive phase := slow_start | congestion_avoidance.

(** Value of [unacked_packets]:
    [(packet_data, send_time, retransmit_count)]. *)
Abbreviation unacked_entry := (bytes * Q * Z)%type.

(** The fields of [TCPClient] that the window, retransmission and
    congestion logic reads or writes.  [cwnd] holds an [int] whenever a
    method returns (the only float is the intermediate sum in congestion
    avoidance, truncated at once), so it is a [Z].  The RTT estimator
    and the metrics lists are written but never read by that logic and
    are left out.  [sent] is the trace of [sock.sendto], oldest first. *)
Record TCPClient := {
  chunks : list segment;
  cwnd : Z;
  ssthresh : Z;
  state : phase;
  last_acked_seq : Z;
  unacked_packets : list (Z * unacked_entry);
  last_ack_received : Z;
  duplicate_ack_count : Z;
  total_retransmissions : Z;
  timeout_retransmissions : Z;
  fast_retransmissions : Z;
  sent : list bytes
}.

Definition set_cwnd (v : Z) (c : TCPClient) : TCPClient :=
  {| chunks := chunks c; cwnd := v; ssthresh := ssthresh c;
     state := state c; last_acked_seq := last_acked_seq c;
     unacked_packets := unacked_packets c;
     last_ack_received := last_ack_received c;
     duplicate_ack_count := duplicate_ack_count c;
     total_retransmissions := total_retransmissions c;
     timeout_retransmissions := timeout_retransmissions c;
     fast_retransmissions := fast_retransmissions c; sent := sent c |}.

Definition set_ssthresh (v : Z) (c : TCPClient) : TCPClient :=
  {| chunks := chunks c; cwnd := cwnd c; ssthresh := v;
     state := state c; last_acked_seq := last_acked_seq c;
     unacked_packets := unacked_packets c;
     last_ack_received := last_ack_received c;
     duplicate_ack_count := duplicate_ack_count c;
     total_retransmissions := total_retransmissions c;
     timeout_retransmissions := timeout_retransmissions c;
     fast_retransmissions := fast_retransmissions c; sent := sent c |}.

Definition set_state (v : phase) (c : TCPClient) : TCPClient :=
  {| chunks := chunks c; cwnd := cwnd c; ssthresh := ssthresh c;
     state := v; last_acked_seq := last_acked_seq c;
     unacked_packets := unacked_packets c;
     last_ack_received := last_ack_received c;
     duplicate_ack_count := duplicate_ack_count c;
     total_retransmissions := total_retransmissions c;
     timeout_retransmissions := timeout_retransmissions c;
     fast_retransmissions := fast_retransmissions c; sent := sent c |}.

Definition set_last_acked_seq (v : Z) (c : TCPClient) : TCPClient :=
  {| chunks := chunks c; cwnd := cwnd c; ssthresh := ssthresh c;
     state := state c; last_acked_seq := v;
     unacked_packets := unacked_packets c;
     last_ack_received := last_ack_received c;
     duplicate_ack_count := duplicate_ack_count c;
     total_retransmissions := total_retransmissions c;
     timeout_retransmissions := timeout_retransmissions c;
     fast_retransmissions := fast_retransmissions c; sent := sent c |}.

Definition set_unacked_packets (v : list (Z * unacked_entry))
    (c : TCPClient) : TCPClient :=
  {| chunks := chunks c; cwnd := cwnd c; ssthresh := ssthresh c;
     state := state c; last_acked_seq := last_acked_seq c;
     unacked_packets := v;
     last_ack_received := last_ack_received c;
     duplicate_ack_count := duplicate_ack_count c;
     total_retransmissions := total_retransmissions c;
     timeout_retransmissions := timeout_retransmissions c;
     fast_retransmissions := fast_retransmissions c; sent := sent c |}.

Definition set_last_ack_received (v : Z) (c : TCPClient) : TCPClient :=
  {| chunks := chunks c; cwnd := cwnd c; ssthresh := ssthresh c;
     state := state c; last_acked_seq := last_acked_seq c;
     unacked_packets := unacked_packets c;
     last_ack_received := v;
     duplicate_ack_count := duplicate_ack_count c;
     total_retransmissions := total_retransmissions c;
     timeout_retransmissions := timeout_retransmissions c;
     fast_retransmissions := fast_retransmissions c; sent := sent c |}.

Definition set_duplicate_ack_count (v : Z) (c : TCPClient) : TCPClient :=
  {| chunks := chunks c; cwnd := cwnd c; ssthresh := ssthresh c;
     state := state c; last_acked_seq := last_acked_seq c;
     unacked_packets := unacked_packets c;
     last_ack_received := last_ack_received c;
     duplicate_ack_count := v;
     total_retransmissions := total_retransmissions c;
     timeout_retransmissions := timeout_retransmissions c;
     fast_retransmissions := fast_retransmissions c; sent := sent c |}.

(** [self.total_retransmissions += 1; self.timeout_retransmissions += 1]. *)
Definition count_timeout_retransmission (c : TCPClient) : TCPClient :=
  {| chunks := chunks c; cwnd := cwnd c; ssthresh := ssthresh c;
     state := state c; last_acked_seq := last_acked_seq c;
     unacked_packets := unacked_packets c;
     last_ack_received := last_ack_received c;
     duplicate_ack_count := duplicate_ack_count c;
     total_retransmissions := total_retransmissions c + 1;
     timeout_retransmissions := timeout_retransmissions c + 1;
     fast_retransmissions := fast_retransmissions c; sent := sent c |}.

(** [self.total_retransmissions += 1; self.fast_retransmissions += 1]. *)
Definition count_fast_retransmission (c : TCPClient) : TCPClient :=
  {| chunks := chunks c; cwnd := cwnd c; ssthresh := ssthresh c;
     state := state c; last_acked_seq := last_acked_seq c;
     unacked_packets := unacked_packets c;
     last_ack_received := last_ack_received c;
     duplicate_ack_count := duplicate_ack_count c;
     total_retransmissions := total_retransmissions c + 1;
     timeout_retransmissions := timeout_retransmissions c;
     fast_retransmissions := fast_retransmissions c + 1; sent := sent c |}.

(** [self.sock.sendto(packet, (self.server_host, self.server_port))]. *)
Definition sendto (packet : bytes) (c : TCPClient) : TCPClient :=
  {| chunks := chunks c; cwnd := cwnd c; ssthresh := ssthresh c;
     state := state c; last_acked_seq := last_acked_seq c;
     unacked_packets := unacked_packets c;
     last_ack_received := last_ack_received c;
     duplicate_ack_count := duplicate_ack_count c;
     total_retransmissions := total_retransmissions c;
     timeout_retransmissions := timeout_retransmissions c;
     fast_retransmissions := fast_retransmissions c;
     sent := sent c ++ [packet] |}.

(** *** Insertion-ordered dictionary with integer keys *)

Section Dict.
Context {V : Type}.

(** [k in d] / [d[k]]. *)
Fixpoint dict_get (d : list (Z * V)) (k : Z) : option V :=
  match d with
  | [] => None
  | (k', v) :: d' => if decide (k' = k) then Some v else dict_get d' k
  end.

(** [d[k] = v]: an existing key keeps its position, a new key goes
    last. *)
Fixpoint dict_set (d : list (Z * V)) (k : Z) (v : V) : list (Z * V) :=
  match d with
  | [] => [(k, v)]
  | (k', v') :: d' =>
      if decide (k' = k) then (k, v) :: d'
      else (k', v') :: dict_set d' k v
  end.

(** [d.pop(k, default)], the dictionary afterwards. *)
Fixpoint dict_pop (d : list (Z * V)) (k : Z) : list (Z * V) :=
  match d with
  | [] => []
  | (k', v') :: d' =>
      if decide (k' = k) then d' else (k', v') :: dict_pop d' k
  end.

(** [list(d.keys())]. *)
Definition dict_keys (d : list (Z * V)) : list Z := d.*1.
End Dict.

(** The scan [for s, chunk_data in self.chunks: if s == seq: ...; break]:
    the payload of the first segment whose seq is [seq]. *)
Fixpoint find_chunk (cs : list segment) (seq : Z) : option bytes :=
  match cs with
  | [] => None
  | (s, chunk_data) :: cs' =>
      if decide (s = seq) then Some chunk_data else find_chunk cs' seq
  end.

(** [__init__] followed by the segmentation of [read_file]. *)
Definition client_init (file_data : bytes) : TCPClient :=
  {| chunks := read_file_chunks file_data;
     cwnd := INITIAL_CWND; ssthresh := INITIAL_SSTHRESH;
     state := slow_start; last_acked_seq := -1;
     unacked_packets := []; last_ack_received := -1;
     duplicate_ack_count := 0; total_retransmissions := 0;
     timeout_retransmissions := 0; fast_retransmissions := 0;
     sent := [] |}.

(** The test of [can_send_more] on one key of [unacked_packets]:
    [packet_size] is truthy and
    [seq + packet_size > self.last_acked_seq + 1]. *)
Definition in_flight (c : TCPClient) (seq : Z) : bool :=
  match find_chunk (chunks c) seq with
  | Some chunk_data =>
      let packet_size := Z.of_nat (length chunk_data) in
      bool_decide (packet_size <> 0)
      && bool_decide (seq + packet_size > last_acked_seq c + 1)
  | None => false
  end.

Definition in_flight_count (c : TCPClient) : nat :=
  length (filter (fun seq => in_flight c seq = true)
            (dict_keys (unacked_packets c))).

(** [can_send_more]; [int(self.cwnd)] is [cwnd] itself. *)
Definition can_send_more (c : TCPClient) : bool :=
  bool_decide (Z.of_nat (in_flight_count c) < cwnd c).

(** [send_packet]; [send_time] is the reading of [time.time()]. *)
Definition send_packet (send_time : Q) (seq_num : Z) (data : bytes)
    (is_retransmit : bool) (c : TCPClient) : outcome * TCPClient :=
  match create_packet seq_num data with
  | None => (Raised, c)
  | Some packet =>
      let c := sendto packet c in
      match dict_get (unacked_packets c) seq_num with
      | None =>
          let c := set_unacked_packets
                     (dict_set (unacked_packets c) seq_num
                        (packet, send_time, 0)) c in
          (Returned,
           if is_retransmit then count_timeout_retransmission c else c)
      | Some (old_packet, old_time, retransmit_count) =>
          let c := set_unacked_packets
                     (dict_set (unacked_packets c) seq_num
                        (packet, send_time, retransmit_count + 1)) c in
          (Returned,
           if is_retransmit then count_timeout_retransmission c
           else count_fast_retransmission c)
      end
  end.

(** [max(int(self.cwnd / 2), 2)]. *)
Definition halved (c : TCPClient) : Z :=
  Z.max (py_int (inject_Z (cwnd c) / 2)) 2.

(** The body of [if self.duplicate_ack_count == FAST_RETRANSMIT_DUP_ACKS]. *)
Definition fast_retransmit (send_time : Q) (ack_num : Z) (c : TCPClient)
    : outcome * TCPClient :=
  let retransmit_seq := ack_num in
  match find_chunk (chunks c) retransmit_seq with
  | None => (Returned, c)
  | Some chunk_data =>
      match create_packet retransmit_seq chunk_data with
      | None => (Raised, c)
      | Some packet =>
          let c := sendto packet c in
          let entry :=
            match dict_get (unacked_packets c) retransmit_seq with
            | Some (old_packet, old_time, retransmit_count) =>
                (packet, send_time, retransmit_count + 1)
            | None => (packet, send_time, 1)
            end in
          let c := set_unacked_packets
                     (dict_set (unacked_packets c) retransmit_seq entry) c in
          let c := count_fast_retransmission c in
          let c := set_ssthresh (halved c) c in
          let c := set_cwnd (ssthresh c + 3) c in
          let c := set_state congestion_avoidance c in
          (Returned, set_duplicate_ack_count 0 c)
      end
  end.

(** The test that puts a key of [unacked_packets] into [acked_packets]:
    [packet_size and seq + packet_size <= ack_num]. *)
Definition covered (c : TCPClient) (ack_num seq : Z) : bool :=
  match find_chunk (chunks c) seq with
  | Some chunk_data =>
      let packet_size := Z.of_nat (length chunk_data) in
      bool_decide (packet_size <> 0)
      && bool_decide (seq + packet_size <= ack_num)
  | None => false
  end.

Definition acked_packets (c : TCPClient) (ack_num : Z) : list Z :=
  filter (fun seq => covered c ack_num seq = true)
    (dict_keys (unacked_packets c)).

(** The window update that ends the new-ACK branch.  In congestion
    avoidance [packets_acked / self.cwnd] is a true division: it raises
    [ZeroDivisionError] when [cwnd] is 0. *)
Definition grow_window (packets_acked : Z) (c : TCPClient)
    : outcome * TCPClient :=
  match state c with
  | slow_start =>
      let c := set_cwnd (cwnd c + packets_acked) c in
      (Returned,
       if bool_decide (cwnd c >= ssthresh c)
       then set_state congestion_avoidance c else c)
  | congestion_avoidance =>
      if decide (cwnd c = 0) then (Raised, c)
      else
        let x := (inject_Z (cwnd c)
                  + inject_Z packets_acked / inject_Z (cwnd c))%Q in
        (Returned, set_cwnd (if Qle_bool 1 x then py_int x else 1) c)
  end.

(** [handle_ack]; [send_time] is the clock reading taken by a fast
    retransmission. *)
Definition handle_ack (send_time : Q) (ack_num : Z) (c : TCPClient)
    : outcome * TCPClient :=
  if decide (ack_num = last_ack_received c) then
    let c := set_duplicate_ack_count (duplicate_ack_count c + 1) c in
    if decide (duplicate_ack_count c = FAST_RETRANSMIT_DUP_ACKS)
    then fast_retransmit send_time ack_num c
    else (Returned, c)
  else if bool_decide (ack_num > last_ack_received c) then
    let c := set_duplicate_ack_count 0 c in
    let c := set_last_ack_received ack_num c in
    let acked := acked_packets c ack_num in
    let c := set_unacked_packets
               (fold_left dict_pop acked (unacked_packets c)) c in
    let c := set_last_acked_seq (Z.max (last_acked_seq c) (ack_num - 1)) c in
    grow_window (Z.of_nat (length acked)) c
  else (Returned, c).

(** First loop of [check_timeouts]: the keys whose
    [current_time - send_time] exceeds [TIMEOUT], in dictionary order. *)
Definition timed_out_packets (current_time : Q) (c : TCPClient) : list Z :=
  dict_keys
    (filter (fun kv => Qltb TIMEOUT (current_time - kv.2.1.2) = true)
       (unacked_packets c)).

(** Second loop of [check_timeouts].  [clock k] is the reading that the
    [k]-th call of [send_packet] in this poll takes. *)
Fixpoint retransmit_all (clock : nat -> Q) (k : nat) (seqs : list Z)
    (c : TCPClient) : outcome * TCPClient :=
  match seqs with
  | [] => (Returned, c)
  | seq_num :: seqs' =>
      match find_chunk (chunks c) seq_num with
      | None => retransmit_all clock k seqs' c
      | Some chunk_data =>
          let c := set_ssthresh (halved c) c in
          let c := set_cwnd INITIAL_CWND c in
          let c := set_state slow_start c in
          match send_packet (clock k) seq_num chunk_data true c with
          | (Raised, c') => (Raised, c')
          | (Returned, c') => retransmit_all clock (S k) seqs' c'
          end
      end
  end.

Definition check_timeouts (current_time : Q) (clock : nat -> Q)
    (c : TCPClient) : outcome * TCPClient :=
  retransmit_all clock 0 (timed_out_packets current_time c) c.

(** The sender as a whole: the client object and the local
    [chunk_index] of the loop in [transfer_file]. *)
Record Sender := { client : TCPClient; chunk_index : nat }.

(** Bytes that the send loop has transmitted so far: the lengths of the
    segments before [chunk_index]. *)
Definition sent_offset (s : Sender) : Z :=
  Z.of_nat (sum_list_with (fun c : segment => length c.2)
              (take (chunk_index s) (chunks (client s)))).

(** One atomic action of the sender: an iteration of the inner send
    loop of [transfer_file], an ACK datagram handed to [handle_ack] by
    [receiver_thread] (a 4-byte value), or a poll of [check_timeouts]
    from either thread.  [ack_ok] says which ACK values the network may
    deliver in a given state. *)
Inductive sender_step (ack_ok : Sender -> Z -> Prop)
    : Sender -> Sender -> Prop :=
  | step_send c i t seq_num chunk_data c' :
      can_send_more c = true ->
      chunks c !! i = Some (seq_num, chunk_data) ->
      send_packet t seq_num chunk_data false c = (Returned, c') ->
      sender_step ack_ok {| client := c; chunk_index := i |}
                         {| client := c'; chunk_index := S i |}
  | step_ack c i t ack_num o c' :
      0 <= ack_num < 2 ^ 32 ->
      ack_ok {| client := c; chunk_index := i |} ack_num ->
      handle_ack t ack_num c = (o, c') ->
      sender_step ack_ok {| client := c; chunk_index := i |}
                         {| client := c'; chunk_index := i |}
  | step_timeouts c i now clock o c' :
      check_timeouts now clock c = (o, c') ->
      sender_step ack_ok {| client := c; chunk_index := i |}
                         {| client := c'; chunk_index := i |}.

Inductive sender_run (ack_ok : Sender -> Z -> Prop) (file_data : bytes)
    : Sender -> Prop :=
  | run_init :
      sender_run ack_ok file_data
        {| client := client_init file_data; chunk_index := 0 |}
  | run_step s s' :
      sender_run ack_ok file_data s -> sender_step ack_ok s s' ->
      sender_run ack_ok file_data s'.

(** States of a transfer of [file_data], whatever ACKs arrive. *)
Definition sender_reachable (file_data : bytes) : Sender -> Prop :=
  sender_run (fun _ _ => True) file_data.

(** States of a transfer in which no ACK acknowledges a byte beyond the
    segments that the send loop has transmitted. *)
Definition acks_within_sent (s : Sender) (ack_num : Z) : Prop :=
  ack_num <= sent_offset s.

Definition sender_reachable_within_sent (file_data : bytes)
    : Sender -> Prop :=
  sender_run acks_within_sent file_data.

(** ** The receiver: [TCPServer] *)

(** A socket address [(host, port)]. *)
Abbreviation address := (string * Z)%type.

(** [timer_threads] counts the [send_ack_after_rtt] threads that have
    been started and have not yet run their body; [outbox] is the trace
    of [sock.sendto], oldest first. *)
Record TCPServer := {
  loss_prob : Q;
  expected_seq : Z;
  received_data : gmap Z bytes;
  output_buffer : list bytes;
  ack_timer_active : bool;
  timer_threads : nat;
  client_addr : option address;
  total_packets_received : Z;
  total_packets_dropped : Z;
  total_checksum_errors : Z;
  outbox : list (bytes * address)
}.

(** [TCPServer.__init__]. *)
Definition server_init (loss : Q) : TCPServer :=
  {| loss_prob := loss; expected_seq := 0; received_data := ∅;
     output_buffer := []; ack_timer_active := false; timer_threads := 0;
     client_addr := None; total_packets_received := 0;
     total_packets_dropped := 0; total_checksum_errors := 0;
     outbox := [] |}.

Definition verify_checksum (data : bytes) (received_checksum : Z) : bool :=
  bool_decide (calculate_checksum data = received_checksum).

(** [send_ack]: [struct.pack] raises when [ack_num] does not fit four
    bytes, and then nothing is sent. *)
Definition send_ack (addr : address) (ack_num : Z) (s : TCPServer)
    : outcome * TCPServer :=
  match pack_u32 ack_num with
  | None => (Raised, s)
  | Some ack_packet =>
      (Returned,
       {| loss_prob := loss_prob s; expected_seq := expected_seq s;
          received_data := received_data s;
          output_buffer := output_buffer s;
          ack_timer_active := ack_timer_active s;
          timer_threads := timer_threads s;
          client_addr := client_addr s;
          total_packets_received := total_packets_received s;
          total_packets_dropped := total_packets_dropped s;
          total_checksum_errors := total_checksum_errors s;
          outbox := outbox s ++ [(ack_packet, addr)] |})
  end.

Definition set_ack_timer_active (v : bool) (s : TCPServer) : TCPServer :=
  {| loss_prob := loss_prob s; expected_seq := expected_seq s;
     received_data := received_data s; output_buffer := output_buffer s;
     ack_timer_active := v; timer_threads := timer_threads s;
     client_addr := client_addr s;
     total_packets_received := total_packets_received s;
     total_packets_dropped := total_packets_dropped s;
     total_checksum_errors := total_checksum_errors s;
     outbox := outbox s |}.

Definition set_timer_threads (v : nat) (s : TCPServer) : TCPServer :=
  {| loss_prob := loss_prob s; expected_seq := expected_seq s;
     received_data := received_data s; output_buffer := output_buffer s;
     ack_timer_active := ack_timer_active s; timer_threads := v;
     client_addr := client_addr s;
     total_packets_received := total_packets_received s;
     total_packets_dropped := total_packets_dropped s;
     total_checksum_errors := total_checksum_errors s;
     outbox := outbox s |}.

Definition set_client_addr (v : option address) (s : TCPServer)
    : TCPServer :=
  {| loss_prob := loss_prob s; expected_seq := expected_seq s;
     received_data := received_data s; output_buffer := output_buffer s;
     ack_timer_active := ack_timer_active s;
     timer_threads := timer_threads s; client_addr := v;
     total_packets_received := total_packets_received s;
     total_packets_dropped := total_packets_dropped s;
     total_checksum_errors := total_checksum_errors s;
     outbox := outbox s |}.

Definition set_received_data (v : gmap Z bytes) (s : TCPServer)
    : TCPServer :=
  {| loss_prob := loss_prob s; expected_seq := expected_seq s;
     received_data := v; output_buffer := output_buffer s;
     ack_timer_active := ack_timer_active s;
     timer_threads := timer_threads s; client_addr := client_addr s;
     total_packets_received := total_packets_received s;
     total_packets_dropped := total_packets_dropped s;
     total_checksum_errors := total_checksum_errors s;
     outbox := outbox s |}.

Definition count_dropped (s : TCPServer) : TCPServer :=
  {| loss_prob := loss_prob s; expected_seq := expected_seq s;
     received_data := received_data s; output_buffer := output_buffer s;
     ack_timer_active := ack_timer_active s;
     timer_threads := timer_threads s; client_addr := client_addr s;
     total_packets_received := total_packets_received s;
     total_packets_dropped := total_packets_dropped s + 1;
     total_checksum_errors := total_checksum_errors s;
     outbox := outbox s |}.

Definition count_received (s : TCPServer) : TCPServer :=
  {| loss_prob := loss_prob s; expected_seq := expected_seq s;
     received_data := received_data s; output_buffer := output_buffer s;
     ack_timer_active := ack_timer_active s;
     timer_threads := timer_threads s; client_addr := client_addr s;
     total_packets_received := total_packets_received s + 1;
     total_packets_dropped := total_packets_dropped s;
     total_checksum_errors := total_checksum_errors s;
     outbox := outbox s |}.

Definition count_checksum_error (s : TCPServer) : TCPServer :=
  {| loss_prob := loss_prob s; expected_seq := expected_seq s;
     received_data := received_data s; output_buffer := output_buffer s;
     ack_timer_active := ack_timer_active s;
     timer_threads := timer_threads s; client_addr := client_addr s;
     total_packets_received := total_packets_received s;
     total_packets_dropped := total_packets_dropped s;
     total_checksum_errors := total_checksum_errors s + 1;
     outbox := outbox s |}.

(** One iteration of the delivery loop:
    [self.output_buffer.append(self.received_data.pop(self.expected_seq))]
    then [self.expected_seq += len(self.output_buffer[-1])]. *)
Definition deliver (data : bytes) (s : TCPServer) : TCPServer :=
  {| loss_prob := loss_prob s;
     expected_seq := expected_seq s + Z.of_nat (length data);
     received_data := delete (expected_seq s) (received_data s);
     output_buffer := output_buffer s ++ [data];
     ack_timer_active := ack_timer_active s;
     timer_threads := timer_threads s; client_addr := client_addr s;
     total_packets_received := total_packets_received s;
     total_packets_dropped := total_packets_dropped s;
     total_checksum_errors := total_checksum_errors s;
     outbox := outbox s |}.

(** [while self.expected_seq in self.received_data: ...].  Every
    iteration removes a key, so the size of the dictionary at loop entry
    bounds the number of iterations. *)
Fixpoint deliver_loop (fuel : nat) (s : TCPServer) : TCPServer :=
  match fuel with
  | O => s
  | S fuel' =>
      match received_data s !! expected_seq s with
      | Some data => deliver_loop fuel' (deliver data s)
      | None => s
      end
  end.

(** The [if is_new_packet:] block: store the payload, and start the
    delayed-ACK thread unless one is pending. *)
Definition store_new (seq_num : Z) (data : bytes) (s : TCPServer)
    : TCPServer :=
  let s := set_received_data (<[seq_num := data]> (received_data s)) s in
  if ack_timer_active s then s
  else set_timer_threads (S (timer_threads s)) (set_ack_timer_active true s).

(** [process_packet]; [r] is the value of [random.random()]. *)
Definition process_packet (packet_data : bytes) (addr : address) (r : Q)
    (s : TCPServer) : outcome * TCPServer :=
  if (length packet_data <? SEQ_NUM_SIZE + CHECKSUM_SIZE)%nat
  then (Returned, s)
  else
    match unpack_u32 (slice packet_data 0 SEQ_NUM_SIZE),
          unpack_u16 (slice packet_data SEQ_NUM_SIZE
                        (SEQ_NUM_SIZE + CHECKSUM_SIZE)) with
    | Some seq_num, Some checksum =>
        let data := drop (SEQ_NUM_SIZE + CHECKSUM_SIZE) packet_data in
        if Qltb r (loss_prob s) then (Returned, count_dropped s)
        else
          let s := count_received s in
          if negb (verify_checksum data checksum)
          then (Returned, count_checksum_error s)
          else
            let s := match client_addr s with
                     | None => set_client_addr (Some addr) s
                     | Some _ => s
                     end in
            if bool_decide (seq_num < expected_seq s)
            then send_ack addr (expected_seq s) s
            else
              let s := match received_data s !! seq_num with
                       | None => store_new seq_num data s
                       | Some _ => s
                       end in
              (Returned, deliver_loop (size (received_data s)) s)
    | _, _ => (Raised, s)
    end.

(** The body of a delayed-ACK thread once its sleep is over.  With no
    latched address [sendto] raises. *)
Definition send_ack_after_rtt (s : TCPServer) : outcome * TCPServer :=
  let s := set_timer_threads (pred (timer_threads s)) s in
  if ack_timer_active s then
    match client_addr s with
    | None => (Raised, s)
    | Some addr =>
        match send_ack addr (expected_seq s) s with
        | (Returned, s') => (Returned, set_ack_timer_active false s')
        | (Raised, s') => (Raised, s')
        end
    end
  else (Returned, s).

(** Largest datagram [recvfrom(65507)] returns. *)
Definition MAX_DATAGRAM : Z := 65507.

(** One atomic action of the receiver: a datagram taken by [run] and
    passed to [process_packet], or a delayed-ACK thread waking up. *)
Inductive server_step : TCPServer -> TCPServer -> Prop :=
  | step_packet s packet_data addr r o s' :
      Z.of_nat (length packet_data) <= MAX_DATAGRAM ->
      (0 <= r)%Q -> (r < 1)%Q ->
      process_packet packet_data addr r s = (o, s') ->
      server_step s s'
  | step_timer s o s' :
      (0 < timer_threads s)%nat ->
      send_ack_after_rtt s = (o, s') ->
      server_step s s'.

Inductive server_reachable (loss : Q) : TCPServer -> Prop :=
  | server_reach_init : server_reachable loss (server_init loss)
  | server_reach_step s s' :
      server_reachable loss s -> server_step s s' ->
      server_reachable loss s'.

(** Feeding a list of arrivals to [process_packet], one call each; an
    arrival is a datagram, its source address and the draw of the loss
    injector for it. *)
Definition receive_all (arrivals : list (bytes * address * Q))
    (s : TCPServer) : TCPServer :=
  fold_left (fun s d => (process_packet d.1.1 d.1.2 d.2 s).2) arrivals s.

(** The three fields that [process_packet] reads off a datagram of at
    least six bytes: seq, checksum, payload. *)
Definition packet_fields (packet_data : bytes) : option (Z * Z * bytes) :=
  if (length packet_data <? SEQ_NUM_SIZE + CHECKSUM_SIZE)%nat then None
  else
    seq_num ← unpack_u32 (slice packet_data 0 SEQ_NUM_SIZE);
    checksum ← unpack_u16 (slice packet_data SEQ_NUM_SIZE
                             (SEQ_NUM_SIZE + CHECKSUM_SIZE));
    Some (seq_num, checksum,
          drop (SEQ_NUM_SIZE + CHECKSUM_SIZE) packet_data).

(** A datagram that passes the loss injector (draw [r]) and the
    checksum test of a receiver in state [s], with its seq and
    payload. *)
Definition accepted (s : TCPServer) (packet_data : bytes) (r : Q)
    (seq_num : Z) (data : bytes) : Prop :=
  exists checksum,
    packet_fields packet_data = Some (seq_num, checksum, data)
    /\ Qltb r (loss_prob s) = false
    /\ verify_checksum data checksum = true.

(** Number of payload bytes in [output_buffer]. *)
Definition delivered_bytes (s : TCPServer) : Z :=
  Z.of_nat (sum_list_with length (output_buffer s)).

(** The fields of the receiver other than its three statistics counters
    and its outbound trace. *)
Definition receiver_state (s : TCPServer)
    : Z * gmap Z bytes * list bytes * option address * bool * nat :=
  (expected_seq s, received_data s, output_buffer s, client_addr s,
   ack_timer_active s, timer_threads s).

(** What holds of the receiver between any two of its actions. *)
Definition server_inv (s : TCPServer) : Prop :=
  expected_seq s = delivered_bytes s
  /\ (client_addr s = None -> expected_seq s = 0).

(** The receiver once a datagram has passed the checksum test: counted,
    and [client_addr] latched if it was still [None]. *)
Definition latched (addr : address) (s : TCPServer) : TCPServer :=
  let s := count_received s in
  match client_addr s with
  | None => set_client_addr (Some addr) s
  | Some _ => s
  end.

(** A full-size payload, and the receiver after the first [n >= 1]
    segments of a file of such payloads have arrived in order with the
    loss injector off and no delayed ACK sent yet. *)
Definition full_payload : bytes := replicate CHUNK_SIZE x00.

Definition after_segments (a : address) (n : nat) : TCPServer :=
  {| loss_prob := 0; expected_seq := Z.of_nat n * 1024;
     received_data := ∅; output_buffer := replicate n full_payload;
     ack_timer_active := true; timer_threads := 1;
     client_addr := Some a; total_packets_received := Z.of_nat n;
     total_packets_dropped := 0; total_checksum_errors := 0;
     outbox := [] |}.

(** The datagram of the segment at offset 0 of such a file. *)
Definition first_packet : bytes :=
  [x00; x00; x00; x00; x00; x00] ++ full_payload.

Definition some_addr : address := ("127.0.0.1"%string, 50000).

(** The receiver once 2^22 such segments, four gibibytes, have arrived
    in order. *)
Definition four_gib_receiver : TCPServer :=
  after_segments some_addr (Z.to_nat 4194304).

(** Segments laid end to end from offset [off], none empty. *)
Fixpoint contig (off : Z) (cs : list segment) : Prop :=
  match cs with
  | [] => True
  | (s, d) :: cs' =>
      s = off /\ d <> [] /\ contig (off + Z.of_nat (length d)) cs'
  end.

Definition end_offset (off : Z) (cs : list segment) : Z :=
  off + Z.of_nat (sum_list_with (fun c : segment => length c.2) cs).

(** [p] is the datagram the sender builds for segment [c]. *)
Definition packet_of (c : segment) (p : bytes) : Prop :=
  create_packet c.1 c.2 = Some p.

(** The receiver part-way through the segments [cs], having been handed
    the datagrams [seen] with the loss injector off: a prefix of [cs]
    is delivered, and of the rest exactly the segments that have
    arrived are buffered. *)
Definition reassembling (cs : list segment) (seen : list bytes)
    (s : TCPServer) : Prop :=
  loss_prob s = 0%Q
  /\ exists delivered todo,
       cs = delivered ++ todo
       /\ output_buffer s = delivered.*2
       /\ expected_seq s = end_offset 0 delivered
       /\ (forall seq_num d,
             received_data s !! seq_num = Some d -> (seq_num, d) ∈ todo)
       /\ (forall c p, c ∈ todo -> packet_of c p -> p ∈ seen ->
             received_data s !! c.1 = Some c.2).

(** What holds of the sender object between any two of its actions, in
    a transfer of [file_data]. *)
Definition client_inv (file_data : bytes) (c : TCPClient) : Prop :=
  chunks c = read_file_chunks file_data
  /\ NoDup (dict_keys (unacked_packets c))
  /\ (forall seq_num p t n,
        dict_get (unacked_packets c) seq_num = Some (p, t, n) ->
        exists d, find_chunk (chunks c) seq_num = Some d
                  /\ create_packet seq_num d = Some p)
  /\ 1 <= cwnd c
  /\ 2 <= ssthresh c
  /\ total_retransmissions c
     = timeout_retransmissions c + fast_retransmissions c
  /\ last_acked_seq c = Z.max (-1) (last_ack_received c - 1).

(** What holds in addition while no ACK runs ahead of the send loop:
    every unacknowledged segment passes the test of [can_send_more]. *)
Definition window_inv (s : Sender) : Prop :=
  last_ack_received (client s) <= sent_offset s
  /\ Forall (fun seq_num => in_flight (client s) seq_num = true)
       (dict_keys (unacked_packets (client s))).

(** The datagram that retransmits segment [seq_num] of the segment
    table of [c]: the original payload under a fresh header. *)
Definition retransmission_of (c : TCPClient) (seq_num : Z) (p : bytes)
    : Prop :=
  exists d, find_chunk (chunks c) seq_num = Some d
            /\ create_packet seq_num d = Some p.

(** The window after the timeout reactions for [seqs], starting from
    [c] and ending in [c']: nothing changes without a timeout; one
    timeout halves from [cwnd c]; each further one halves from the
    [cwnd = 1] that the reaction before it left. *)
Definition window_after_timeouts (seqs : list Z) (c c' : TCPClient)
    : Prop :=
  match seqs with
  | [] => cwnd c' = cwnd c /\ ssthresh c' = ssthresh c
          /\ state c' = state c
  | _ :: rest =>
      cwnd c' = 1 /\ state c' = slow_start
      /\ ssthresh c' = match rest with
                       | [] => Z.max (cwnd c / 2) 2
                       | _ :: _ => Z.max (1 / 2) 2
                       end
  end.

(** A run in which a segment is first sent by the fast retransmission.
    The file has three segments (seq 0, 1024 and 2048).  The send loop
    sends segment 0; ACK 1024 arrives, then three duplicates of it,
    which fast-retransmit segment 1024 before the send loop has sent
    it; ACK 2048 acknowledges that segment; the send loop then sends
    segment 1024 for its own first time; half a second later a poll
    times that send out. *)
Definition three_segment_file : bytes := replicate 2049 x00.

Definition run_c1 : TCPClient :=
  (send_packet 0 0 full_payload false (client_init three_segment_file)).2.
Definition run_c2 : TCPClient := (handle_ack 0 1024 run_c1).2.
Definition run_c3 : TCPClient := (handle_ack 0 1024 run_c2).2.
Definition run_c4 : TCPClient := (handle_ack 0 1024 run_c3).2.
Definition run_c5 : TCPClient := (handle_ack 0 1024 run_c4).2.
Definition run_c6 : TCPClient := (handle_ack 0 2048 run_c5).2.
Definition run_c7 : TCPClient :=
  (send_packet 0 1024 full_payload false run_c6).2.
Definition run_c8 : TCPClient :=
  (check_timeouts 1 (fun _ => 1%Q) run_c7).2.

(** A run that ends a one-segment transfer: the segment is sent, the
    final ACK 3 arrives, and two duplicates of it follow (each copy of
    the segment that reaches the receiver again is answered by one). *)
Definition small_file : bytes := [x01; x02; x03].

Definition dup_c1 : TCPClient :=
  (send_packet 0 0 small_file false (client_init small_file)).2.
Definition dup_c2 : TCPClient := (handle_ack 0 3 dup_c1).2.
Definition dup_c3 : TCPClient := (handle_ack 0 3 dup_c2).2.
Definition dup_c4 : TCPClient := (handle_ack 0 3 dup_c3).2.

(** The datagrams of the first two segments of [three_segment_file]. *)
Definition second_packet : bytes :=
  [x00; x00; x04; x00; x00; x00] ++ full_payload.

(** ** The sender's receive loop: [TCPClient.receiver_thread] *)

(** What [self.sock.recvfrom(ACK_SIZE)] does in one iteration: it
    returns a datagram, raises [socket.timeout], or raises another
    exception. *)
Inductive recv_result :=
  | recv_data (data : bytes)
  | recv_timeout
  | recv_error.

(** How one iteration of a [while True:] loop ends: the loop goes on,
    [break] leaves it, or an exception escapes it. *)
Inductive loop_exit := Continue | Break | Escaped.

(** The test of the [except Exception] handler,
    [self.last_acked_seq >= self.chunks[-1][0] + len(self.chunks[-1][1]) - 1];
    [self.chunks[-1]] raises [IndexError] ([None]) on an empty table. *)
Definition transfer_acked (c : TCPClient) : option bool :=
  match last (chunks c) with
  | None => None
  | Some (s, chunk_data) =>
      Some (bool_decide
              (last_acked_seq c >= s + Z.of_nat (length chunk_data) - 1))
  end.

(** The [except Exception] handler; an exception raised inside a
    handler leaves the loop. *)
Definition receiver_thread_except (c : TCPClient) : loop_exit * TCPClient :=
  match transfer_acked c with
  | None => (Escaped, c)
  | Some true => (Break, c)
  | Some false => (Continue, c)
  end.

(** One iteration of the loop of [receiver_thread].  [now] is the clock
    reading of a fast retransmission or of the poll, [clock] gives the
    readings of the sends of the poll. *)
Definition receiver_thread_iter (ev : recv_result) (now : Q)
    (clock : nat -> Q) (c : TCPClient) : loop_exit * TCPClient :=
  match ev with
  | recv_data data =>
      if (ACK_SIZE <=? length data)%nat then
        match unpack_u32 data with
        | None => receiver_thread_except c
        | Some ack_num =>
            match handle_ack now ack_num c with
            | (Returned, c') => (Continue, c')
            | (Raised, c') => receiver_thread_except c'
            end
        end
      else (Continue, c)
  | recv_timeout =>
      match check_timeouts now clock c with
      | (Returned, c') => (Continue, c')
      | (Raised, c') => (Escaped, c')
      end
  | recv_error => receiver_thread_except c
  end.

(** ** The receiver's main loop: [TCPServer.run] *)

(** The server object together with the locals [client_addr] and
    [last_packet_time] of [run]. *)
Record Run := {
  server : TCPServer;
  run_client_addr : option address;
  last_packet_time : option Q
}.

Definition run_entry (loss : Q) : Run :=
  {| server := server_init loss; run_client_addr := None;
     last_packet_time := None |}.

(** What [self.sock.recvfrom(65507)] does in one iteration. *)
Inductive arrival :=
  | got_packet (packet_data : bytes) (addr : address)
  | got_timeout
  | got_error.

Definition COMPLETION_TIMEOUT : Q := 30.

(** The test of the [except socket.timeout] handler of [run], with
    [now] the reading of [time.time()]; as a truth value
    [last_packet_time] is false when it is [None] or [0.0]. *)
Definition transfer_complete (now : Q) (st : Run) : bool :=
  match last_packet_time st with
  | None => false
  | Some t =>
      negb (Qeq_bool t 0) && Qltb COMPLETION_TIMEOUT (now - t)
      && bool_decide (expected_seq (server st) > 0)
      && (0 <? length (output_buffer (server st)))%nat
  end.

(** One iteration of the loop of [run].  [r] is the draw of the loss
    injector; [now] is the reading of [time.time()] that the iteration
    takes (after [process_packet], or in the timeout handler).  An
    exception of [process_packet] is caught by [except Exception], so
    [last_packet_time] is not assigned. *)
Definition run_iter (ev : arrival) (r now : Q) (st : Run)
    : loop_exit * Run :=
  match ev with
  | got_packet packet_data addr =>
      let client_addr := match run_client_addr st with
                         | None => addr
                         | Some a => a
                         end in
      match process_packet packet_data client_addr r (server st) with
      | (Returned, s') =>
          (Continue, {| server := s'; run_client_addr := Some client_addr;
                        last_packet_time := Some now |})
      | (Raised, s') =>
          (Continue, {| server := s'; run_client_addr := Some client_addr;
                        last_packet_time := last_packet_time st |})
      end
  | got_timeout =>
      if transfer_complete now st then (Break, st) else (Continue, st)
  | got_error => (Continue, st)
  end.

(** What [run] writes to [received.txt] once the loop is left: the
    chunks of [output_buffer] one after the other; no file when the
    buffer is empty. *)
Definition received_file (st : Run) : option bytes :=
  match output_buffer (server st) with
  | [] => None
  | _ :: _ => Some (concat (output_buffer (server st)))
  end.

(** The states of [run], with the datagrams [recvfrom] has returned so
    far and their source addresses: iterations of the loop interleaved
    with delayed-ACK threads. *)
Inductive run_from (loss : Q) : list (bytes * address) -> Run -> Prop :=
  | run_start : run_from loss [] (run_entry loss)
  | run_recv seen st packet_data addr r now st' :
      run_from loss seen st ->
      Z.of_nat (length packet_data) <= MAX_DATAGRAM ->
      (0 <= r)%Q -> (r < 1)%Q ->
      run_iter (got_packet packet_data addr) r now st = (Continue, st') ->
      run_from loss (seen ++ [(packet_data, addr)]) st'
  | run_idle seen st ev r now st' :
      run_from loss seen st ->
      ev = got_timeout \/ ev = got_error ->
      run_iter ev r now st = (Continue, st') ->
      run_from loss seen st'
  | run_timer seen st o s' :
      run_from loss seen st ->
      (0 < timer_threads (server st))%nat ->
      send_ack_after_rtt (server st) = (o, s') ->
      run_from loss seen
        {| server := s'; run_client_addr := run_client_addr st;
           last_packet_time := last_packet_time st |}.

(** ** Invariants used below *)

(** The phase agrees with the comparison of the window and the
    threshold. *)
Definition phase_inv (c : TCPClient) : Prop :=
  state c = slow_start <-> cwnd c < ssthresh c.

(** [p] is the datagram of a segment of the table of [c]. *)
Definition segment_datagram (c : TCPClient) (p : bytes) : Prop :=
  exists seg, seg ∈ chunks c /\ packet_of seg p.

(** What the outbound trace of the sender holds. *)
Definition sent_inv (s : Sender) : Prop :=
  Forall (segment_datagram (client s)) (sent (client s))
  /\ (forall i seg, (i < chunk_index s)%nat ->
        chunks (client s) !! i = Some seg ->
        exists p, packet_of seg p /\ p ∈ sent (client s))
  /\ total_retransmissions (client s)
     <= Z.of_nat (length (sent (client s)))
     <= Z.of_nat (chunk_index s) + total_retransmissions (client s).

(** The delayed-ACK machinery and the buffer of the receiver between
    any two of its actions. *)
Definition timer_inv (s : TCPServer) : Prop :=
  (timer_threads s <= 1)%nat
  /\ (ack_timer_active s = false -> timer_threads s = 0%nat)
  /\ (client_addr s = None ->
      ack_timer_active s = false /\ received_data s = ∅ /\ outbox s = [])
  /\ received_data s !! expected_seq s = None
  /\ (expected_seq s < 2 ^ 32 -> ack_timer_active s = true ->
      timer_threads s = 1%nat).

(** The local [client_addr] of [run] is the source of the first
    datagram [recvfrom] returned; every ACK sent so far went there, and
    it is the only address [self.client_addr] can hold. *)
Definition run_inv (seen : list (bytes * address)) (st : Run) : Prop :=
  run_client_addr st = snd <$> head seen
  /\ match run_client_addr st with
     | None => client_addr (server st) = None
     | Some a =>
         (client_addr (server st) = None
          \/ client_addr (server st) = Some a)
         /\ Forall (fun x : bytes * address => x.2 = a)
              (outbox (server st))
     end.

(** The receiver part-way through the segments [cs], whatever was lost
    on the way: a prefix of [cs] is delivered, and only segments of the
    rest are buffered. *)
Definition reassembly_safe (cs : list segment) (s : TCPServer) : Prop :=
  exists delivered todo,
    cs = delivered ++ todo
    /\ output_buffer s = delivered.*2
    /\ expected_seq s = end_offset 0 delivered
    /\ (forall seq_num d,
          received_data s !! seq_num = Some d -> (seq_num, d) ∈ todo).

(** What one operation of the sender may do to the segment table, the
    ACK bookkeeping and the outbound trace: going from [c] to [c'] it
    sent the datagrams [new]. *)
Definition sender_progress (c c' : TCPClient) (new : list bytes) : Prop :=
  chunks c' = chunks c
  /\ last_ack_received c <= last_ack_received c'
  /\ last_acked_seq c <= last_acked_seq c'
  /\ sent c' = sent c ++ new
  /\ Forall (segment_datagram c) new.

(** Concrete inputs for the receiver.  The datagram of the only segment
    of [small_file]; a receiver that has buffered the second segment of
    a file while the first is still missing; and a run of the loop of
    [run] in which the first segment arrives from one address and a
    second copy of it from another. *)
Definition small_packet : bytes :=
  [x00; x00; x00; x00; x00; x06; x01; x02; x03].

Definition buffered_second : TCPServer :=
  (process_packet second_packet some_addr 0 (server_init 0)).2.

Definition other_addr : address := ("127.0.0.1"%string, 50001).

Definition run_r1 : Run :=
  (run_iter (got_packet first_packet some_addr) 0 1 (run_entry 0)).2.

Definition run_r2 : Run :=
  (run_iter (got_packet first_packet other_addr) 0 2 run_r1).2.

(** * Properties *)

(** ** Segmenter *)

Lemma length_slice {A} (data : list A) (i j : nat) :
  length (slice data i j) = ((j - i) `min` (length data - i))%nat.
Proof. unfold slice. by rewrite length_take, length_drop. Qed.

Lemma range_loop_stop fuel i stop step :
  (stop <= i)%nat -> range_loop fuel i stop step = [].
Proof.
  intros Hi. destruct fuel as [|fuel]; [done|]. simpl.
  destruct (Nat.ltb_spec i stop); [lia|done].
Qed.

Lemma range_loop_lookup fuel i stop step k j :
  range_loop fuel i stop step !! k = Some j ->
  j = (i + k * step)%nat /\ (j < stop)%nat.
Proof.
  revert i k. induction fuel as [|fuel IH]; intros i k; simpl; [done|].
  destruct (Nat.ltb_spec i stop) as [Hlt|Hge]; [|done].
  destruct k as [|k]; simpl.
  - intros [= <-]. lia.
  - intros Hk. apply IH in Hk. lia.
Qed.

Lemma range_loop_length fuel i stop :
  (stop - i <= fuel)%nat ->
  length (range_loop fuel i stop CHUNK_SIZE)
  = ((stop - i + 1023) / 1024)%nat.
Proof.
  revert i. induction fuel as [|fuel IH]; intros i Hfuel;
    cbn [range_loop].
  - replace (stop - i)%nat with 0%nat by lia. done.
  - destruct (Nat.ltb_spec i stop) as [Hlt|Hge].
    + cbn [length]. rewrite IH by (unfold CHUNK_SIZE; lia).
      unfold CHUNK_SIZE.
      destruct (Nat.le_gt_cases (i + 1024) stop) as [Hfull|Hlast].
      * replace (stop - i + 1023)%nat
          with ((stop - (i + 1024) + 1023) + 1 * 1024)%nat by lia.
        rewrite Nat.div_add by lia. lia.
      * replace (stop - (i + 1024))%nat with 0%nat by lia.
        rewrite (Nat.div_small (0 + 1023)) by lia.
        apply Nat.div_unique with (r := (stop - i - 1)%nat); lia.
    + replace (stop - i)%nat with 0%nat by lia. done.
Qed.

(** The loop keeps [seq_num] equal to the loop index, so every segment
    is keyed by the offset of its slice. *)
Lemma read_file_fold file_data fuel i acc :
  (fold_left (read_file_iter file_data)
     (range_loop fuel i (length file_data) CHUNK_SIZE)
     (acc, Z.of_nat i)).1
  = acc ++ map (fun j => (Z.of_nat j, slice file_data j (j + CHUNK_SIZE)))
             (range_loop fuel i (length file_data) CHUNK_SIZE).
Proof.
  revert i acc. induction fuel as [|fuel IH]; intros i acc; simpl.
  - by rewrite app_nil_r.
  - destruct (Nat.ltb_spec i (length file_data)) as [Hlt|Hge]; simpl;
      [|by rewrite app_nil_r].
    unfold read_file_iter at 2. simpl.
    destruct (Nat.le_gt_cases (i + CHUNK_SIZE) (length file_data))
      as [Hfull|Hlast].
    + replace (Z.of_nat i
               + Z.of_nat (length (slice file_data i (i + CHUNK_SIZE))))
        with (Z.of_nat (i + CHUNK_SIZE))
        by (rewrite length_slice; lia).
      rewrite IH. by rewrite <- app_assoc.
    + rewrite (range_loop_stop fuel (i + CHUNK_SIZE)) by lia.
      simpl. done.
Qed.

Lemma read_file_chunks_eq file_data :
  read_file_chunks file_data
  = map (fun j => (Z.of_nat j, slice file_data j (j + CHUNK_SIZE)))
      (py_range 0 (length file_data) CHUNK_SIZE).
Proof.
  unfold read_file_chunks, py_range.
  exact (read_file_fold file_data _ 0%nat []).
Qed.

Lemma read_file_chunks_length file_data :
  length (read_file_chunks file_data)
  = ((length file_data + 1023) / 1024)%nat.
Proof.
  rewrite read_file_chunks_eq, length_map. unfold py_range.
  rewrite range_loop_length by lia. by rewrite Nat.sub_0_r.
Qed.

Lemma read_file_chunks_lookup file_data k s d :
  read_file_chunks file_data !! k = Some (s, d) ->
  s = Z.of_nat (k * CHUNK_SIZE)
  /\ d = slice file_data (k * CHUNK_SIZE) (k * CHUNK_SIZE + CHUNK_SIZE)
  /\ (k * CHUNK_SIZE < length file_data)%nat.
Proof.
  rewrite read_file_chunks_eq, list_lookup_fmap.
  destruct (py_range 0 (length file_data) CHUNK_SIZE !! k) as [j|] eqn:Hj;
    [|done].
  apply range_loop_lookup in Hj as [-> Hlt]. simpl. intros [= <- <-].
  done.
Qed.

Lemma slices_concat {A} (data : list A) fuel i :
  (length data - i <= fuel)%nat ->
  concat (map (fun j => slice data j (j + CHUNK_SIZE))
            (range_loop fuel i (length data) CHUNK_SIZE))
  = drop i data.
Proof.
  revert i. induction fuel as [|fuel IH]; intros i Hfuel; simpl.
  - symmetry. apply drop_ge. lia.
  - destruct (Nat.ltb_spec i (length data)) as [Hlt|Hge]; simpl.
    + rewrite IH by (unfold CHUNK_SIZE; lia). unfold slice.
      replace (i + CHUNK_SIZE - i)%nat with CHUNK_SIZE by lia.
      rewrite <- (drop_drop data CHUNK_SIZE i). apply take_drop.
    + symmetry. by apply drop_ge.
Qed.

Lemma read_file_chunks_concat file_data :
  concat (read_file_chunks file_data).*2 = file_data.
Proof.
  rewrite read_file_chunks_eq. unfold py_range.
  rewrite <- list_fmap_compose.
  apply (slices_concat file_data _ 0%nat). lia.
Qed.

(** Lengths of all but the last segment, and of the last one. *)
Lemma read_file_chunks_payload file_data k s d :
  read_file_chunks file_data !! k = Some (s, d) ->
  (S k < length (read_file_chunks file_data) ->
     length d = CHUNK_SIZE)%nat
  /\ (S k = length (read_file_chunks file_data) ->
      length d = length file_data - k * CHUNK_SIZE)%nat
  /\ (1 <= length d <= CHUNK_SIZE)%nat.
Proof.
  intros Hk. pose proof Hk as Hk'.
  apply read_file_chunks_lookup in Hk' as (-> & -> & Hlt).
  rewrite length_slice, read_file_chunks_length. unfold CHUNK_SIZE in *.
  repeat split; try lia.
  - intros Hnext.
    pose proof (Nat.Div0.mul_div_le (length file_data + 1023) 1024).
    lia.
  - intros Hlast.
    pose proof (Nat.Div0.div_mod (length file_data + 1023) 1024) as Hdm.
    pose proof (Nat.mod_upper_bound (length file_data + 1023) 1024).
    lia.
Qed.

Lemma sum_take_full (cs : list segment) (c k : nat) :
  (forall j s d, (j < k)%nat -> cs !! j = Some (s, d) -> length d = c) ->
  (k <= length cs)%nat ->
  sum_list (length <$> take k cs.*2) = (k * c)%nat.
Proof.
  revert cs. induction k as [|k IH]; intros cs Hfull Hk; [done|].
  destruct cs as [|[s d] cs]; simpl in *; [lia|].
  rewrite (Hfull 0%nat s d) by (done || lia).
  f_equal. apply IH; [|lia].
  intros j s' d' Hj Hl. apply (Hfull (S j) s' d'); [lia|done].
Qed.

(** C9.  For a byte buffer of length [N] the segmenter produces exactly
    ceil(N/1024) segments (the least [n] with [N <= 1024 * n]); the
    [k]-th segment has seq [1024 * k], which is the sum of the lengths of
    the segments before it; every segment but the last carries exactly
    1024 bytes and the last carries [N] minus the sum of the preceding
    lengths; the payloads concatenated give back the buffer; and an
    empty buffer gives no segment. *)
Theorem read_file_segments (file_data : bytes) :
  let cs := read_file_chunks file_data in
  let N := length file_data in
  length cs = ((N + 1023) / 1024)%nat
  /\ (forall n : nat, (length cs <= n)%nat <-> (N <= 1024 * n)%nat)
  /\ (forall k s d, cs !! k = Some (s, d) ->
        s = 1024 * Z.of_nat k
        /\ s = Z.of_nat (sum_list (length <$> take k cs.*2))
        /\ ((S k < length cs)%nat -> length d = 1024%nat)
        /\ ((S k = length cs)%nat ->
            length d = (N - sum_list (length <$> take k cs.*2))%nat))
  /\ concat cs.*2 = file_data
  /\ (N = 0%nat -> cs = []).
Proof.
  intros cs N. subst cs N.
  assert (Hpre : forall k s d,
             read_file_chunks file_data !! k = Some (s, d) ->
             sum_list (length <$> take k (read_file_chunks file_data).*2)
             = (k * CHUNK_SIZE)%nat).
  { intros k s d Hk. apply sum_take_full.
    - intros j s' d' Hj Hl.
      apply (read_file_chunks_payload _ _ _ _ Hl).
      apply lookup_lt_Some in Hk. lia.
    - apply lookup_lt_Some in Hk. lia. }
  split; [apply read_file_chunks_length|].
  split.
  { intros n. rewrite read_file_chunks_length.
    pose proof (Nat.Div0.div_mod (length file_data + 1023) 1024).
    pose proof (Nat.mod_upper_bound (length file_data + 1023) 1024).
    lia. }
  split.
  { intros k s d Hk. rewrite (Hpre k s d Hk).
    destruct (read_file_chunks_lookup _ _ _ _ Hk) as (Hs & _ & _).
    destruct (read_file_chunks_payload _ _ _ _ Hk) as (Hfull & Hlast & _).
    unfold CHUNK_SIZE in *. repeat split; [lia|lia|done|done]. }
  split; [apply read_file_chunks_concat|].
  intros HN. apply length_zero_iff_nil.
  rewrite read_file_chunks_length, HN. done.
Qed.

(** ** Wire format *)

Lemma byte_val_of (z : Z) : byte_val (byte_of z) = z mod 256.
Proof.
  unfold byte_val, byte_of.
  pose proof (Z.mod_pos_bound z 256 ltac:(lia)) as Hm.
  destruct (Byte.of_N (Z.to_N (z mod 256))) as [b|] eqn:Hb; simpl.
  - apply Byte.to_of_N in Hb. rewrite Hb. lia.
  - apply Byte.of_N_None_iff in Hb. lia.
Qed.

Lemma byte_val_range (b : byte) : 0 <= byte_val b < 256.
Proof. unfold byte_val. pose proof (Byte.to_N_bounded b). lia. Qed.

Lemma unpack_pack_u32 n bs : pack_u32 n = Some bs -> unpack_u32 bs = Some n.
Proof.
  unfold pack_u32. case_bool_decide as Hn; [|done]. intros [= <-].
  unfold unpack_u32, be_value. simpl. rewrite !byte_val_of. f_equal.
  change (2 ^ 32) with 4294967296 in Hn. change (2 ^ 24) with 16777216.
  change (2 ^ 16) with 65536. change (2 ^ 8) with 256.
  Z.to_euclidean_division_equations; lia.
Qed.

Lemma unpack_pack_u16 n bs : pack_u16 n = Some bs -> unpack_u16 bs = Some n.
Proof.
  unfold pack_u16. case_bool_decide as Hn; [|done]. intros [= <-].
  unfold unpack_u16, be_value. simpl. rewrite !byte_val_of. f_equal.
  change (2 ^ 16) with 65536 in Hn. change (2 ^ 8) with 256.
  Z.to_euclidean_division_equations; lia.
Qed.

Lemma pack_u32_Some n : 0 <= n < 2 ^ 32 -> is_Some (pack_u32 n).
Proof. intros Hn. unfold pack_u32. by rewrite bool_decide_eq_true_2. Qed.

Lemma pack_u32_None n : ~ (0 <= n < 2 ^ 32) -> pack_u32 n = None.
Proof. intros Hn. unfold pack_u32. by rewrite bool_decide_eq_false_2. Qed.

Lemma pack_u32_range n bs : pack_u32 n = Some bs -> 0 <= n < 2 ^ 32.
Proof. unfold pack_u32. by case_bool_decide. Qed.

Lemma pack_u32_length n bs : pack_u32 n = Some bs -> length bs = 4%nat.
Proof. unfold pack_u32. case_bool_decide; [|done]. by intros [= <-]. Qed.

Lemma pack_u16_length n bs : pack_u16 n = Some bs -> length bs = 2%nat.
Proof. unfold pack_u16. case_bool_decide; [|done]. by intros [= <-]. Qed.

Lemma unpack_u32_range bs n : unpack_u32 bs = Some n -> 0 <= n < 2 ^ 32.
Proof.
  unfold unpack_u32. case_bool_decide as Hl; [|done]. intros [= <-].
  destruct bs as [|b0 [|b1 [|b2 [|b3 [|]]]]]; try done.
  unfold be_value. simpl.
  pose proof (byte_val_range b0). pose proof (byte_val_range b1).
  pose proof (byte_val_range b2). pose proof (byte_val_range b3). lia.
Qed.

Lemma calculate_checksum_range data :
  0 <= calculate_checksum data < 65535.
Proof.
  unfold calculate_checksum. destruct data; [lia|].
  apply Z.mod_pos_bound. lia.
Qed.

(** The checksum always fits two bytes, so [create_packet] fails only
    on the sequence number. *)
Lemma create_packet_Some seq_num data :
  0 <= seq_num < 2 ^ 32 ->
  exists hdr ck,
    pack_u32 seq_num = Some hdr
    /\ pack_u16 (calculate_checksum data) = Some ck
    /\ create_packet seq_num data = Some (hdr ++ ck ++ data).
Proof.
  intros Hs. destruct (pack_u32_Some _ Hs) as [hdr Hhdr].
  pose proof (calculate_checksum_range data) as Hc.
  unfold create_packet. rewrite Hhdr. simpl.
  unfold pack_u16 at 1 2. rewrite bool_decide_eq_true_2 by lia. simpl.
  eauto.
Qed.

Lemma create_packet_range seq_num data p :
  create_packet seq_num data = Some p -> 0 <= seq_num < 2 ^ 32.
Proof.
  unfold create_packet. destruct (pack_u32 seq_num) eqn:Hp; [|done].
  intros _. by eapply pack_u32_range.
Qed.

(** What the receiver reads off a datagram built by the sender. *)
Lemma packet_fields_create seq_num data p :
  create_packet seq_num data = Some p ->
  packet_fields p = Some (seq_num, calculate_checksum data, data).
Proof.
  unfold create_packet.
  destruct (pack_u32 seq_num) as [hdr|] eqn:Hhdr; [|done]. simpl.
  destruct (pack_u16 (calculate_checksum data)) as [ck|] eqn:Hck; [|done].
  simpl. intros [= <-].
  pose proof (pack_u32_length _ _ Hhdr) as Lh.
  pose proof (pack_u16_length _ _ Hck) as Lc.
  destruct hdr as [|h0 [|h1 [|h2 [|h3 [|]]]]]; try done.
  destruct ck as [|c0 [|c1 [|]]]; try done.
  apply unpack_pack_u32 in Hhdr. apply unpack_pack_u16 in Hck.
  unfold unpack_u32, unpack_u16 in Hhdr, Hck. simpl in Hhdr, Hck.
  injection Hhdr as Hhdr. injection Hck as Hck.
  unfold packet_fields, slice. simpl. rewrite take_0, drop_0.
  by rewrite Hhdr, Hck.
Qed.

(** ** Receiver: the delivery loop *)

Lemma deliver_loop_frame fuel s :
  let s' := deliver_loop fuel s in
  loss_prob s' = loss_prob s
  /\ ack_timer_active s' = ack_timer_active s
  /\ timer_threads s' = timer_threads s
  /\ client_addr s' = client_addr s
  /\ total_packets_received s' = total_packets_received s
  /\ total_packets_dropped s' = total_packets_dropped s
  /\ total_checksum_errors s' = total_checksum_errors s
  /\ outbox s' = outbox s.
Proof.
  revert s. induction fuel as [|fuel IH]; intros s; simpl; [done|].
  destruct (received_data s !! expected_seq s) as [data|]; [|done].
  apply (IH (deliver data s)).
Qed.

Lemma delivered_bytes_deliver data s :
  delivered_bytes (deliver data s)
  = delivered_bytes s + Z.of_nat (length data).
Proof.
  unfold delivered_bytes. simpl. rewrite sum_list_with_app. simpl. lia.
Qed.

Lemma deliver_loop_delivered fuel s :
  expected_seq s = delivered_bytes s ->
  expected_seq (deliver_loop fuel s) = delivered_bytes (deliver_loop fuel s).
Proof.
  revert s. induction fuel as [|fuel IH]; intros s Hs; simpl; [done|].
  destruct (received_data s !! expected_seq s) as [data|]; [|done].
  apply IH. rewrite delivered_bytes_deliver. simpl. lia.
Qed.

Lemma deliver_loop_mono fuel s :
  expected_seq s <= expected_seq (deliver_loop fuel s).
Proof.
  revert s. induction fuel as [|fuel IH]; intros s; simpl; [lia|].
  destruct (received_data s !! expected_seq s) as [data|]; [|lia].
  etrans; [|apply IH]. simpl. lia.
Qed.

(** The fuel given by [process_packet] lets the loop run to its exit
    test. *)
Lemma deliver_loop_done fuel s :
  (size (received_data s) <= fuel)%nat ->
  received_data (deliver_loop fuel s) !! expected_seq (deliver_loop fuel s)
  = None.
Proof.
  revert s. induction fuel as [|fuel IH]; intros s Hsz; simpl.
  - assert (received_data s = ∅) as ->; [|apply lookup_empty].
    apply map_size_empty_iff. lia.
  - destruct (received_data s !! expected_seq s) as [data|] eqn:Hl; [|done].
    apply IH. simpl. rewrite map_size_delete_Some by eauto. lia.
Qed.

(** ** Receiver: [process_packet] by cases *)

Lemma process_packet_accepted s p addr r seq_num data :
  accepted s p r seq_num data ->
  process_packet p addr r s =
    let s2 := latched addr s in
    if bool_decide (seq_num < expected_seq s2)
    then send_ack addr (expected_seq s2) s2
    else
      let s3 := match received_data s2 !! seq_num with
                | None => store_new seq_num data s2
                | Some _ => s2
                end in
      (Returned, deliver_loop (size (received_data s3)) s3).
Proof.
  intros (checksum & Hf & Hr & Hv).
  unfold packet_fields in Hf. unfold process_packet.
  destruct (length p <? SEQ_NUM_SIZE + CHECKSUM_SIZE)%nat; [done|].
  destruct (unpack_u32 _) as [sq|]; [|done]. simpl in Hf.
  destruct (unpack_u16 _) as [ck|]; [|done]. simpl in Hf.
  injection Hf as -> -> Hd.
  change (drop (SEQ_NUM_SIZE + CHECKSUM_SIZE) p = data) in Hd.
  rewrite Hd, Hr, Hv. done.
Qed.

(** A call that does not reach the sequence-number test leaves
    everything but the statistics counters alone. *)
Lemma process_packet_rejected s p addr r :
  (forall seq_num data, ~ accepted s p r seq_num data) ->
  receiver_state (process_packet p addr r s).2 = receiver_state s
  /\ outbox (process_packet p addr r s).2 = outbox s
  /\ loss_prob (process_packet p addr r s).2 = loss_prob s.
Proof.
  intros Hna. unfold process_packet.
  destruct (length p <? SEQ_NUM_SIZE + CHECKSUM_SIZE)%nat eqn:Hlen;
    [done|].
  destruct (unpack_u32 _) as [sq|] eqn:Hsq; [|done].
  destruct (unpack_u16 _) as [ck|] eqn:Hck; [|done].
  destruct (Qltb r (loss_prob s)) eqn:Hr; [done|].
  destruct (verify_checksum _ ck) eqn:Hv; [|done].
  exfalso. eapply Hna. exists ck. unfold packet_fields.
  rewrite Hlen, Hsq. cbn [mbind option_bind]. rewrite Hck.
  cbn [mbind option_bind]. eauto.
Qed.

Lemma accepted_dec s p r :
  (exists seq_num data, accepted s p r seq_num data)
  \/ (forall seq_num data, ~ accepted s p r seq_num data).
Proof.
  unfold accepted.
  destruct (packet_fields p) as [[[sq ck] d]|] eqn:Hf;
    [|right; intros ?? (? & [=] & _)].
  destruct (Qltb r (loss_prob s)) eqn:Hr;
    [right; intros ?? (? & _ & [=] & _)|].
  destruct (verify_checksum d ck) eqn:Hv.
  - left. exists sq, d, ck. done.
  - right. intros ?? (? & [= <- <- <-] & _ & Hv'). congruence.
Qed.

Lemma accepted_seq_range s p r seq_num data :
  accepted s p r seq_num data -> 0 <= seq_num < 2 ^ 32.
Proof.
  intros (ck & Hf & _). unfold packet_fields in Hf.
  destruct (length p <? _)%nat; [done|].
  destruct (unpack_u32 _) as [sq|] eqn:Hsq; [|done]. simpl in Hf.
  destruct (unpack_u16 _); [|done]. simpl in Hf. injection Hf as -> _ _.
  by eapply unpack_u32_range.
Qed.

Lemma latched_frame addr s :
  let s' := latched addr s in
  expected_seq s' = expected_seq s
  /\ received_data s' = received_data s
  /\ output_buffer s' = output_buffer s
  /\ ack_timer_active s' = ack_timer_active s
  /\ timer_threads s' = timer_threads s
  /\ outbox s' = outbox s
  /\ loss_prob s' = loss_prob s
  /\ client_addr s' = Some (default addr (client_addr s)).
Proof.
  cbv zeta. unfold latched. simpl.
  by destruct (client_addr s) eqn:Hca; simpl; rewrite ?Hca.
Qed.

Lemma store_new_frame seq_num data s :
  let s' := store_new seq_num data s in
  expected_seq s' = expected_seq s
  /\ received_data s' = <[seq_num := data]> (received_data s)
  /\ output_buffer s' = output_buffer s
  /\ client_addr s' = client_addr s
  /\ outbox s' = outbox s
  /\ loss_prob s' = loss_prob s.
Proof.
  cbv zeta. unfold store_new. simpl. by destruct (ack_timer_active s).
Qed.

Lemma send_ack_cases addr n s :
  (exists pk, pack_u32 n = Some pk
     /\ (send_ack addr n s).1 = Returned
     /\ outbox (send_ack addr n s).2 = outbox s ++ [(pk, addr)]
     /\ receiver_state (send_ack addr n s).2 = receiver_state s
     /\ loss_prob (send_ack addr n s).2 = loss_prob s)
  \/ (pack_u32 n = None /\ send_ack addr n s = (Raised, s)).
Proof.
  unfold send_ack. destruct (pack_u32 n) as [pk|]; [left|right]; eauto.
  exists pk. done.
Qed.

(** Effect of one call of [process_packet] on a receiver that satisfies
    the invariant. *)
Lemma process_packet_step p addr r s :
  server_inv s ->
  let s' := (process_packet p addr r s).2 in
  server_inv s'
  /\ expected_seq s <= expected_seq s'
  /\ loss_prob s' = loss_prob s
  /\ exists new, outbox s' = outbox s ++ new
       /\ forall ack a, (ack, a) ∈ new ->
            unpack_u32 ack = Some (delivered_bytes s').
Proof.
  intros [Hsum Hnone].
  destruct (accepted_dec s p r) as [(seq_num & data & Hacc)|Hrej].
  - rewrite (process_packet_accepted _ _ addr _ _ _ Hacc).
    destruct (latched_frame addr s)
      as (He & Hrd & Hob & _ & _ & Hout & Hlp & Hca).
    cbv zeta. case_bool_decide as Hlt.
    + destruct (send_ack_cases addr (expected_seq (latched addr s))
                  (latched addr s))
        as [(pk & Hpk & _ & Hout' & Hst & Hlp')|[_ ->]].
      * unfold receiver_state in Hst.
        injection Hst as He' _ Hob' Hca' _ _.
        unfold server_inv, delivered_bytes in *.
        rewrite He', Hob', Hca', Hout', Hlp', He, Hob, Hca, Hout, Hlp.
        repeat split; [done|done|lia|].
        exists [(pk, addr)]. split; [done|].
        intros ack a [= -> ->]%list_elem_of_singleton.
        rewrite <- Hsum, <- He. by apply unpack_pack_u32.
      * unfold server_inv, delivered_bytes in *. simpl.
        rewrite He, Hob, Hca, Hout, Hlp. repeat split; [done|done|lia|].
        exists []. split; [by rewrite app_nil_r|]. by intros ?? ?%elem_of_nil.
    + set (s3 := match received_data (latched addr s) !! seq_num with
                 | Some _ => latched addr s
                 | None => store_new seq_num data (latched addr s)
                 end).
      assert (expected_seq s3 = expected_seq s
              /\ output_buffer s3 = output_buffer s
              /\ is_Some (client_addr s3)
              /\ outbox s3 = outbox s /\ loss_prob s3 = loss_prob s)
        as (He3 & Hob3 & Hca3 & Hout3 & Hlp3).
      { subst s3. destruct (received_data (latched addr s) !! seq_num).
        - rewrite Hca. eauto.
        - destruct (store_new_frame seq_num data (latched addr s))
            as (-> & _ & -> & -> & -> & ->). rewrite Hca. eauto. }
      simpl.
      destruct (deliver_loop_frame (size (received_data s3)) s3)
        as (Hlp4 & _ & _ & Hca4 & _ & _ & _ & Hout4).
      repeat split.
      * apply deliver_loop_delivered.
        unfold delivered_bytes. rewrite He3, Hob3. done.
      * rewrite Hca4. intros Hn. rewrite Hn in Hca3.
        by destruct Hca3.
      * rewrite <- He3. apply deliver_loop_mono.
      * by rewrite Hlp4.
      * exists []. rewrite Hout4, Hout3, app_nil_r. split; [done|].
        by intros ?? ?%elem_of_nil.
  - destruct (process_packet_rejected s p addr r Hrej) as (Hst & Hout & Hlp).
    unfold receiver_state in Hst. injection Hst as He _ Hob Hca _ _.
    unfold server_inv, delivered_bytes in *. simpl.
    rewrite He, Hob, Hca, Hout. repeat split; [done|done|lia|done|].
    exists []. split; [by rewrite app_nil_r|]. by intros ?? ?%elem_of_nil.
Qed.

(** Effect of a delayed-ACK thread running its body. *)
Lemma send_ack_after_rtt_step s :
  server_inv s ->
  let s' := (send_ack_after_rtt s).2 in
  server_inv s'
  /\ expected_seq s' = expected_seq s
  /\ output_buffer s' = output_buffer s
  /\ received_data s' = received_data s
  /\ loss_prob s' = loss_prob s
  /\ exists new, outbox s' = outbox s ++ new
       /\ forall ack a, (ack, a) ∈ new ->
            unpack_u32 ack = Some (delivered_bytes s').
Proof.
  intros [Hsum Hnone]. unfold send_ack_after_rtt.
  set (s1 := set_timer_threads _ s).
  assert (Hnil : exists new : list (bytes * address),
             outbox s = outbox s ++ new
             /\ forall ack a, (ack, a) ∈ new ->
                  unpack_u32 ack = Some (delivered_bytes s)).
  { exists []. split; [by rewrite app_nil_r|]. by intros ?? ?%elem_of_nil. }
  destruct (ack_timer_active s1); [|by repeat split].
  destruct (client_addr s1) as [addr|] eqn:Hca; [|by repeat split].
  destruct (send_ack_cases addr (expected_seq s1) s1)
    as [(pk & Hpk & Ho & Hout' & Hst & Hlp')|[_ ->]];
    [|by repeat split].
  destruct (send_ack addr (expected_seq s1) s1) as [o s2]. simpl in *.
  subst o. simpl. unfold receiver_state in Hst.
  injection Hst as He Hrd Hob Hca' _ _.
  unfold server_inv, delivered_bytes in *. simpl.
  rewrite Hrd, He, Hob, Hca', Hout', Hlp'.
  do 5 (split; [done|]).
  exists [(pk, addr)]. split; [done|].
  intros ack a [= -> ->]%list_elem_of_singleton.
  rewrite <- Hsum. by apply unpack_pack_u32.
Qed.

Lemma server_step_inv s s' :
  server_inv s -> server_step s s' ->
  server_inv s' /\ loss_prob s' = loss_prob s.
Proof.
  intros Hinv Hstep. destruct Hstep as [s p addr r o s' _ _ _ Hpp|s o s' _ Hrtt].
  - destruct (process_packet_step p addr r s Hinv) as (? & _ & ? & _).
    by rewrite Hpp in *.
  - destruct (send_ack_after_rtt_step s Hinv) as (? & _ & _ & _ & ? & _).
    by rewrite Hrtt in *.
Qed.

Lemma server_reachable_inv loss s :
  server_reachable loss s -> server_inv s /\ loss_prob s = loss.
Proof.
  induction 1 as [|s s' _ [IH Hl] Hstep]; [by split|].
  destruct (server_step_inv s s' IH Hstep) as [? Hl']. split; [done|].
  by rewrite Hl'.
Qed.

(** C10.  In every state the receiver reaches, [expected_seq] is the sum
    of the lengths of the payloads in [output_buffer].  It stays so
    after a call of [process_packet] and after a delayed-ACK thread has
    run; neither makes [expected_seq] smaller; and every ACK datagram
    that either of them sends carries exactly the number of bytes
    delivered in order at that moment. *)
Theorem expected_seq_counts_delivered loss s :
  server_reachable loss s ->
  expected_seq s = delivered_bytes s
  /\ (forall p addr r,
        let s' := (process_packet p addr r s).2 in
        expected_seq s' = delivered_bytes s'
        /\ expected_seq s <= expected_seq s'
        /\ exists new, outbox s' = outbox s ++ new
             /\ forall ack a, (ack, a) ∈ new ->
                  unpack_u32 ack = Some (delivered_bytes s'))
  /\ (let s' := (send_ack_after_rtt s).2 in
      expected_seq s' = delivered_bytes s'
      /\ expected_seq s <= expected_seq s'
      /\ exists new, outbox s' = outbox s ++ new
           /\ forall ack a, (ack, a) ∈ new ->
                unpack_u32 ack = Some (delivered_bytes s')).
Proof.
  intros [Hinv _]%server_reachable_inv.
  split; [apply Hinv|]. split.
  - intros p addr r.
    destruct (process_packet_step p addr r s Hinv)
      as ([Hs _] & Hmono & _ & Hacks). done.
  - destruct (send_ack_after_rtt_step s Hinv)
      as ([Hs _] & He & _ & _ & _ & Hacks).
    cbv zeta. split; [done|]. split; [lia|done].
Qed.

Lemma latched_counters addr s :
  total_packets_received (latched addr s) = total_packets_received s + 1
  /\ total_packets_dropped (latched addr s) = total_packets_dropped s
  /\ total_checksum_errors (latched addr s) = total_checksum_errors s.
Proof. unfold latched. simpl. by destruct (client_addr s). Qed.

Lemma send_ack_counters addr n s :
  total_packets_received (send_ack addr n s).2 = total_packets_received s
  /\ total_packets_dropped (send_ack addr n s).2 = total_packets_dropped s
  /\ total_checksum_errors (send_ack addr n s).2 = total_checksum_errors s.
Proof. unfold send_ack. by destruct (pack_u32 n). Qed.

(** C6, as the code has it.  In a state the receiver reaches, a datagram
    that passes the loss injector and the checksum test and whose seq is
    below [expected_seq] changes none of [expected_seq],
    [received_data], [output_buffer], [client_addr], [ack_timer_active]
    (nor the pending timer threads); of the statistics it only counts
    the datagram as received; and, provided [expected_seq] fits the four
    bytes of an ACK, the call sends exactly one datagram, the ACK
    carrying [expected_seq], to the address passed with the datagram. *)
Theorem duplicate_packet_immediate_ack loss s p addr r seq_num data :
  server_reachable loss s ->
  accepted s p r seq_num data ->
  seq_num < expected_seq s ->
  let s' := (process_packet p addr r s).2 in
  receiver_state s' = receiver_state s
  /\ total_packets_received s' = total_packets_received s + 1
  /\ total_packets_dropped s' = total_packets_dropped s
  /\ total_checksum_errors s' = total_checksum_errors s
  /\ (expected_seq s < 2 ^ 32 ->
      exists ack_packet,
        (process_packet p addr r s).1 = Returned
        /\ unpack_u32 ack_packet = Some (expected_seq s)
        /\ outbox s' = outbox s ++ [(ack_packet, addr)]).
Proof.
  intros [[Hsum Hnone] _]%server_reachable_inv Hacc Hlt.
  rewrite (process_packet_accepted _ _ addr _ _ _ Hacc).
  destruct (latched_frame addr s)
    as (He & Hrd & Hob & Hat & Htt & Hout & _ & Hca).
  destruct (latched_counters addr s) as (Hrc & Hdr & Hce).
  pose proof (accepted_seq_range _ _ _ _ _ Hacc) as Hrange.
  assert (client_addr (latched addr s) = client_addr s) as Hca'.
  { rewrite Hca. destruct (client_addr s); [done|].
    specialize (Hnone eq_refl). lia. }
  cbv zeta. rewrite bool_decide_eq_true_2 by lia.
  assert (receiver_state (latched addr s) = receiver_state s) as Hst.
  { unfold receiver_state. by rewrite He, Hrd, Hob, Hat, Htt, Hca'. }
  destruct (send_ack_counters addr (expected_seq (latched addr s))
              (latched addr s)) as (-> & -> & ->).
  destruct (send_ack_cases addr (expected_seq (latched addr s))
              (latched addr s))
    as [(pk & Hpk & Ho & Hout' & Hst' & _)|[Hnopk ->]].
  - split; [by rewrite Hst'|]. do 3 (split; [done|]).
    intros _. exists pk.
    split; [done|]. split; [|by rewrite Hout', Hout].
    rewrite <- He. by apply unpack_pack_u32.
  - split; [done|]. do 3 (split; [done|]).
    intros Hfit. rewrite He in Hnopk.
    assert (0 <= expected_seq s < 2 ^ 32) as Hok by lia.
    apply pack_u32_Some in Hok. rewrite Hnopk in Hok. by destruct Hok.
Qed.

(** ** Receiver: a transfer of four gibibytes *)

Lemma accepted_create s seq_num data p :
  Qltb 0 (loss_prob s) = false ->
  create_packet seq_num data = Some p ->
  accepted s p 0 seq_num data.
Proof.
  intros Hl Hp. exists (calculate_checksum data).
  split; [by apply packet_fields_create|]. split; [done|].
  unfold verify_checksum. by rewrite bool_decide_eq_true_2.
Qed.

Lemma process_next_in_order s a data p :
  Qltb 0 (loss_prob s) = false ->
  received_data s = ∅ ->
  create_packet (expected_seq s) data = Some p ->
  process_packet p a 0 s
  = (Returned,
     deliver data (store_new (expected_seq s) data (latched a s))).
Proof.
  intros Hl Hrd Hp.
  rewrite (process_packet_accepted _ _ a _ _ _ (accepted_create _ _ _ _ Hl Hp)).
  destruct (latched_frame a s) as (He & Hrd' & _).
  cbv zeta. rewrite He, Hrd', Hrd, lookup_empty.
  rewrite bool_decide_eq_false_2 by lia.
  destruct (store_new_frame (expected_seq s) data (latched a s))
    as (He3 & Hrd3 & _).
  rewrite Hrd3, Hrd', Hrd.
  rewrite map_size_insert_None, map_size_empty by apply lookup_empty.
  cbn [deliver_loop]. rewrite Hrd3, He3, He, lookup_insert_eq. done.
Qed.

Lemma sum_bytes_zeros n : sum_bytes (replicate n x00) = 0.
Proof. induction n as [|n IH]; [done|]. simpl. by rewrite IH. Qed.

Lemma full_payload_packet seq_num :
  0 <= seq_num < 2 ^ 32 ->
  exists hdr,
    create_packet seq_num full_payload
    = Some (hdr ++ [x00; x00] ++ full_payload)
    /\ length hdr = 4%nat.
Proof.
  intros Hs. destruct (create_packet_Some seq_num full_payload Hs)
    as (hdr & ck & Hhdr & Hck & Hp).
  exists hdr. split; [|by eapply pack_u32_length].
  rewrite Hp. do 3 f_equal.
  assert (calculate_checksum full_payload = 0) as Hz.
  { unfold calculate_checksum, full_payload.
    rewrite sum_bytes_zeros. by destruct (replicate _ _). }
  rewrite Hz in Hck. by injection Hck as <-.
Qed.

Lemma after_segments_next a n :
  (1 <= n)%nat ->
  deliver full_payload
    (store_new (Z.of_nat n * 1024) full_payload
       (latched a (after_segments a n)))
  = after_segments a (S n).
Proof.
  intros Hn. unfold deliver, store_new, latched, after_segments. simpl.
  f_equal; try lia.
  - by rewrite delete_insert_eq, delete_empty.
  - by rewrite replicate_cons_app.
Qed.

Lemma after_segments_first a :
  deliver full_payload
    (store_new 0 full_payload (latched a (server_init 0)))
  = after_segments a 1.
Proof.
  unfold deliver, store_new, latched, after_segments, server_init. simpl.
  f_equal.
Qed.

Lemma full_payload_step a s seq_num s' :
  Qltb 0 (loss_prob s) = false ->
  received_data s = ∅ ->
  expected_seq s = seq_num ->
  0 <= seq_num < 2 ^ 32 ->
  deliver full_payload (store_new seq_num full_payload (latched a s)) = s' ->
  server_step s s'.
Proof.
  intros Hl Hrd He Hs Hs'.
  destruct (full_payload_packet seq_num Hs) as (hdr & Hp & Lh).
  rewrite <- He in Hp.
  apply (step_packet s (hdr ++ [x00; x00] ++ full_payload) a 0 Returned s');
    [| done | done |].
  - rewrite !length_app, Lh. unfold full_payload.
    rewrite length_replicate. unfold CHUNK_SIZE, MAX_DATAGRAM. simpl. lia.
  - rewrite (process_next_in_order _ _ _ _ Hl Hrd Hp). by rewrite He, Hs'.
Qed.

(** The receiver does get there: segment after segment of a file of
    up to 2^32 bytes. *)
Lemma after_segments_reachable a n :
  (1 <= n)%nat -> Z.of_nat n * 1024 <= 2 ^ 32 ->
  server_reachable 0 (after_segments a n).
Proof.
  induction n as [|n IH]; [lia|]. intros _ Hle.
  destruct n as [|n].
  - eapply server_reach_step; [apply server_reach_init|].
    eapply (full_payload_step a _ 0); [done|done|done|lia|].
    apply after_segments_first.
  - eapply server_reach_step; [apply IH; lia|].
    eapply (full_payload_step a _ (Z.of_nat (S n) * 1024));
      [done|done|done|lia|].
    apply after_segments_next. lia.
Qed.

Lemma first_packet_created : create_packet 0 full_payload = Some first_packet.
Proof. vm_compute. reflexivity. Qed.

Lemma ack_overflow_at a n :
  Z.of_nat n * 1024 = 2 ^ 32 ->
  server_reachable 0 (after_segments a n)
  /\ expected_seq (after_segments a n) = 2 ^ 32
  /\ accepted (after_segments a n) first_packet 0 0 full_payload
  /\ 0 < expected_seq (after_segments a n)
  /\ process_packet first_packet a 0 (after_segments a n)
     = (Raised, latched a (after_segments a n))
  /\ receiver_state (latched a (after_segments a n))
     = receiver_state (after_segments a n)
  /\ outbox (latched a (after_segments a n)) = outbox (after_segments a n).
Proof.
  intros Hn.
  assert (Hacc : accepted (after_segments a n) first_packet 0 0 full_payload)
    by (apply accepted_create; [done|apply first_packet_created]).
  split; [apply after_segments_reachable; lia|].
  split; [done|]. split; [done|]. split; [simpl; lia|].
  split; [|done].
  rewrite (process_packet_accepted _ _ a _ _ _ Hacc). cbv zeta.
  change (expected_seq (latched a (after_segments a n)))
    with (Z.of_nat n * 1024).
  rewrite bool_decide_eq_true_2 by lia.
  unfold send_ack. rewrite Hn. done.
Qed.

(** C6, against the claim as stated.  After four gibibytes delivered in
    order [expected_seq] is 2^32.  A retransmitted copy of the first
    segment is then accepted with seq 0 below [expected_seq], but
    [struct.pack('!I', 4294967296)] raises inside [send_ack]: the call
    sends no ACK at all. *)
Lemma duplicate_packet_ack_overflow :
  server_reachable 0 four_gib_receiver
  /\ expected_seq four_gib_receiver = 2 ^ 32
  /\ accepted four_gib_receiver first_packet 0 0 full_payload
  /\ 0 < expected_seq four_gib_receiver
  /\ process_packet first_packet some_addr 0 four_gib_receiver
     = (Raised, latched some_addr four_gib_receiver)
  /\ receiver_state (latched some_addr four_gib_receiver)
     = receiver_state four_gib_receiver
  /\ outbox (latched some_addr four_gib_receiver)
     = outbox four_gib_receiver.
Proof.
  apply (ack_overflow_at some_addr (Z.to_nat 4194304)).
  rewrite Z2Nat.id by lia. reflexivity.
Qed.

(** ** Receiver: reassembly of a segmented file *)

Lemma end_offset_app off a b :
  end_offset off (a ++ b) = end_offset (end_offset off a) b.
Proof. unfold end_offset. rewrite sum_list_with_app. lia. Qed.

Lemma contig_app off a b :
  contig off (a ++ b) <-> contig off a /\ contig (end_offset off a) b.
Proof.
  revert off. induction a as [|[s d] a IH]; intros off; simpl.
  - unfold end_offset. simpl. rewrite Z.add_0_r. tauto.
  - rewrite IH. unfold end_offset. simpl.
    replace (off + Z.of_nat (length d)
             + Z.of_nat (sum_list_with (fun c : segment => length c.2) a))
      with (off + Z.of_nat (length d
              + sum_list_with (fun c : segment => length c.2) a)%nat)
      by lia.
    tauto.
Qed.

Lemma contig_elem off cs s d :
  contig off cs -> (s, d) ∈ cs ->
  off <= s /\ s + Z.of_nat (length d) <= end_offset off cs /\ d <> [].
Proof.
  revert off. induction cs as [|[s0 d0] cs IH]; intros off Hc Hin.
  - by apply elem_of_nil in Hin.
  - destruct Hc as (-> & Hd0 & Hc). unfold end_offset in *. simpl.
    apply elem_of_cons in Hin as [[= -> ->]|Hin].
    + split; [lia|]. split; [lia|done].
    + destruct (IH _ Hc Hin) as (? & ? & ?).
      split; [lia|]. split; [lia|done].
Qed.

Lemma contig_head_lt off s d cs s' d' :
  contig off ((s, d) :: cs) -> (s', d') ∈ cs -> s < s'.
Proof.
  intros (-> & Hd & Hc) Hin. destruct (contig_elem _ _ _ _ Hc Hin) as [? _].
  destruct d; [done|]. simpl in *. lia.
Qed.

Lemma contig_functional off cs s d d' :
  contig off cs -> (s, d) ∈ cs -> (s, d') ∈ cs -> d = d'.
Proof.
  revert off. induction cs as [|[s0 d0] cs IH]; intros off Hc Hin Hin'.
  - by apply elem_of_nil in Hin.
  - apply elem_of_cons in Hin as [Heq|Hin];
      apply elem_of_cons in Hin' as [Heq'|Hin']; simplify_eq.
    + done.
    + pose proof (contig_head_lt _ _ _ _ _ _ Hc Hin'). lia.
    + pose proof (contig_head_lt _ _ _ _ _ _ Hc Hin). lia.
    + destruct Hc as (_ & _ & Hc). by eapply IH.
Qed.

Lemma contig_read_file file_data : contig 0 (read_file_chunks file_data).
Proof.
  rewrite read_file_chunks_eq. unfold py_range.
  change 0 with (Z.of_nat 0).
  generalize (length file_data - 0)%nat as fuel. generalize 0%nat as i.
  intros i fuel. revert i.
  induction fuel as [|fuel IH]; intros i; cbn [range_loop]; [done|].
  destruct (Nat.ltb_spec i (length file_data)) as [Hlt|Hge]; [|done].
  cbn [map contig]. split; [done|]. split.
  - intros Hnil%(f_equal length). rewrite length_slice in Hnil.
    unfold CHUNK_SIZE in Hnil. simpl in Hnil. lia.
  - destruct (Nat.le_gt_cases (i + CHUNK_SIZE) (length file_data))
      as [Hfull|Hlast].
    + replace (Z.of_nat i
               + Z.of_nat (length (slice file_data i (i + CHUNK_SIZE))))
        with (Z.of_nat (i + CHUNK_SIZE))
        by (rewrite length_slice; lia).
      apply IH.
    + by rewrite (range_loop_stop fuel (i + CHUNK_SIZE)) by lia.
Qed.

Lemma end_offset_payloads (cs : list segment) :
  end_offset 0 cs = Z.of_nat (length (concat cs.*2)).
Proof.
  unfold end_offset.
  induction cs as [|[s d] cs IH]; [done|].
  rewrite fmap_cons. cbn [concat sum_list_with snd].
  rewrite length_app. lia.
Qed.

Lemma packet_of_inj c c' p : packet_of c p -> packet_of c' p -> c = c'.
Proof.
  unfold packet_of. intros H%packet_fields_create H'%packet_fields_create.
  rewrite H in H'. destruct c, c'. simpl in *. by injection H' as -> _ ->.
Qed.

Lemma Qltb_loss_off r : (0 <= r)%Q -> Qltb r 0 = false.
Proof.
  intros Hr. unfold Qltb. apply Qle_bool_iff in Hr. by rewrite Hr.
Qed.

Lemma reassembling_init cs : reassembling cs [] (server_init 0).
Proof.
  split; [done|]. exists [], cs. do 3 (split; [done|]). split.
  - intros seq_num d Hl. cbn [received_data server_init] in Hl.
    by apply lookup_empty_Some in Hl.
  - by intros c p _ _ ?%elem_of_nil.
Qed.

(** One iteration of the delivery loop moves the head of the segments
    still to come over to the delivered ones. *)
Lemma reassembling_deliver cs seen s x :
  contig 0 cs -> reassembling cs seen s ->
  received_data s !! expected_seq s = Some x ->
  reassembling cs seen (deliver x s).
Proof.
  intros Hc (Hl & dl & todo & Hcs & Hob & He & Hkeys & Harr) Hx.
  pose proof (Hkeys _ _ Hx) as Hin.
  rewrite Hcs in Hc. apply contig_app in Hc as [_ Hc]. rewrite <- He in Hc.
  destruct todo as [|[s0 d0] todo]; [by apply elem_of_nil in Hin|].
  pose proof Hc as (Hs0 & Hd0 & Hc').
  assert (x = d0) as ->.
  { eapply (contig_functional _ _ _ _ _ Hc Hin). rewrite Hs0. by left. }
  split; [done|]. exists (dl ++ [(s0, d0)]), todo. simpl.
  split; [by rewrite <- app_assoc|].
  split; [by rewrite Hob, fmap_app|].
  split; [rewrite end_offset_app, <- He; unfold end_offset; simpl; lia|].
  split.
  - intros seq_num d [Hne Hd]%lookup_delete_Some.
    apply Hkeys, elem_of_cons in Hd as [[= -> ->]|Hd]; [done|done].
  - intros c p Hin' Hp Hseen.
    rewrite lookup_delete_ne; [apply (Harr c p); [by right|done|done]|].
    destruct c as [s1 d1]. simpl.
    pose proof (contig_head_lt _ _ _ _ _ _ Hc Hin'). lia.
Qed.

Lemma reassembling_loop cs seen fuel s :
  contig 0 cs -> reassembling cs seen s ->
  reassembling cs seen (deliver_loop fuel s).
Proof.
  intros Hc. revert s. induction fuel as [|fuel IH]; intros s Hs; [done|].
  simpl. destruct (received_data s !! expected_seq s) as [x|] eqn:Hx;
    [|done].
  apply IH. by apply reassembling_deliver.
Qed.

Lemma reassembling_ext cs seen s s' :
  loss_prob s' = loss_prob s ->
  output_buffer s' = output_buffer s ->
  expected_seq s' = expected_seq s ->
  received_data s' = received_data s ->
  reassembling cs seen s -> reassembling cs seen s'.
Proof. unfold reassembling. by intros -> -> -> ->. Qed.

(** A segment still to come lies at or beyond [expected_seq]; one
    already delivered lies below it. *)
Lemma reassembling_todo cs seen s c :
  contig 0 cs -> reassembling cs seen s -> c ∈ cs ->
  expected_seq s <= c.1 ->
  exists delivered todo,
    cs = delivered ++ todo /\ c ∈ todo
    /\ contig (expected_seq s) todo.
Proof.
  intros Hc (Hl & dl & todo & Hcs & Hob & He & Hkeys & Harr) Hin Hge.
  exists dl, todo. split; [done|].
  rewrite Hcs in Hc, Hin. apply contig_app in Hc as [Hdl Htodo].
  rewrite <- He in Htodo. split; [|done].
  apply elem_of_app in Hin as [Hin|Hin]; [|done].
  destruct c as [s0 d0].
  destruct (contig_elem _ _ _ _ Hdl Hin) as (_ & Hend & Hd0).
  destruct d0; [done|]. simpl in *. lia.
Qed.

(** The datagram of a segment that is already delivered or already
    buffered adds nothing. *)
Lemma reassembling_repeat cs seen s c p :
  contig 0 cs -> reassembling cs seen s -> packet_of c p ->
  c.1 < expected_seq s \/ is_Some (received_data s !! c.1) ->
  reassembling cs (seen ++ [p]) s.
Proof.
  intros Hc (Hl & dl & todo & Hcs & Hob & He & Hkeys & Harr) Hp Hcase.
  split; [done|]. exists dl, todo. do 4 (split; [done|]).
  intros c' p' Hin' Hp' [Hseen| ->%list_elem_of_singleton]%elem_of_app;
    [by eapply Harr|].
  rewrite (packet_of_inj _ _ _ Hp' Hp) in *.
  rewrite Hcs in Hc. apply contig_app in Hc as [_ Hc]. rewrite <- He in Hc.
  destruct c as [s0 d0]. simpl in *.
  destruct Hcase as [Hlt|[x Hx]].
  - destruct (contig_elem _ _ _ _ Hc Hin') as [? _]. lia.
  - rewrite Hx. f_equal.
    by eapply (contig_functional _ _ _ _ _ Hc (Hkeys _ _ Hx)).
Qed.

(** A segment at or beyond [expected_seq] that is not yet buffered gets
    buffered. *)
Lemma reassembling_store cs seen s s' c p :
  contig 0 cs -> reassembling cs seen s -> c ∈ cs -> packet_of c p ->
  expected_seq s <= c.1 ->
  received_data s !! c.1 = None ->
  loss_prob s' = loss_prob s ->
  output_buffer s' = output_buffer s ->
  expected_seq s' = expected_seq s ->
  received_data s' = <[c.1 := c.2]> (received_data s) ->
  reassembling cs (seen ++ [p]) s'.
Proof.
  intros Hc Hs Hin Hp Hge Hnew Hl' Hob' He' Hrd'.
  destruct (reassembling_todo _ _ _ _ Hc Hs Hin Hge)
    as (dl' & todo' & Hcs' & Hin' & _).
  destruct Hs as (Hl & dl & todo & Hcs & Hob & He & Hkeys & Harr).
  assert (c ∈ todo) as Hct.
  { rewrite Hcs in Hin, Hc. apply contig_app in Hc as [Hdl _].
    apply elem_of_app in Hin as [Hin|Hin]; [|done].
    destruct c as [s0 d0].
    destruct (contig_elem _ _ _ _ Hdl Hin) as (_ & Hend & Hd0).
    destruct d0; [done|]. simpl in *. lia. }
  split; [by rewrite Hl'|]. exists dl, todo.
  rewrite Hob', He', Hrd'. do 3 (split; [done|]). split.
  - intros seq_num d [[<- <-]|[_ Hd]]%lookup_insert_Some; [|by apply Hkeys].
    by destruct c.
  - intros c' p' Hc' Hp' [Hseen| ->%list_elem_of_singleton]%elem_of_app.
    + pose proof (Harr _ _ Hc' Hp' Hseen) as Hb.
      rewrite lookup_insert_ne; [done|]. intros Heq.
      rewrite Heq, Hb in Hnew. done.
    + rewrite (packet_of_inj _ _ _ Hp' Hp). apply lookup_insert_eq.
Qed.

Lemma accepted_packet_of s c p r :
  loss_prob s = 0%Q -> (0 <= r)%Q -> packet_of c p ->
  accepted s p r c.1 c.2.
Proof.
  intros Hl Hr Hp. exists (calculate_checksum c.2).
  split; [by apply packet_fields_create|].
  split; [rewrite Hl; by apply Qltb_loss_off|].
  unfold verify_checksum. by rewrite bool_decide_eq_true_2.
Qed.

(** One arrival. *)
Lemma reassembling_process cs seen s c p addr r :
  contig 0 cs -> reassembling cs seen s ->
  received_data s !! expected_seq s = None ->
  c ∈ cs -> packet_of c p -> (0 <= r)%Q ->
  reassembling cs (seen ++ [p]) (process_packet p addr r s).2
  /\ received_data (process_packet p addr r s).2
       !! expected_seq (process_packet p addr r s).2 = None.
Proof.
  intros Hc Hs Hnone Hin Hp Hr.
  rewrite (process_packet_accepted _ _ addr _ _ _
             (accepted_packet_of _ _ _ _ (proj1 Hs) Hr Hp)).
  destruct (latched_frame addr s)
    as (He & Hrd & Hob & _ & _ & _ & Hlp & _).
  assert (reassembling cs seen (latched addr s)) as Hs2
    by (by eapply reassembling_ext).
  cbv zeta. case_bool_decide as Hlt.
  - assert (reassembling cs (seen ++ [p]) (latched addr s)) as Hs2'
      by (eapply reassembling_repeat; eauto).
    destruct (send_ack_cases addr (expected_seq (latched addr s))
                (latched addr s))
      as [(pk & _ & _ & _ & Hst & Hlp')|[_ ->]].
    + unfold receiver_state in Hst. injection Hst as He' Hrd' Hob' _ _ _.
      split; [by eapply reassembling_ext|].
      by rewrite Hrd', He', Hrd, He.
    + split; [done|]. simpl. by rewrite Hrd, He.
  - destruct (received_data (latched addr s) !! c.1) as [x|] eqn:Hx.
    + split.
      * apply reassembling_loop; [done|].
        eapply reassembling_repeat; eauto.
      * by apply deliver_loop_done.
    + destruct (store_new_frame c.1 c.2 (latched addr s))
        as (He3 & Hrd3 & Hob3 & _ & _ & Hlp3).
      split.
      * apply reassembling_loop; [done|].
        eapply (reassembling_store cs seen (latched addr s)); eauto.
        lia.
      * by apply deliver_loop_done.
Qed.

(** A whole sequence of arrivals. *)
Lemma receive_all_reassembling cs arrivals seen s :
  contig 0 cs -> reassembling cs seen s ->
  received_data s !! expected_seq s = None ->
  Forall (fun d : bytes * address * Q =>
            (0 <= d.2)%Q /\ exists c, c ∈ cs /\ packet_of c d.1.1)
    arrivals ->
  reassembling cs (seen ++ arrivals.*1.*1) (receive_all arrivals s)
  /\ received_data (receive_all arrivals s)
       !! expected_seq (receive_all arrivals s) = None.
Proof.
  intros Hc. revert seen s.
  induction arrivals as [|[[p addr] r] arrivals IH];
    intros seen s Hs Hnone Hall.
  - simpl. by rewrite app_nil_r.
  - apply Forall_cons in Hall as [(Hr & c & Hin & Hp) Hall]. simpl in *.
    destruct (reassembling_process cs seen s c p addr r)
      as [Hs' Hnone']; try done.
    rewrite cons_middle, app_assoc. by apply IH.
Qed.

(** Once every segment has arrived, everything is delivered. *)
Lemma reassembling_complete cs seen s :
  contig 0 cs -> reassembling cs seen s ->
  received_data s !! expected_seq s = None ->
  (forall c, c ∈ cs -> exists p, packet_of c p /\ p ∈ seen) ->
  output_buffer s = cs.*2 /\ expected_seq s = end_offset 0 cs.
Proof.
  intros Hc (Hl & dl & todo & Hcs & Hob & He & Hkeys & Harr) Hnone Hall.
  destruct todo as [|[s0 d0] todo].
  - rewrite app_nil_r in Hcs. by subst dl.
  - exfalso. rewrite Hcs in Hc. apply contig_app in Hc as [_ (Hs0 & _)].
    destruct (Hall (s0, d0)) as (p & Hp & Hseen).
    { rewrite Hcs. apply elem_of_app. right. by left. }
    pose proof (Harr (s0, d0) p ltac:(by left) Hp Hseen) as Hb.
    simpl in Hb. rewrite Hs0, <- He, Hnone in Hb. done.
Qed.

Lemma receive_all_segments file_data packets arrivals :
  Forall2 packet_of (read_file_chunks file_data) packets ->
  (forall p, p ∈ arrivals.*1.*1 <-> p ∈ packets) ->
  Forall (fun d : bytes * address * Q => (0 <= d.2)%Q) arrivals ->
  output_buffer (receive_all arrivals (server_init 0))
  = (read_file_chunks file_data).*2
  /\ expected_seq (receive_all arrivals (server_init 0))
     = Z.of_nat (length file_data).
Proof.
  intros Hpk Hsame Hr.
  pose proof (contig_read_file file_data) as Hc.
  destruct (receive_all_reassembling (read_file_chunks file_data)
              arrivals [] (server_init 0) Hc
              (reassembling_init _) (lookup_empty _)) as [Hs Hnone].
  { apply Forall_forall. intros [[p addr] r] Hin. simpl. split.
    - by apply (proj1 (Forall_forall _ _) Hr _ Hin).
    - assert (p ∈ packets) as [i Hi]%list_elem_of_lookup.
      { apply Hsame. apply list_elem_of_fmap. exists (p, addr).
        split; [done|]. apply list_elem_of_fmap. by exists (p, addr, r). }
      destruct (Forall2_lookup_r _ _ _ _ _ Hpk Hi) as (c & Hci & Hcp).
      exists c. split; [by eapply list_elem_of_lookup_2|done]. }
  destruct (reassembling_complete _ _ _ Hc Hs Hnone) as [Hob He].
  { intros c [i Hi]%list_elem_of_lookup.
    destruct (Forall2_lookup_l _ _ _ _ _ Hpk Hi) as (p & Hpi & Hcp).
    exists p. split; [done|]. simpl. apply Hsame.
    by eapply list_elem_of_lookup_2. }
  split; [done|].
  by rewrite He, end_offset_payloads, read_file_chunks_concat.
Qed.

(** C4.  Loss off, checksums as the sender computes them.  Take the
    segments of a file, the datagram [create_packet] builds for each,
    and two arrival sequences that each contain exactly those datagrams,
    in any order and any number of times.  Fed to [process_packet] from
    the initial state, both leave the same [output_buffer], whose
    concatenation is the file, and the same [expected_seq], the length
    of the file. *)
Theorem reassembly_order_independent file_data packets arrivals1 arrivals2 :
  Forall2 packet_of (read_file_chunks file_data) packets ->
  (forall p, p ∈ arrivals1.*1.*1 <-> p ∈ packets) ->
  (forall p, p ∈ arrivals2.*1.*1 <-> p ∈ packets) ->
  Forall (fun d : bytes * address * Q => (0 <= d.2)%Q) arrivals1 ->
  Forall (fun d : bytes * address * Q => (0 <= d.2)%Q) arrivals2 ->
  let s1 := receive_all arrivals1 (server_init 0) in
  let s2 := receive_all arrivals2 (server_init 0) in
  output_buffer s1 = output_buffer s2
  /\ concat (output_buffer s1) = file_data
  /\ expected_seq s1 = expected_seq s2
  /\ expected_seq s1 = Z.of_nat (length file_data).
Proof.
  intros Hpk Hsame1 Hsame2 Hr1 Hr2.
  destruct (receive_all_segments _ _ _ Hpk Hsame1 Hr1) as [Hob1 He1].
  destruct (receive_all_segments _ _ _ Hpk Hsame2 Hr2) as [Hob2 He2].
  cbv zeta. rewrite Hob1, Hob2, He1, He2.
  split; [done|]. split; [apply read_file_chunks_concat|done].
Qed.

(** ** Sender: the dictionary of unacknowledged segments *)

Lemma filter_all {A} (P : A -> Prop) `{forall x, Decision (P x)} l :
  Forall P l -> filter P l = l.
Proof.
  induction 1 as [|x l Hx _ IH]; [done|].
  rewrite filter_cons_True by done. by rewrite IH.
Qed.

Lemma filter_iff_in {A} (P1 P2 : A -> Prop)
    `{forall x, Decision (P1 x)} `{forall x, Decision (P2 x)}
    (l : list A) :
  (forall x, x ∈ l -> P1 x <-> P2 x) -> filter P1 l = filter P2 l.
Proof.
  induction l as [|x l IH]; intros Hiff; [done|].
  rewrite !filter_cons.
  rewrite IH by (intros y Hy; apply Hiff; by right).
  apply decide_ext, Hiff. by left.
Qed.

Section DictFacts.
Context {V : Type}.
Implicit Types (d : list (Z * V)) (k : Z) (v : V).

Lemma dict_get_None d k : dict_get d k = None <-> k ∉ dict_keys d.
Proof.
  unfold dict_keys. induction d as [|[k' v'] d IH]; simpl.
  - split; [intros _ ?%elem_of_nil|]; done.
  - rewrite not_elem_of_cons. destruct (decide (k' = k)) as [->|Hne].
    + split; [done|]. by intros [? _].
    + rewrite IH. split; [by split|by intros [_ ?]].
Qed.

Lemma dict_get_Some_key d k v : dict_get d k = Some v -> k ∈ dict_keys d.
Proof.
  intros Hg. destruct (decide (k ∈ dict_keys d)) as [|Hn]; [done|].
  apply dict_get_None in Hn. congruence.
Qed.

Lemma dict_key_get d k : k ∈ dict_keys d -> is_Some (dict_get d k).
Proof.
  intros Hk. destruct (dict_get d k) eqn:Hg; [by eexists|].
  by apply dict_get_None in Hg.
Qed.

Lemma dict_get_elem d k v : dict_get d k = Some v -> (k, v) ∈ d.
Proof.
  induction d as [|[k' v'] d IH]; simpl; [done|].
  destruct (decide (k' = k)) as [->|].
  - intros [= ->]. by left.
  - intros ?. right. auto.
Qed.

Lemma dict_elem_get d k v :
  NoDup (dict_keys d) -> (k, v) ∈ d -> dict_get d k = Some v.
Proof.
  unfold dict_keys. induction d as [|[k' v'] d IH]; simpl.
  - by intros _ ?%elem_of_nil.
  - intros [Hk' Hnd]%NoDup_cons [[= -> ->]|Hin]%elem_of_cons.
    + by rewrite decide_True.
    + rewrite decide_False; [auto|]. intros ->. apply Hk'.
      apply list_elem_of_fmap. by exists (k, v).
Qed.

Lemma dict_get_set_eq d k v : dict_get (dict_set d k v) k = Some v.
Proof.
  induction d as [|[k' v'] d IH]; simpl.
  - by rewrite decide_True.
  - destruct (decide (k' = k)); simpl.
    + by rewrite decide_True.
    + by rewrite decide_False.
Qed.

Lemma dict_get_set_ne d k k' v :
  k <> k' -> dict_get (dict_set d k v) k' = dict_get d k'.
Proof.
  intros Hne. induction d as [|[k0 v0] d IH]; simpl.
  - by rewrite decide_False.
  - destruct (decide (k0 = k)) as [->|]; simpl.
    + by rewrite !decide_False.
    + by rewrite IH.
Qed.

Lemma dict_keys_set_old d k v :
  is_Some (dict_get d k) -> dict_keys (dict_set d k v) = dict_keys d.
Proof.
  unfold dict_keys. induction d as [|[k' v'] d IH]; simpl.
  - by intros [? ?].
  - destruct (decide (k' = k)) as [->|]; simpl; [done|].
    intros ?. f_equal. by apply IH.
Qed.

Lemma dict_keys_set_new d k v :
  dict_get d k = None -> dict_keys (dict_set d k v) = dict_keys d ++ [k].
Proof.
  unfold dict_keys. induction d as [|[k' v'] d IH]; simpl; [done|].
  destruct (decide (k' = k)); [done|]. simpl. intros ?. f_equal.
  by apply IH.
Qed.

Lemma dict_set_NoDup d k v :
  NoDup (dict_keys d) -> NoDup (dict_keys (dict_set d k v)).
Proof.
  intros Hnd. destruct (dict_get d k) eqn:Hg.
  - by rewrite dict_keys_set_old.
  - rewrite dict_keys_set_new by done. apply NoDup_app.
    split; [done|]. split; [|apply NoDup_singleton].
    intros x Hx ->%list_elem_of_singleton. by apply dict_get_None in Hg.
Qed.

Lemma dict_keys_pop d k :
  NoDup (dict_keys d) ->
  dict_keys (dict_pop d k) = filter (fun x => x <> k) (dict_keys d).
Proof.
  unfold dict_keys. induction d as [|[k' v'] d IH]; simpl; [done|].
  intros [Hk' Hnd]%NoDup_cons. rewrite filter_cons. simpl.
  destruct (decide (k' = k)) as [->|Hne].
  - rewrite decide_False by auto. symmetry.
    apply filter_all. apply Forall_forall. intros x Hx ->. done.
  - rewrite decide_True by done. simpl. f_equal. by apply IH.
Qed.

Lemma dict_get_pop_ne d k k' :
  k <> k' -> dict_get (dict_pop d k) k' = dict_get d k'.
Proof.
  intros Hne. induction d as [|[k0 v0] d IH]; simpl; [done|].
  destruct (decide (k0 = k)) as [->|]; simpl.
  - by rewrite decide_False.
  - by rewrite IH.
Qed.

Lemma dict_pop_NoDup d k :
  NoDup (dict_keys d) -> NoDup (dict_keys (dict_pop d k)).
Proof.
  intros Hnd. rewrite dict_keys_pop by done. by apply NoDup_filter.
Qed.

Lemma dict_keys_pop_all d l :
  NoDup (dict_keys d) ->
  dict_keys (fold_left dict_pop l d)
  = filter (fun x => x ∉ l) (dict_keys d).
Proof.
  revert d. induction l as [|k l IH]; intros d Hnd; simpl.
  - symmetry. apply filter_all. apply Forall_forall.
    intros x _. apply not_elem_of_nil.
  - rewrite IH by by apply dict_pop_NoDup.
    rewrite dict_keys_pop by done. rewrite list_filter_filter.
    apply list_filter_iff. intros x. rewrite not_elem_of_cons. tauto.
Qed.

Lemma dict_get_pop_all d l k :
  k ∉ l -> dict_get (fold_left dict_pop l d) k = dict_get d k.
Proof.
  revert d. induction l as [|k0 l IH]; intros d Hk; simpl; [done|].
  apply not_elem_of_cons in Hk as [Hne Hk].
  rewrite IH by done. by apply dict_get_pop_ne.
Qed.

Lemma dict_keys_length d : length (dict_keys d) = length d.
Proof. apply length_fmap. Qed.
End DictFacts.

Lemma find_chunk_elem cs seq_num d :
  find_chunk cs seq_num = Some d -> (seq_num, d) ∈ cs.
Proof.
  induction cs as [|[s0 d0] cs IH]; simpl; [done|].
  destruct (decide (s0 = seq_num)) as [->|].
  - intros [= ->]. by left.
  - intros ?. right. auto.
Qed.

Lemma find_chunk_contig off cs seq_num d :
  contig off cs -> (seq_num, d) ∈ cs -> find_chunk cs seq_num = Some d.
Proof.
  revert off. induction cs as [|[s0 d0] cs IH]; intros off Hc Hin; simpl.
  - by apply elem_of_nil in Hin.
  - apply elem_of_cons in Hin as [[= -> ->]|Hin].
    + by rewrite decide_True.
    + pose proof (contig_head_lt _ _ _ _ _ _ Hc Hin).
      rewrite decide_False by lia. destruct Hc as (_ & _ & Hc). eauto.
Qed.

(** ** Sender: window arithmetic *)

Lemma py_int_inject (z : Z) : py_int (inject_Z z) = z.
Proof. unfold py_int. simpl. apply Z.quot_1_r. Qed.

(** [int(cwnd / 2)] is the integer half, rounded toward zero. *)
Lemma py_int_half (z : Z) : py_int (inject_Z z / 2) = Z.quot z 2.
Proof. unfold py_int. simpl. by rewrite Z.mul_1_r. Qed.

(** [max(int(cwnd / 2), 2)] is [max(floor(cwnd / 2), 2)], for negative
    windows as well. *)
Lemma halved_floor c : halved c = Z.max (cwnd c / 2) 2.
Proof.
  unfold halved. rewrite py_int_half.
  destruct (Z.le_gt_cases 0 (cwnd c)).
  - by rewrite Z.quot_div_nonneg by lia.
  - pose proof (Z.quot_le_upper_bound (cwnd c) 2 0 ltac:(lia) ltac:(lia)).
    pose proof (Z.div_le_upper_bound (cwnd c) 2 0 ltac:(lia) ltac:(lia)).
    lia.
Qed.

Lemma halved_ge c : 2 <= halved c.
Proof. unfold halved. lia. Qed.

(** [cwnd + K / cwnd] as a rational, then [int(...)] if it is at least
    1, else 1: the truncation clamped from below. *)
Lemma clamp_trunc (x : Q) :
  (if Qle_bool 1 x then py_int x else 1) = Z.max 1 (py_int x).
Proof.
  destruct x as [n d]. unfold Qle_bool, py_int. simpl.
  rewrite Z.mul_1_r, Z.mul_1_l.
  destruct (Z.leb_spec (Z.pos d) n) as [Hle|Hgt].
  - pose proof (Z.quot_le_lower_bound n (Z.pos d) 1 ltac:(lia) ltac:(lia)).
    lia.
  - assert (Z.quot n (Z.pos d) <= 0); [|lia].
    destruct (Z.le_gt_cases 0 n).
    + rewrite Z.quot_small; lia.
    + apply Z.quot_le_upper_bound; lia.
Qed.

Lemma py_int_growth (w k : Z) :
  1 <= w -> 0 <= k ->
  py_int (inject_Z w + inject_Z k / inject_Z w) = w + k / w.
Proof.
  intros Hw Hk. unfold py_int, Qdiv, Qinv, inject_Z. simpl.
  destruct w as [|w|w]; try lia. simpl.
  rewrite ?Z.mul_1_r, ?Pos.mul_1_l.
  rewrite Z.quot_div_nonneg by lia.
  rewrite ?Pos.mul_1_l.
  rewrite Z.add_comm, Z.div_add by lia. lia.
Qed.

(** ** Sender: [handle_ack] *)

(** C1, as the code has it.  A duplicate ACK ([ack_num] equal to
    [last_ack_received]) always increments [duplicate_ack_count].  When
    the count reaches exactly 3 and the segment table has a segment
    whose seq is [ack_num], the sender sends that segment again with the
    payload of the table, sets [ssthresh] to max(floor(cwnd/2), 2),
    [cwnd] to [ssthresh + 3], the phase to congestion avoidance and the
    count to 0 (and counts one fast retransmission).  When the count
    reaches 3 and no segment starts at [ack_num], nothing else happens:
    the count stays at 3. *)
Theorem duplicate_ack_fast_retransmit send_time ack_num c :
  ack_num = last_ack_received c ->
  0 <= ack_num < 2 ^ 32 ->
  let n := duplicate_ack_count c + 1 in
  (n <> 3 ->
   handle_ack send_time ack_num c = (Returned, set_duplicate_ack_count n c))
  /\ (n = 3 -> find_chunk (chunks c) ack_num = None ->
      handle_ack send_time ack_num c
      = (Returned, set_duplicate_ack_count n c))
  /\ (n = 3 ->
      forall chunk_data, find_chunk (chunks c) ack_num = Some chunk_data ->
      exists packet c',
        create_packet ack_num chunk_data = Some packet
        /\ packet_fields packet
           = Some (ack_num, calculate_checksum chunk_data, chunk_data)
        /\ handle_ack send_time ack_num c = (Returned, c')
        /\ sent c' = sent c ++ [packet]
        /\ ssthresh c' = Z.max (cwnd c / 2) 2
        /\ cwnd c' = ssthresh c' + 3
        /\ state c' = congestion_avoidance
        /\ duplicate_ack_count c' = 0
        /\ dict_get (unacked_packets c') ack_num
           = Some (packet, send_time,
                   match dict_get (unacked_packets c) ack_num with
                   | Some (_, _, retransmit_count) => retransmit_count + 1
                   | None => 1
                   end)
        /\ total_retransmissions c' = total_retransmissions c + 1
        /\ fast_retransmissions c' = fast_retransmissions c + 1
        /\ timeout_retransmissions c' = timeout_retransmissions c
        /\ last_ack_received c' = last_ack_received c
        /\ last_acked_seq c' = last_acked_seq c
        /\ chunks c' = chunks c).
Proof.
  intros Hdup Hrange n. subst n. unfold handle_ack.
  rewrite decide_True by done. cbn [duplicate_ack_count set_duplicate_ack_count].
  unfold FAST_RETRANSMIT_DUP_ACKS. split; [|split].
  - intros Hn. by rewrite decide_False.
  - intros Hn Hnone. rewrite decide_True by done. unfold fast_retransmit.
    cbn [chunks set_duplicate_ack_count]. by rewrite Hnone.
  - intros Hn chunk_data Hchunk. rewrite decide_True by done.
    destruct (create_packet_Some ack_num chunk_data Hrange)
      as (hdr & ck & _ & _ & Hp).
    exists (hdr ++ ck ++ chunk_data). eexists.
    split; [done|]. split; [by apply packet_fields_create|].
    unfold fast_retransmit. cbn [chunks set_duplicate_ack_count].
    rewrite Hchunk, Hp. split; [reflexivity|].
    cbn. rewrite dict_get_set_eq.
    split; [done|]. split; [apply (halved_floor c)|].
    split; [done|]. split; [done|]. split; [done|].
    split; [|done].
    by destruct (dict_get (unacked_packets c) ack_num) as [[[? ?] ?]|].
Qed.

Lemma covered_spec c ack_num seq_num :
  covered c ack_num seq_num = true
  <-> exists d, find_chunk (chunks c) seq_num = Some d /\ d <> []
                /\ seq_num + Z.of_nat (length d) <= ack_num.
Proof.
  unfold covered. destruct (find_chunk (chunks c) seq_num) as [d|].
  - rewrite andb_true_iff, !bool_decide_eq_true. split.
    + intros [Hne Hle]. exists d. split; [done|]. split; [|done].
      intros ->. done.
    + intros (d' & [= <-] & Hne & Hle). split; [|done].
      destruct d; [done|]. simpl. lia.
  - split; [done|]. by intros (? & ? & _).
Qed.

(** What the new-ACK branch does before it grows the window. *)
Lemma handle_ack_new send_time ack_num c :
  last_ack_received c < ack_num ->
  handle_ack send_time ack_num c
  = grow_window (Z.of_nat (length (acked_packets c ack_num)))
      (set_last_acked_seq (Z.max (last_acked_seq c) (ack_num - 1))
         (set_unacked_packets
            (fold_left dict_pop (acked_packets c ack_num) (unacked_packets c))
            (set_last_ack_received ack_num (set_duplicate_ack_count 0 c)))).
Proof.
  intros Hnew. unfold handle_ack.
  rewrite decide_False by lia. by rewrite bool_decide_eq_true_2 by lia.
Qed.

Lemma grow_window_frame k c :
  let c' := (grow_window k c).2 in
  chunks c' = chunks c
  /\ ssthresh c' = ssthresh c
  /\ last_acked_seq c' = last_acked_seq c
  /\ unacked_packets c' = unacked_packets c
  /\ last_ack_received c' = last_ack_received c
  /\ duplicate_ack_count c' = duplicate_ack_count c
  /\ total_retransmissions c' = total_retransmissions c
  /\ timeout_retransmissions c' = timeout_retransmissions c
  /\ fast_retransmissions c' = fast_retransmissions c
  /\ sent c' = sent c.
Proof.
  cbv zeta. unfold grow_window. destruct (state c); simpl.
  - by case_bool_decide.
  - by destruct (decide (cwnd c = 0)).
Qed.

(** C2.  On an ACK above [last_ack_received], let K count the keys of
    [unacked_packets] whose segment ends at or below [ack_num]; exactly
    those entries are removed.  In slow start [cwnd] becomes [cwnd + K]
    and the phase becomes congestion avoidance iff the new [cwnd] is at
    least [ssthresh].  In congestion avoidance (with the non-zero [cwnd]
    every run has) [cwnd] becomes [cwnd + K / cwnd] truncated toward
    zero and clamped to at least 1, which for [cwnd >= 1] is
    [cwnd + floor(K / cwnd)]. *)
Theorem new_ack_window_growth send_time ack_num c :
  NoDup (dict_keys (unacked_packets c)) ->
  last_ack_received c < ack_num ->
  let removed := acked_packets c ack_num in
  let K := Z.of_nat (length removed) in
  let c' := (handle_ack send_time ack_num c).2 in
  (forall seq_num,
     seq_num ∈ removed
     <-> seq_num ∈ dict_keys (unacked_packets c)
         /\ exists d, find_chunk (chunks c) seq_num = Some d /\ d <> []
                      /\ seq_num + Z.of_nat (length d) <= ack_num)
  /\ dict_keys (unacked_packets c')
     = filter (fun seq_num => seq_num ∉ removed)
         (dict_keys (unacked_packets c))
  /\ Z.of_nat (length (unacked_packets c'))
     = Z.of_nat (length (unacked_packets c)) - K
  /\ last_ack_received c' = ack_num
  /\ ssthresh c' = ssthresh c
  /\ (state c = slow_start ->
      (handle_ack send_time ack_num c).1 = Returned
      /\ cwnd c' = cwnd c + K
      /\ (state c' = congestion_avoidance <-> cwnd c' >= ssthresh c)
      /\ (state c' = slow_start <-> cwnd c' < ssthresh c))
  /\ (state c = congestion_avoidance -> cwnd c <> 0 ->
      (handle_ack send_time ack_num c).1 = Returned
      /\ cwnd c'
         = Z.max 1 (py_int (inject_Z (cwnd c)
                            + inject_Z K / inject_Z (cwnd c)))
      /\ (1 <= cwnd c -> cwnd c' = cwnd c + K / cwnd c)
      /\ state c' = congestion_avoidance).
Proof.
  intros Hnd Hnew removed K c'. subst c'.
  rewrite (handle_ack_new _ _ _ Hnew). fold removed. fold K.
  set (c1 := set_last_acked_seq _ _).
  destruct (grow_window_frame K c1)
    as (_ & Hss & _ & Hun & Hlar & _).
  rewrite Hun, Hlar, Hss. cbn [c1 unacked_packets set_last_acked_seq
    set_unacked_packets set_last_ack_received set_duplicate_ack_count
    last_ack_received ssthresh].
  assert (Hmem : forall seq_num,
             seq_num ∈ removed
             <-> seq_num ∈ dict_keys (unacked_packets c)
                 /\ exists d, find_chunk (chunks c) seq_num = Some d
                      /\ d <> []
                      /\ seq_num + Z.of_nat (length d) <= ack_num).
  { intros seq_num. unfold removed, acked_packets.
    rewrite list_elem_of_filter, covered_spec. tauto. }
  assert (Hkeys : dict_keys (fold_left dict_pop removed (unacked_packets c))
                  = filter (fun seq_num => seq_num ∉ removed)
                      (dict_keys (unacked_packets c)))
    by by apply dict_keys_pop_all.
  split; [done|]. split; [done|]. split.
  { rewrite <- (dict_keys_length (fold_left _ _ _)), Hkeys.
    rewrite <- (dict_keys_length (unacked_packets c)).
    subst K. unfold removed at 2, acked_packets.
    pose proof (filter_app_complement
                  (fun seq_num => covered c ack_num seq_num = true)
                  (dict_keys (unacked_packets c))) as Hperm.
    apply Permutation_length in Hperm. rewrite length_app in Hperm.
    rewrite (filter_iff_in _
               (fun seq_num => ~ covered c ack_num seq_num = true)).
    - unfold removed, acked_packets. lia.
    - intros x Hx. unfold removed, acked_packets.
      rewrite list_elem_of_filter. tauto. }
  split; [done|]. split; [done|].
  unfold grow_window. split.
  - intros Hst. change (state c1) with (state c). rewrite Hst.
    change (cwnd c1) with (cwnd c). change (ssthresh c1) with (ssthresh c).
    cbn [cwnd set_cwnd ssthresh]. case_bool_decide as Hge; cbn.
    + change (ssthresh c1) with (ssthresh c) in Hge.
      split; [done|]. split; [done|]. split; [done|]. split; [done|lia].
    + change (ssthresh c1) with (ssthresh c) in Hge. rewrite Hst.
      split; [done|]. split; [done|]. split; [|split; [lia|done]].
      split; [done|lia].
  - intros Hst Hnz. change (state c1) with (state c). rewrite Hst.
    change (cwnd c1) with (cwnd c). rewrite decide_False by done.
    cbn [fst snd cwnd set_cwnd state]. rewrite clamp_trunc.
    split; [done|]. split; [done|]. split; [|done].
    intros Hw. rewrite py_int_growth by lia.
    pose proof (Z.div_pos K (cwnd c) ltac:(lia) ltac:(lia)). lia.
Qed.

(** ** Sender: invariants *)

Ltac client_simpl :=
  cbn [chunks cwnd ssthresh state last_acked_seq unacked_packets
       last_ack_received duplicate_ack_count total_retransmissions
       timeout_retransmissions fast_retransmissions sent
       set_cwnd set_ssthresh set_state set_last_acked_seq
       set_unacked_packets set_last_ack_received set_duplicate_ack_count
       count_timeout_retransmission count_fast_retransmission sendto
       fst snd] in *.

Lemma dict_get_pop_all_inv {V} (d : list (Z * V)) l k v :
  NoDup (dict_keys d) ->
  dict_get (fold_left dict_pop l d) k = Some v ->
  (k ∉ l) /\ dict_get d k = Some v.
Proof.
  intros Hnd Hg. pose proof (dict_get_Some_key _ _ _ Hg) as Hk.
  rewrite dict_keys_pop_all in Hk by done.
  apply list_elem_of_filter in Hk as [Hk _]. split; [done|].
  by rewrite dict_get_pop_all in Hg.
Qed.

Lemma client_inv_init file_data : client_inv file_data (client_init file_data).
Proof.
  unfold client_inv, client_init. simpl.
  repeat split; try done; try lia. apply NoDup_nil_2.
Qed.

(** The entry that [send_packet] and the fast retransmission write. *)
Lemma client_inv_set file_data c c' seq_num d p t n :
  client_inv file_data c ->
  find_chunk (chunks c) seq_num = Some d ->
  create_packet seq_num d = Some p ->
  chunks c' = chunks c ->
  unacked_packets c' = dict_set (unacked_packets c) seq_num (p, t, n) ->
  1 <= cwnd c' -> 2 <= ssthresh c' ->
  total_retransmissions c'
  = timeout_retransmissions c' + fast_retransmissions c' ->
  last_acked_seq c' = last_acked_seq c ->
  last_ack_received c' = last_ack_received c ->
  client_inv file_data c'.
Proof.
  intros (Hch & Hnd & Hent & _ & _ & _ & Hla) Hd Hp Hch' Hun' ? ? ? Hla' Hlar'.
  unfold client_inv. rewrite Hch', Hun', Hla', Hlar'.
  split; [done|]. split; [by apply dict_set_NoDup|]. split.
  - intros sq p0 t0 n0. destruct (decide (seq_num = sq)) as [<-|Hne].
    + rewrite dict_get_set_eq. intros [= <- <- <-]. eauto.
    + rewrite dict_get_set_ne by done. apply Hent.
  - done.
Qed.

Lemma send_packet_inv file_data t seq_num d r c :
  client_inv file_data c ->
  find_chunk (chunks c) seq_num = Some d ->
  1 <= cwnd c -> 
  client_inv file_data (send_packet t seq_num d r c).2.
Proof.
  intros Hinv Hd _. pose proof Hinv as (_ & _ & _ & ? & ? & ? & _).
  unfold send_packet.
  destruct (create_packet seq_num d) as [p|] eqn:Hp; [|done].
  client_simpl.
  destruct (dict_get (unacked_packets c) seq_num) as [[[p0 t0] n0]|];
    destruct r; client_simpl;
    (eapply client_inv_set; [exact Hinv|exact Hd|exact Hp|..]);
    client_simpl; try done; try lia.
Qed.

Lemma fast_retransmit_inv file_data t ack_num c :
  client_inv file_data c ->
  client_inv file_data (fast_retransmit t ack_num c).2.
Proof.
  intros Hinv. unfold fast_retransmit.
  destruct (find_chunk (chunks c) ack_num) as [d|] eqn:Hd; [|done].
  destruct (create_packet ack_num d) as [p|] eqn:Hp; [|done].
  client_simpl. pose proof Hinv as (_ & _ & _ & ? & ? & ? & _).
  destruct (dict_get (unacked_packets c) ack_num) as [[[p0 t0] n0]|];
    (eapply client_inv_set; [exact Hinv|exact Hd|exact Hp|..]);
    client_simpl; try done; try lia;
    match goal with |- context [halved ?x] =>
      pose proof (halved_ge x); lia end.
Qed.

Lemma client_inv_dup file_data n c :
  client_inv file_data c ->
  client_inv file_data (set_duplicate_ack_count n c).
Proof. done. Qed.

Lemma grow_window_bound k c :
  0 <= k -> 1 <= cwnd c -> 1 <= cwnd (grow_window k c).2.
Proof.
  intros Hk Hw. unfold grow_window. destruct (state c); client_simpl.
  - case_bool_decide; client_simpl; lia.
  - destruct (decide (cwnd c = 0)); client_simpl; [lia|].
    rewrite clamp_trunc. lia.
Qed.

Lemma handle_ack_inv file_data t ack_num c :
  0 <= ack_num ->
  client_inv file_data c ->
  client_inv file_data (handle_ack t ack_num c).2.
Proof.
  intros Hack Hinv.
  destruct (decide (ack_num = last_ack_received c)) as [Heq|Hne].
  - unfold handle_ack. rewrite decide_True by done.
    destruct (decide _); [|done].
    by apply fast_retransmit_inv, client_inv_dup.
  - destruct (Z.lt_ge_cases (last_ack_received c) ack_num) as [Hnew|Hold].
    + rewrite handle_ack_new by done.
      set (c1 := set_last_acked_seq _ _).
      set (k := Z.of_nat _).
      destruct (grow_window_frame k c1)
        as (Hch & Hss & Hla & Hun & Hlar & _ & Htot & Hto & Hfa & _).
      destruct Hinv as (Hch0 & Hnd & Hent & Hw & Hs & Hcnt & Hla0).
      unfold client_inv.
      rewrite Hch, Hss, Hla, Hun, Hlar, Htot, Hto, Hfa.
      subst c1. client_simpl.
      split; [done|].
      split.
      { rewrite dict_keys_pop_all by done. by apply NoDup_filter. }
      split.
      { intros sq p0 t0 n0 [_ Hg]%dict_get_pop_all_inv; [|done]. eauto. }
      split; [apply grow_window_bound; [lia|done]|].
      split; [done|]. split; [done|]. lia.
    + unfold handle_ack. rewrite decide_False by done.
      by rewrite bool_decide_eq_false_2 by lia.
Qed.

Lemma retransmit_all_inv file_data clock seqs k c :
  client_inv file_data c ->
  client_inv file_data (retransmit_all clock k seqs c).2.
Proof.
  revert k c. induction seqs as [|sq seqs IH]; intros k c Hinv; [done|].
  cbn [retransmit_all].
  destruct (find_chunk (chunks c) sq) as [d|] eqn:Hd; [|by apply IH].
  set (c1 := set_state _ _).
  assert (client_inv file_data c1) as Hinv1.
  { destruct Hinv as (? & ? & ? & ? & ? & ? & ?). unfold client_inv.
    subst c1. client_simpl. repeat split; try done.
    unfold halved. lia. }
  pose proof (send_packet_inv file_data (clock k) sq d true c1 Hinv1 Hd
                (proj1 (proj2 (proj2 (proj2 Hinv1))))) as Hinv2.
  destruct (send_packet (clock k) sq d true c1) as [[] c2]; [|done].
  by apply IH.
Qed.

Lemma find_chunk_lookup off cs i s d :
  contig off cs -> cs !! i = Some (s, d) -> find_chunk cs s = Some d.
Proof.
  intros Hc Hi. eapply find_chunk_contig; [done|].
  by eapply list_elem_of_lookup_2.
Qed.

Lemma sender_step_inv ack_ok file_data s s' :
  client_inv file_data (client s) -> sender_step ack_ok s s' ->
  client_inv file_data (client s').
Proof.
  intros Hinv Hstep.
  destruct Hstep as [c i t sq d c' _ Hi Hsend|c i t a o c' Ha _ Hack
                    |c i now clock o c' Hto]; simpl in *.
  - pose proof Hinv as (Hch & _). rewrite Hch in Hi.
    pose proof (find_chunk_lookup _ _ _ _ _ (contig_read_file _) Hi) as Hd.
    rewrite <- Hch in Hd.
    pose proof (send_packet_inv file_data t sq d false c Hinv Hd
                  (proj1 (proj2 (proj2 (proj2 Hinv))))) as H'.
    by rewrite Hsend in H'.
  - pose proof (handle_ack_inv file_data t a c (proj1 Ha) Hinv) as H'.
    by rewrite Hack in H'.
  - pose proof (retransmit_all_inv file_data clock
                  (timed_out_packets now c) 0 c Hinv) as H'.
    unfold check_timeouts in Hto. by rewrite Hto in H'.
Qed.

Lemma sender_run_inv ack_ok file_data s :
  sender_run ack_ok file_data s -> client_inv file_data (client s).
Proof.
  induction 1 as [|s s' _ IH Hstep]; [apply client_inv_init|].
  by eapply sender_step_inv.
Qed.

Lemma client_inv_window file_data c :
  client_inv file_data c -> 1 <= cwnd c /\ 2 <= ssthresh c.
Proof. by intros (_ & _ & _ & ? & ? & _). Qed.

Lemma client_inv_counters file_data c :
  client_inv file_data c ->
  total_retransmissions c
  = timeout_retransmissions c + fast_retransmissions c.
Proof. by intros (_ & _ & _ & _ & _ & ? & _). Qed.

Lemma sender_reachable_step file_data s s' :
  sender_reachable file_data s -> sender_step (fun _ _ => True) s s' ->
  sender_reachable file_data s'.
Proof. intros Hs Hstep. by eapply run_step. Qed.

(** C7.  In every state the sender reaches [cwnd >= 1] and
    [ssthresh >= 2]; so they are after one more call of [handle_ack]
    (a new ACK, a duplicate, a fast retransmission) or of
    [check_timeouts]; and the value every halving assigns to [ssthresh],
    max(int(cwnd/2), 2), is at least 2 whatever [cwnd] is. *)
Theorem window_bounds file_data s :
  sender_reachable file_data s ->
  (1 <= cwnd (client s) /\ 2 <= ssthresh (client s))
  /\ (forall t ack_num, 0 <= ack_num < 2 ^ 32 ->
        let c' := (handle_ack t ack_num (client s)).2 in
        1 <= cwnd c' /\ 2 <= ssthresh c')
  /\ (forall now clock,
        let c' := (check_timeouts now clock (client s)).2 in
        1 <= cwnd c' /\ 2 <= ssthresh c')
  /\ (forall c, 2 <= halved c).
Proof.
  intros Hs. pose proof (sender_run_inv _ _ _ Hs) as Hinv.
  split; [by eapply client_inv_window|].
  split; [|split; [|apply halved_ge]].
  - intros t ack_num Hack. eapply client_inv_window.
    apply (handle_ack_inv file_data t ack_num (client s) (proj1 Hack) Hinv).
  - intros now clock. eapply client_inv_window.
    apply (retransmit_all_inv file_data clock _ 0 (client s) Hinv).
Qed.

(** C8.  In every state the sender reaches,
    [total_retransmissions = timeout_retransmissions +
    fast_retransmissions].  A first-time send ([send_packet] without
    [is_retransmit] for a seq not in [unacked_packets]) changes none of
    the three counters; a timeout retransmission ([send_packet] with
    [is_retransmit]) adds one to the total and to the timeout counter; a
    fast retransmission adds one to the total and to the fast counter. *)
Theorem retransmission_counters file_data s :
  sender_reachable file_data s ->
  let c := client s in
  total_retransmissions c
  = timeout_retransmissions c + fast_retransmissions c
  /\ (forall t seq_num d,
        dict_get (unacked_packets c) seq_num = None ->
        let c' := (send_packet t seq_num d false c).2 in
        total_retransmissions c' = total_retransmissions c
        /\ timeout_retransmissions c' = timeout_retransmissions c
        /\ fast_retransmissions c' = fast_retransmissions c)
  /\ (forall t seq_num d,
        is_Some (create_packet seq_num d) ->
        let c' := (send_packet t seq_num d true c).2 in
        total_retransmissions c' = total_retransmissions c + 1
        /\ timeout_retransmissions c' = timeout_retransmissions c + 1
        /\ fast_retransmissions c' = fast_retransmissions c)
  /\ (forall t ack_num d,
        find_chunk (chunks c) ack_num = Some d ->
        0 <= ack_num < 2 ^ 32 ->
        let c' := (fast_retransmit t ack_num c).2 in
        total_retransmissions c' = total_retransmissions c + 1
        /\ fast_retransmissions c' = fast_retransmissions c + 1
        /\ timeout_retransmissions c' = timeout_retransmissions c).
Proof.
  intros Hs c. pose proof (sender_run_inv _ _ _ Hs) as Hinv. fold c in Hinv.
  split; [by eapply client_inv_counters|]. split; [|split].
  - intros t seq_num d Hnew. cbv zeta. unfold send_packet.
    destruct (create_packet seq_num d); [|done]. client_simpl.
    by rewrite Hnew.
  - intros t seq_num d [p Hp]. cbv zeta. unfold send_packet. rewrite Hp.
    client_simpl.
    by destruct (dict_get (unacked_packets c) seq_num) as [[[? ?] ?]|].
  - intros t ack_num d Hd Hack. cbv zeta. unfold fast_retransmit.
    rewrite Hd.
    destruct (create_packet_Some ack_num d Hack) as (hdr & ck & _ & _ & ->).
    by client_simpl.
Qed.

(** ** Sender: [check_timeouts] *)

Lemma Qltb_lt (a b : Q) : Qltb a b = true <-> (a < b)%Q.
Proof.
  unfold Qltb. rewrite negb_true_iff, <- not_true_iff_false, Qle_bool_iff.
  split; [apply Qnot_le_lt|apply Qlt_not_le].
Qed.

Lemma timed_out_packets_spec now c seq_num :
  NoDup (dict_keys (unacked_packets c)) ->
  seq_num ∈ timed_out_packets now c
  <-> exists p t n,
        dict_get (unacked_packets c) seq_num = Some (p, t, n)
        /\ (TIMEOUT < now - t)%Q.
Proof.
  intros Hnd. unfold timed_out_packets, dict_keys.
  rewrite list_elem_of_fmap. split.
  - intros ([sq [[p t] n]] & -> & [Hto Hin]%list_elem_of_filter).
    exists p, t, n. split; [by apply dict_elem_get|].
    by apply Qltb_lt in Hto.
  - intros (p & t & n & Hg%dict_get_elem & Hto).
    exists (seq_num, (p, t, n)). split; [done|].
    apply list_elem_of_filter. split; [|done]. by apply Qltb_lt.
Qed.

Lemma timed_out_packets_NoDup now c :
  NoDup (dict_keys (unacked_packets c)) ->
  NoDup (timed_out_packets now c).
Proof.
  intros Hnd. eapply sublist_NoDup; [exact Hnd|].
  unfold timed_out_packets, dict_keys. apply fmap_sublist, sublist_filter.
Qed.

(** The second loop of [check_timeouts], for keys that are in
    [unacked_packets] with a segment that can be encoded. *)
Lemma retransmit_all_spec clock seqs :
  forall k c,
    NoDup seqs ->
    (forall sq, sq ∈ seqs ->
       exists p0 t0 n p,
         dict_get (unacked_packets c) sq = Some (p0, t0, n)
         /\ retransmission_of c sq p) ->
    exists c',
      retransmit_all clock k seqs c = (Returned, c')
      /\ chunks c' = chunks c
      /\ (exists packets,
            sent c' = sent c ++ packets
            /\ Forall2 (retransmission_of c) seqs packets)
      /\ (forall i sq, seqs !! i = Some sq ->
            exists p0 t0 n p,
              dict_get (unacked_packets c) sq = Some (p0, t0, n)
              /\ retransmission_of c sq p
              /\ dict_get (unacked_packets c') sq
                 = Some (p, clock (k + i)%nat, n + 1))
      /\ (forall sq, sq ∉ seqs ->
            dict_get (unacked_packets c') sq
            = dict_get (unacked_packets c) sq)
      /\ total_retransmissions c'
         = total_retransmissions c + Z.of_nat (length seqs)
      /\ timeout_retransmissions c'
         = timeout_retransmissions c + Z.of_nat (length seqs)
      /\ fast_retransmissions c' = fast_retransmissions c
      /\ window_after_timeouts seqs c c'.
Proof.
  induction seqs as [|sq seqs IH]; intros k c Hnd Hent.
  - exists c. cbn [retransmit_all length window_after_timeouts].
    split; [done|]. split; [done|].
    split; [exists []; by rewrite app_nil_r|].
    split; [by intros i sq' ?|]. split; [done|].
    split; [lia|]. split; [lia|]. done.
  - apply NoDup_cons in Hnd as [Hsq Hnd].
    destruct (Hent sq ltac:(by left)) as (p0 & t0 & n & p & Hg & d & Hd & Hp).
    cbn [retransmit_all]. rewrite Hd.
    set (c1 := set_state slow_start _).
    unfold send_packet. rewrite Hp.
    change (dict_get (unacked_packets (sendto p c1)) sq)
      with (dict_get (unacked_packets c) sq). rewrite Hg.
    set (c2 := count_timeout_retransmission _).
    destruct (IH (S k) c2 Hnd) as
      (c' & Hrun & Hch & (pk & Hsent & Hpk) & Hnew & Hold
          & Htot & Hto & Hfa & Hwin).
    { intros sq' Hin'.
      destruct (Hent sq' ltac:(by right)) as (p0' & t0' & n' & p' & Hg' & Hr').
      exists p0', t0', n', p'. split; [|done].
      subst c2 c1. client_simpl. rewrite dict_get_set_ne; [done|].
      intros ->. done. }
    change (retransmission_of c2) with (retransmission_of c) in Hpk, Hnew.
    change (chunks c2) with (chunks c) in Hch.
    change (sent c2) with (sent c ++ [p]) in Hsent.
    change (total_retransmissions c2)
      with (total_retransmissions c + 1) in Htot.
    change (timeout_retransmissions c2)
      with (timeout_retransmissions c + 1) in Hto.
    change (fast_retransmissions c2) with (fast_retransmissions c) in Hfa.
    assert (Hun2 : unacked_packets c2
                   = dict_set (unacked_packets c) sq (p, clock k, n + 1))
      by done.
    exists c'. split; [done|]. split; [done|]. split.
    { exists (p :: pk). split.
      - rewrite Hsent. by rewrite <- app_assoc.
      - constructor; [by exists d|done]. }
    split.
    { intros [|i] sq' Hi; simpl in Hi.
      - injection Hi as <-. exists p0, t0, n, p.
        split; [done|]. split; [by exists d|].
        rewrite Hold by done. rewrite Hun2.
        rewrite dict_get_set_eq. by rewrite Nat.add_0_r.
      - destruct (Hnew i sq' Hi) as (p0' & t0' & n' & p' & Hg' & Hr' & Hg'').
        exists p0', t0', n', p'. split; [|split; [done|]].
        + rewrite Hun2 in Hg'.
          rewrite dict_get_set_ne in Hg'; [done|].
          intros ->. apply Hsq. by eapply list_elem_of_lookup_2.
        + by rewrite Hg'', Nat.add_succ_r. }
    split.
    { intros sq' [Hne Hnin]%not_elem_of_cons. rewrite Hold by done.
      rewrite Hun2. by rewrite dict_get_set_ne. }
    rewrite Htot, Hto, Hfa.
    cbn [length]. split; [lia|]. split; [lia|]. split; [done|].
    unfold window_after_timeouts in *.
    change (cwnd c2) with 1 in Hwin.
    change (ssthresh c2) with (halved c) in Hwin.
    change (state c2) with slow_start in Hwin.
    destruct seqs as [|sq' seqs].
    + destruct Hwin as (-> & -> & ->).
      split; [done|]. split; [done|]. apply halved_floor.
    + destruct Hwin as (-> & -> & Hss). split; [done|]. split; [done|].
      rewrite Hss. by destruct seqs.
Qed.

(** C3.  A poll at clock reading [now] classifies a key of
    [unacked_packets] as timed out iff [now - send_time] exceeds 0.5 s.
    The poll returns; for the timed-out segments, in dictionary order,
    it sends the datagram of the original payload, stores the clock
    reading taken at that send as the new [send_time] and increments
    [retransmit_count], and counts one timeout retransmission each;
    other entries are untouched.  Every reaction sets [ssthresh] to
    max(floor(cwnd/2), 2), [cwnd] to 1 and the phase to slow start: after
    one timed-out segment [ssthresh] is max(floor(cwnd/2), 2) of the
    [cwnd] before the poll, after several it is max(floor(1/2), 2) = 2. *)
Theorem timeout_retransmission file_data s now clock :
  sender_reachable file_data s ->
  let c := client s in
  let seqs := timed_out_packets now c in
  (forall sq,
     sq ∈ seqs
     <-> exists p t n,
           dict_get (unacked_packets c) sq = Some (p, t, n)
           /\ (TIMEOUT < now - t)%Q)
  /\ exists c',
       check_timeouts now clock c = (Returned, c')
       /\ (exists packets,
             sent c' = sent c ++ packets
             /\ Forall2 (retransmission_of c) seqs packets)
       /\ (forall i sq, seqs !! i = Some sq ->
             exists p0 t0 n p,
               dict_get (unacked_packets c) sq = Some (p0, t0, n)
               /\ retransmission_of c sq p
               /\ dict_get (unacked_packets c') sq
                  = Some (p, clock i, n + 1))
       /\ (forall sq, sq ∉ seqs ->
             dict_get (unacked_packets c') sq
             = dict_get (unacked_packets c) sq)
       /\ total_retransmissions c'
          = total_retransmissions c + Z.of_nat (length seqs)
       /\ timeout_retransmissions c'
          = timeout_retransmissions c + Z.of_nat (length seqs)
       /\ fast_retransmissions c' = fast_retransmissions c
       /\ window_after_timeouts seqs c c'.
Proof.
  intros Hs c seqs.
  pose proof (sender_run_inv _ _ _ Hs) as (_ & Hnd & Hent & _). fold c in Hnd, Hent.
  split; [intros sq; by apply timed_out_packets_spec|].
  destruct (retransmit_all_spec clock seqs 0 c) as
    (c' & Hrun & _ & Hsent & Hnew & Hrest).
  - by apply timed_out_packets_NoDup.
  - intros sq (p0 & t0 & n & Hg & _)%timed_out_packets_spec; [|done].
    destruct (Hent _ _ _ _ Hg) as (d & Hd & Hp).
    exists p0, t0, n, p0. split; [done|]. by exists d.
  - exists c'. split; [done|]. split; [done|]. split; [|done].
    intros i sq Hi. by apply Hnew.
Qed.

(** ** Sender: the in-flight count *)

Lemma contig_lookup_offset off cs i s d :
  contig off cs -> cs !! i = Some (s, d) -> s = end_offset off (take i cs).
Proof.
  revert off i. induction cs as [|[s0 d0] cs IH]; intros off i Hc Hi;
    [done|].
  destruct Hc as (-> & _ & Hc). destruct i as [|i]; simpl in Hi.
  - injection Hi as -> ->. unfold end_offset. simpl. lia.
  - rewrite (IH _ _ Hc Hi). unfold end_offset. simpl. lia.
Qed.

Lemma in_flight_spec c seq_num :
  in_flight c seq_num = true
  <-> exists d, find_chunk (chunks c) seq_num = Some d /\ d <> []
                /\ last_acked_seq c + 1 < seq_num + Z.of_nat (length d).
Proof.
  unfold in_flight. destruct (find_chunk (chunks c) seq_num) as [d|].
  - rewrite andb_true_iff, !bool_decide_eq_true. split.
    + intros [Hne Hle]. exists d. split; [done|]. split; [|lia].
      intros ->. done.
    + intros (d' & [= <-] & Hne & Hle). split; [|lia].
      destruct d; [done|]. simpl. lia.
  - split; [done|]. by intros (? & ? & _).
Qed.

Lemma in_flight_count_all c :
  Forall (fun seq_num => in_flight c seq_num = true)
    (dict_keys (unacked_packets c)) ->
  in_flight_count c = length (unacked_packets c).
Proof.
  intros Hall. unfold in_flight_count.
  by rewrite filter_all, dict_keys_length.
Qed.

Lemma in_flight_count_le c :
  (in_flight_count c <= length (unacked_packets c))%nat.
Proof.
  unfold in_flight_count. rewrite <- dict_keys_length. apply length_filter.
Qed.

Lemma retransmit_all_keys clock seqs k c :
  (forall sq, sq ∈ seqs -> is_Some (dict_get (unacked_packets c) sq)) ->
  let c' := (retransmit_all clock k seqs c).2 in
  dict_keys (unacked_packets c') = dict_keys (unacked_packets c)
  /\ chunks c' = chunks c
  /\ last_acked_seq c' = last_acked_seq c
  /\ last_ack_received c' = last_ack_received c.
Proof.
  revert k c. induction seqs as [|sq seqs IH]; intros k c Hin; [done|].
  cbv zeta. cbn [retransmit_all].
  destruct (find_chunk (chunks c) sq) as [d|];
    [|apply IH; intros ??; apply Hin; by right].
  set (c1 := set_state _ _). unfold send_packet.
  destruct (create_packet sq d) as [p|]; [|done].
  change (dict_get (unacked_packets (sendto p c1)) sq)
    with (dict_get (unacked_packets c) sq).
  destruct (Hin sq ltac:(by left)) as [[[p0 t0] n0] Hg]. rewrite Hg.
  set (c2 := count_timeout_retransmission _).
  assert (dict_keys (unacked_packets c2) = dict_keys (unacked_packets c))
    as Hk2.
  { subst c2 c1. client_simpl. apply dict_keys_set_old. by rewrite Hg. }
  destruct (IH (S k) c2) as (Hk & Hch & Hla & Hlar).
  - intros sq' Hsq'. apply dict_key_get. rewrite Hk2.
    destruct (Hin sq' ltac:(by right)) as [v Hv].
    by eapply dict_get_Some_key.
  - by rewrite Hk, Hk2, Hch, Hla, Hlar.
Qed.

Lemma sent_offset_nonneg s : 0 <= sent_offset s.
Proof. unfold sent_offset. lia. Qed.

Lemma window_inv_step file_data s s' :
  client_inv file_data (client s) -> window_inv s ->
  sender_step acks_within_sent s s' -> window_inv s'.
Proof.
  intros Hinv [Hlar Hall] Hstep.
  pose proof (contig_read_file file_data) as Hc.
  destruct Hstep as [c i t sq d c' _ Hi Hsend|c i t a o c' Ha Hok Hack
                    |c i now clock o c' Hto];
    unfold window_inv; simpl in *.
  - (* the send loop *)
    destruct Hinv as (Hch & _ & _ & _ & _ & _ & Hla).
    rewrite Hch in Hi.
    pose proof (find_chunk_lookup _ _ _ _ _ Hc Hi) as Hd.
    pose proof (contig_lookup_offset _ _ _ _ _ Hc Hi) as Hsq.
    destruct (contig_elem _ _ _ _ Hc (list_elem_of_lookup_2 _ _ _ Hi))
      as (_ & _ & Hne).
    rewrite <- Hch in Hd, Hi, Hsq.
    assert (sent_offset {| client := c; chunk_index := i |} = sq) as Hoff.
    { rewrite Hsq. unfold sent_offset, end_offset. simpl. lia. }
    assert (chunks c' = chunks c /\ last_acked_seq c' = last_acked_seq c
            /\ last_ack_received c' = last_ack_received c
            /\ (forall x, x ∈ dict_keys (unacked_packets c') ->
                   x ∈ dict_keys (unacked_packets c) \/ x = sq))
      as (Hch' & Hla' & Hlar' & Hkeys).
    { unfold send_packet in Hsend.
      destruct (create_packet sq d) as [p|]; [|done]. client_simpl.
      destruct (dict_get (unacked_packets c) sq) as [[[p0 t0] n0]|] eqn:Hg;
        injection Hsend as <-; client_simpl.
      - do 3 (split; [done|]). intros x.
        rewrite dict_keys_set_old by (by rewrite Hg). auto.
      - do 3 (split; [done|]). intros x.
        rewrite dict_keys_set_new by done.
        rewrite elem_of_app, list_elem_of_singleton. auto. }
    split.
    + rewrite Hlar'. etrans; [exact Hlar|].
      unfold sent_offset. simpl. rewrite Hch'.
      rewrite (take_S_r _ _ _ Hi), sum_list_with_app. lia.
    + apply Forall_forall. intros x [Hx| ->]%Hkeys.
      * pose proof (proj1 (Forall_forall _ _) Hall x Hx) as Hfl.
        apply in_flight_spec in Hfl as (d' & ? & ? & ?).
        apply in_flight_spec. exists d'. by rewrite Hch', Hla'.
      * apply in_flight_spec. exists d. rewrite Hch', Hla', Hla.
        split; [done|]. split; [done|].
        pose proof (sent_offset_nonneg {| client := c; chunk_index := i |}).
        destruct d; [done|]. simpl in *. lia.
  - (* an ACK *)
    unfold acks_within_sent in Hok.
    change (sent_offset {| client := c'; chunk_index := i |})
      with (Z.of_nat (sum_list_with (fun c0 : segment => length c0.2)
                        (take i (chunks c')))).
    destruct Hinv as (Hch & Hnd & _ & _ & _ & _ & Hla).
    destruct (decide (a = last_ack_received c)) as [Heq|Hne].
    + (* duplicate *)
      unfold handle_ack in Hack. rewrite decide_True in Hack by done.
      assert (chunks c' = chunks c /\ last_acked_seq c' = last_acked_seq c
              /\ last_ack_received c' = last_ack_received c
              /\ (forall x, x ∈ dict_keys (unacked_packets c') ->
                     x ∈ dict_keys (unacked_packets c)
                     \/ x = a /\ is_Some (find_chunk (chunks c) a)))
        as (Hch' & Hla' & Hlar' & Hkeys).
      { destruct (decide _) in Hack;
          [|injection Hack as <- <-; client_simpl; auto].
        unfold fast_retransmit in Hack. client_simpl.
        destruct (find_chunk (chunks c) a) as [d|] eqn:Hd;
          [|injection Hack as <- <-; client_simpl; auto].
        destruct (create_packet a d) as [p|];
          [|injection Hack as <- <-; client_simpl; auto].
        injection Hack as <- <-. client_simpl.
        do 3 (split; [done|]). intros x Hx.
        destruct (dict_get (unacked_packets c) a) as [[[p0 t0] n0]|] eqn:Hg.
        - rewrite dict_keys_set_old in Hx by (by rewrite Hg). auto.
        - rewrite dict_keys_set_new in Hx by done.
          apply elem_of_app in Hx as [Hx| ->%list_elem_of_singleton];
            eauto. }
      split.
      * rewrite Hlar', Hch'. exact Hlar.
      * apply Forall_forall. intros x [Hx|[-> [d Hd]]]%Hkeys.
        -- pose proof (proj1 (Forall_forall _ _) Hall x Hx) as Hfl.
           apply in_flight_spec in Hfl as (d' & ? & ? & ?).
           apply in_flight_spec. exists d'. by rewrite Hch', Hla'.
        -- apply in_flight_spec. exists d. rewrite Hch', Hla', Hla.
           split; [done|].
           pose proof (find_chunk_elem _ _ _ Hd) as Hin.
           rewrite Hch in Hin.
           destruct (contig_elem _ _ _ _ Hc Hin) as (_ & _ & Hnil).
           split; [done|]. destruct d; [done|]. simpl. lia.
    + destruct (Z.lt_ge_cases (last_ack_received c) a) as [Hnew|Hold].
      * (* new *)
        rewrite handle_ack_new in Hack by done.
        set (c1 := set_last_acked_seq _ _) in Hack.
        set (n := Z.of_nat _) in Hack.
        destruct (grow_window_frame n c1)
          as (Hch' & _ & Hla' & Hun' & Hlar' & _).
        rewrite Hack in *. simpl in Hch', Hla', Hun', Hlar'.
        split; [rewrite Hlar', Hch'; exact Hok|].
        rewrite Hun', dict_keys_pop_all by done.
        apply Forall_forall.
        intros x [Hnot Hx]%list_elem_of_filter.
        pose proof (proj1 (Forall_forall _ _) Hall x Hx) as Hfl.
        apply in_flight_spec in Hfl as (d' & Hd' & Hnil & Hgt).
        apply in_flight_spec. exists d'. rewrite Hch', Hla'.
        split; [done|]. split; [done|].
        assert (~ x + Z.of_nat (length d') <= a); [|lia].
        intros Hle. apply Hnot. unfold acked_packets.
        apply list_elem_of_filter. split; [|done].
        apply covered_spec. eauto.
      * unfold handle_ack in Hack. rewrite decide_False in Hack by done.
        rewrite bool_decide_eq_false_2 in Hack by lia.
        injection Hack as <- <-. by split.
  - (* a poll *)
    destruct Hinv as (Hch & Hnd & _).
    unfold check_timeouts in Hto.
    destruct (retransmit_all_keys clock (timed_out_packets now c) 0 c)
      as (Hk & Hch' & Hla' & Hlar').
    { intros sq (p & t & n & Hg & _)%timed_out_packets_spec; [|done].
      by rewrite Hg. }
    rewrite Hto in *. simpl in Hk, Hch', Hla', Hlar'.
    split.
    + unfold sent_offset in *. simpl in *. by rewrite Hlar', Hch'.
    + rewrite Hk. eapply Forall_impl; [exact Hall|]. intros x Hfl.
      apply in_flight_spec in Hfl as (d' & ? & ? & ?).
      apply in_flight_spec. exists d'. by rewrite Hch', Hla'.
Qed.

Lemma sender_within_sent_inv file_data s :
  sender_reachable_within_sent file_data s ->
  client_inv file_data (client s) /\ window_inv s.
Proof.
  induction 1 as [|s s' Hrun [IHc IHw] Hstep].
  - split; [apply client_inv_init|]. split; [|by constructor].
    unfold sent_offset. simpl. lia.
  - split; [by eapply sender_step_inv|by eapply window_inv_step].
Qed.

(** C5, as the code has it.  While no ACK acknowledges a byte beyond
    the segments that the send loop has transmitted, every entry of
    [unacked_packets] passes the filter of [can_send_more]: the
    in-flight count is the number of entries, and the admission test is
    [len(unacked_packets) < int(cwnd)].  (Whatever ACKs arrive, the
    count is at most the number of entries.) *)
Theorem in_flight_count_is_unacked_size file_data s :
  sender_reachable_within_sent file_data s ->
  let c := client s in
  in_flight_count c = length (unacked_packets c)
  /\ (can_send_more c = true
      <-> Z.of_nat (length (unacked_packets c)) < cwnd c).
Proof.
  intros [_ [_ Hall]]%sender_within_sent_inv c.
  pose proof (in_flight_count_all c Hall) as Hcount.
  split; [done|]. unfold can_send_more.
  by rewrite bool_decide_eq_true, Hcount.
Qed.

Lemma run_c1_reachable :
  sender_reachable three_segment_file {| client := run_c1; chunk_index := 1 |}.
Proof.
  eapply run_step; [apply run_init|].
  apply (step_send _ _ 0%nat 0%Q 0 full_payload run_c1); by vm_compute.
Qed.

Lemma run_c2_reachable :
  sender_reachable three_segment_file {| client := run_c2; chunk_index := 1 |}.
Proof.
  eapply run_step; [apply run_c1_reachable|].
  apply (step_ack _ run_c1 1%nat 0%Q 1024 Returned run_c2);
    [lia|done|by vm_compute].
Qed.

Lemma run_c4_reachable :
  sender_reachable three_segment_file {| client := run_c4; chunk_index := 1 |}.
Proof.
  eapply (run_step _ _ {| client := run_c3; chunk_index := 1 |}).
  - eapply run_step; [apply run_c2_reachable|].
    apply (step_ack _ run_c2 1%nat 0%Q 1024 Returned run_c3);
      [lia|done|by vm_compute].
  - apply (step_ack _ run_c3 1%nat 0%Q 1024 Returned run_c4);
      [lia|done|by vm_compute].
Qed.

Lemma run_c7_reachable :
  sender_reachable three_segment_file {| client := run_c7; chunk_index := 2 |}.
Proof.
  eapply (run_step _ _ {| client := run_c6; chunk_index := 1 |}).
  - eapply (run_step _ _ {| client := run_c5; chunk_index := 1 |}).
    + eapply run_step; [apply run_c4_reachable|].
      apply (step_ack _ run_c4 1%nat 0%Q 1024 Returned run_c5);
        [lia|done|by vm_compute].
    + apply (step_ack _ run_c5 1%nat 0%Q 2048 Returned run_c6);
        [lia|done|by vm_compute].
  - apply (step_send _ run_c6 1%nat 0%Q 1024 full_payload run_c7);
      by vm_compute.
Qed.

Lemma run_c8_reachable :
  sender_reachable three_segment_file {| client := run_c8; chunk_index := 2 |}.
Proof.
  eapply run_step; [apply run_c7_reachable|].
  apply (step_timeouts _ run_c7 2%nat 1%Q (fun _ => 1%Q) Returned run_c8).
  by vm_compute.
Qed.

(** C5, against the claim as stated.  At the end of the run above
    segment 1024 is in [unacked_packets], but its last byte is already
    acknowledged, so the filter of [can_send_more] leaves it out: the
    in-flight count is 0 with one entry in the dictionary, and with
    [cwnd = 1] the sender admits one more segment although
    [len(unacked_packets) < int(cwnd)] is false. *)
Lemma stale_send_not_in_flight :
  sender_reachable three_segment_file {| client := run_c8; chunk_index := 2 |}
  /\ dict_keys (unacked_packets run_c8) = [1024]
  /\ last_acked_seq run_c8 = 2047
  /\ in_flight_count run_c8 = 0%nat
  /\ length (unacked_packets run_c8) = 1%nat
  /\ cwnd run_c8 = 1
  /\ can_send_more run_c8 = true
  /\ ~ Z.of_nat (length (unacked_packets run_c8)) < cwnd run_c8.
Proof.
  split; [apply run_c8_reachable|].
  by vm_compute.
Qed.

Lemma dup_c4_reachable :
  sender_reachable small_file {| client := dup_c4; chunk_index := 1 |}.
Proof.
  eapply (run_step _ _ {| client := dup_c3; chunk_index := 1 |}).
  - eapply (run_step _ _ {| client := dup_c2; chunk_index := 1 |}).
    + eapply (run_step _ _ {| client := dup_c1; chunk_index := 1 |}).
      * eapply run_step; [apply run_init|].
        apply (step_send _ _ 0%nat 0%Q 0 small_file dup_c1); by vm_compute.
      * apply (step_ack _ dup_c1 1%nat 0%Q 3 Returned dup_c2);
          [lia|done|by vm_compute].
    + apply (step_ack _ dup_c2 1%nat 0%Q 3 Returned dup_c3);
        [lia|done|by vm_compute].
  - apply (step_ack _ dup_c3 1%nat 0%Q 3 Returned dup_c4);
      [lia|done|by vm_compute].
Qed.

(** C1, against the claim as stated.  The third duplicate of the final
    ACK of a one-segment transfer brings [duplicate_ack_count] to 3, but
    no segment starts at the acknowledged offset: nothing is sent,
    [ssthresh], [cwnd] and the phase keep their values, and the count
    stays at 3 instead of going back to 0. *)
Lemma third_duplicate_of_final_ack :
  sender_reachable small_file {| client := dup_c4; chunk_index := 1 |}
  /\ last_ack_received dup_c4 = 3
  /\ duplicate_ack_count dup_c4 = 2
  /\ find_chunk (chunks dup_c4) 3 = None
  /\ handle_ack 0 3 dup_c4 = (Returned, set_duplicate_ack_count 3 dup_c4)
  /\ (let c' := (handle_ack 0 3 dup_c4).2 in
      duplicate_ack_count c' = 3
      /\ sent c' = sent dup_c4
      /\ cwnd dup_c4 = 2 /\ cwnd c' = 2
      /\ ssthresh c' = 64 /\ Z.max (cwnd dup_c4 / 2) 2 = 2
      /\ state c' = slow_start).
Proof.
  split; [apply dup_c4_reachable|].
  by vm_compute.
Qed.

(** ** The theorems at concrete inputs *)

Lemma run_c5_within_sent :
  sender_reachable_within_sent three_segment_file
    {| client := run_c5; chunk_index := 1 |}.
Proof.
  eapply (run_step _ _ {| client := run_c4; chunk_index := 1 |}).
  - eapply (run_step _ _ {| client := run_c3; chunk_index := 1 |}).
    + eapply (run_step _ _ {| client := run_c2; chunk_index := 1 |}).
      * eapply (run_step _ _ {| client := run_c1; chunk_index := 1 |}).
        -- eapply run_step; [apply run_init|].
           apply (step_send _ _ 0%nat 0%Q 0 full_payload run_c1);
             by vm_compute.
        -- apply (step_ack _ run_c1 1%nat 0%Q 1024 Returned run_c2);
             [lia|by vm_compute|by vm_compute].
      * apply (step_ack _ run_c2 1%nat 0%Q 1024 Returned run_c3);
          [lia|by vm_compute|by vm_compute].
    + apply (step_ack _ run_c3 1%nat 0%Q 1024 Returned run_c4);
        [lia|by vm_compute|by vm_compute].
  - apply (step_ack _ run_c4 1%nat 0%Q 1024 Returned run_c5);
      [lia|by vm_compute|by vm_compute].
Qed.

(** The third duplicate of ACK 1024 in the run of [run_c4]: segment 1024
    exists, so it is sent and the window is halved. *)
Lemma duplicate_ack_fast_retransmit_witness :
  1024 = last_ack_received run_c4
  /\ duplicate_ack_count run_c4 + 1 = 3
  /\ exists packet c',
       handle_ack 0 1024 run_c4 = (Returned, c')
       /\ sent c' = sent run_c4 ++ [packet]
       /\ ssthresh c' = Z.max (cwnd run_c4 / 2) 2
       /\ cwnd c' = ssthresh c' + 3
       /\ state c' = congestion_avoidance
       /\ duplicate_ack_count c' = 0.
Proof.
  assert (H1 : 1024 = last_ack_received run_c4) by (by vm_compute).
  assert (H2 : duplicate_ack_count run_c4 + 1 = 3) by (by vm_compute).
  assert (H3 : find_chunk (chunks run_c4) 1024 = Some full_payload)
    by (by vm_compute).
  split; [exact H1|]. split; [exact H2|].
  destruct (duplicate_ack_fast_retransmit 0 1024 run_c4 H1 ltac:(lia))
    as (_ & _ & Hfast).
  destruct (Hfast H2 full_payload H3)
    as (packet & c' & _ & _ & Hrun & Hsent & Hss & Hcw & Hst & Hdup & _).
  exists packet, c'. repeat split; assumption.
Defined.

(** The first ACK of the run: one segment acknowledged in slow start. *)
Lemma new_ack_window_growth_witness :
  NoDup (dict_keys (unacked_packets run_c1))
  /\ last_ack_received run_c1 < 1024
  /\ state run_c1 = slow_start
  /\ cwnd (handle_ack 0 1024 run_c1).2
     = cwnd run_c1 + Z.of_nat (length (acked_packets run_c1 1024)).
Proof.
  assert (H1 : NoDup (dict_keys (unacked_packets run_c1)))
    by (vm_compute; apply NoDup_singleton).
  assert (H2 : last_ack_received run_c1 < 1024) by (by vm_compute).
  assert (H3 : state run_c1 = slow_start) by (by vm_compute).
  split; [exact H1|]. split; [exact H2|]. split; [exact H3|].
  destruct (new_ack_window_growth 0 1024 run_c1 H1 H2)
    as (_ & _ & _ & _ & _ & Hslow & _).
  exact (proj1 (proj2 (Hslow H3))).
Defined.

(** The poll that ends the run of [run_c8]. *)
Lemma timeout_retransmission_witness :
  exists c',
    check_timeouts 1 (fun _ => 1%Q) run_c7 = (Returned, c')
    /\ window_after_timeouts (timed_out_packets 1 run_c7) run_c7 c'.
Proof.
  destruct (timeout_retransmission three_segment_file
              {| client := run_c7; chunk_index := 2 |} 1 (fun _ => 1%Q)
              run_c7_reachable)
    as (_ & c' & Hrun & _ & _ & _ & _ & _ & _ & Hwin).
  exists c'. split; assumption.
Defined.

(** Two full segments, delivered in order and, a second time, out of
    order with a duplicate. *)
Lemma reassembly_order_independent_witness :
  let file_data := replicate 2048 x00 in
  let a1 : list (bytes * address * Q) :=
    [(first_packet, some_addr, 0%Q); (second_packet, some_addr, 0%Q)] in
  let a2 : list (bytes * address * Q) :=
    [(second_packet, some_addr, 0%Q); (first_packet, some_addr, 0%Q);
     (second_packet, some_addr, 0%Q)] in
  output_buffer (receive_all a1 (server_init 0))
  = output_buffer (receive_all a2 (server_init 0))
  /\ concat (output_buffer (receive_all a1 (server_init 0))) = file_data
  /\ expected_seq (receive_all a1 (server_init 0))
     = expected_seq (receive_all a2 (server_init 0))
  /\ expected_seq (receive_all a1 (server_init 0))
     = Z.of_nat (length file_data).
Proof.
  intros file_data a1 a2.
  apply (reassembly_order_independent file_data
           [first_packet; second_packet] a1 a2).
  - assert (read_file_chunks file_data
            = [(0, full_payload); (1024, full_payload)]) as ->
      by (by vm_compute).
    repeat constructor; by vm_compute.
  - done.
  - intros p. change (a2.*1.*1)
      with [second_packet; first_packet; second_packet].
    rewrite !elem_of_cons. tauto.
  - repeat constructor; by vm_compute.
  - repeat constructor; by vm_compute.
Defined.

(** Segment 1024 in flight after the fast retransmission. *)
Lemma in_flight_count_is_unacked_size_witness :
  in_flight_count run_c5 = length (unacked_packets run_c5)
  /\ (can_send_more run_c5 = true
      <-> Z.of_nat (length (unacked_packets run_c5)) < cwnd run_c5).
Proof.
  exact (in_flight_count_is_unacked_size three_segment_file
           {| client := run_c5; chunk_index := 1 |} run_c5_within_sent).
Defined.

(** A second copy of the first segment, after the first one is
    delivered. *)
Lemma duplicate_packet_immediate_ack_witness :
  let s := after_segments some_addr 1 in
  let s' := (process_packet first_packet some_addr 0 s).2 in
  accepted s first_packet 0 0 full_payload
  /\ 0 < expected_seq s < 2 ^ 32
  /\ receiver_state s' = receiver_state s
  /\ exists ack_packet,
       (process_packet first_packet some_addr 0 s).1 = Returned
       /\ unpack_u32 ack_packet = Some (expected_seq s)
       /\ outbox s' = outbox s ++ [(ack_packet, some_addr)].
Proof.
  intros s s'.
  assert (Hacc : accepted s first_packet 0 0 full_payload)
    by (apply accepted_create; [done|apply first_packet_created]).
  assert (Hlt : 0 < expected_seq s < 2 ^ 32) by (by vm_compute).
  destruct (duplicate_packet_immediate_ack 0 s first_packet some_addr 0 0
              full_payload
              (after_segments_reachable some_addr 1 ltac:(lia) ltac:(lia))
              Hacc (proj1 Hlt)) as (Hframe & _ & _ & _ & Hack).
  split; [exact Hacc|]. split; [exact Hlt|]. split; [exact Hframe|].
  exact (Hack (proj2 Hlt)).
Defined.

Lemma window_bounds_witness :
  1 <= cwnd run_c8 /\ 2 <= ssthresh run_c8.
Proof.
  exact (proj1 (window_bounds three_segment_file
                  {| client := run_c8; chunk_index := 2 |}
                  run_c8_reachable)).
Defined.

Lemma retransmission_counters_witness :
  total_retransmissions run_c8
  = timeout_retransmissions run_c8 + fast_retransmissions run_c8.
Proof.
  exact (proj1 (retransmission_counters three_segment_file
                  {| client := run_c8; chunk_index := 2 |}
                  run_c8_reachable)).
Defined.

Lemma expected_seq_counts_delivered_witness :
  expected_seq (after_segments some_addr 1)
  = delivered_bytes (after_segments some_addr 1).
Proof.
  exact (proj1 (expected_seq_counts_delivered 0 (after_segments some_addr 1)
                  (after_segments_reachable some_addr 1
                     ltac:(lia) ltac:(lia)))).
Defined.

(** ** Wire format: what [create_packet] builds and the receiver reads *)

Lemma create_packet_length seq_num data p :
  create_packet seq_num data = Some p ->
  length p = (SEQ_NUM_SIZE + CHECKSUM_SIZE + length data)%nat.
Proof.
  unfold create_packet.
  destruct (pack_u32 seq_num) as [hdr|] eqn:Hhdr; [|done]. simpl.
  destruct (pack_u16 (calculate_checksum data)) as [ck|] eqn:Hck; [|done].
  simpl. intros [= <-]. rewrite !length_app.
  rewrite (pack_u32_length _ _ Hhdr), (pack_u16_length _ _ Hck).
  unfold SEQ_NUM_SIZE, CHECKSUM_SIZE. lia.
Qed.

(** X1.  [create_packet] raises [struct.error] exactly when the sequence
    number does not fit four unsigned bytes (the checksum always fits
    two); otherwise the datagram is the payload behind six header
    bytes. *)
Theorem create_packet_outcome (seq_num : Z) (data : bytes) :
  match create_packet seq_num data with
  | Some packet =>
      0 <= seq_num < 2 ^ 32
      /\ length packet = (SEQ_NUM_SIZE + CHECKSUM_SIZE + length data)%nat
      /\ drop (SEQ_NUM_SIZE + CHECKSUM_SIZE) packet = data
  | None => ~ (0 <= seq_num < 2 ^ 32)
  end.
Proof.
  destruct (create_packet seq_num data) as [p|] eqn:Hp.
  - split; [exact (create_packet_range _ _ _ Hp)|].
    split; [exact (create_packet_length _ _ _ Hp)|].
    apply packet_fields_create in Hp. unfold packet_fields in Hp.
    destruct (length p <? _)%nat; [done|].
    destruct (unpack_u32 _); [|done]. simpl in Hp.
    destruct (unpack_u16 _); [|done]. simpl in Hp. by injection Hp.
  - intros Hr. destruct (create_packet_Some seq_num data Hr)
      as (? & ? & _ & _ & Hs). congruence.
Qed.

Lemma store_new_counters seq_num data s :
  total_packets_received (store_new seq_num data s) = total_packets_received s
  /\ total_packets_dropped (store_new seq_num data s)
     = total_packets_dropped s
  /\ total_checksum_errors (store_new seq_num data s)
     = total_checksum_errors s.
Proof. unfold store_new. simpl. by destruct (ack_timer_active s). Qed.

(** Counters and latch after a call that reaches the sequence-number
    test. *)
Lemma process_packet_accepted_counters s p addr r seq_num data :
  accepted s p r seq_num data ->
  let s' := (process_packet p addr r s).2 in
  total_packets_received s' = total_packets_received s + 1
  /\ total_packets_dropped s' = total_packets_dropped s
  /\ total_checksum_errors s' = total_checksum_errors s
  /\ client_addr s' = Some (default addr (client_addr s)).
Proof.
  intros Hacc. cbv zeta.
  rewrite (process_packet_accepted _ _ addr _ _ _ Hacc). cbv zeta.
  destruct (latched_counters addr s) as (Hrc & Hdr & Hce).
  destruct (latched_frame addr s) as (_ & _ & _ & _ & _ & _ & _ & Hca).
  case_bool_decide.
  - destruct (send_ack_counters addr (expected_seq (latched addr s))
                (latched addr s)) as (-> & -> & ->).
    do 3 (split; [done|]).
    destruct (send_ack_cases addr (expected_seq (latched addr s))
                (latched addr s))
      as [(pk & _ & _ & _ & Hst & _)|[_ ->]]; [|done].
    unfold receiver_state in Hst. injection Hst as _ _ _ -> _ _. done.
  - cbn [snd].
    match goal with |- context [deliver_loop ?n ?x] =>
      destruct (deliver_loop_frame n x)
        as (_ & _ & _ & -> & -> & -> & -> & _) end.
    destruct (received_data (latched addr s) !! seq_num); [done|].
    destruct (store_new_counters seq_num data (latched addr s))
      as (-> & -> & ->).
    destruct (store_new_frame seq_num data (latched addr s))
      as (_ & _ & _ & -> & _). done.
Qed.

(** X2.  Round trip of a data datagram.  Whatever [create_packet] builds is
    read back by [process_packet] as the same sequence number and the
    same payload, and its checksum verifies: a datagram that passes the
    loss injector is counted as received, never as a checksum error, and
    latches [client_addr] if none was latched. *)
Theorem created_packet_accepted seq_num data p addr r s :
  create_packet seq_num data = Some p ->
  Qltb r (loss_prob s) = false ->
  let s' := (process_packet p addr r s).2 in
  packet_fields p = Some (seq_num, calculate_checksum data, data)
  /\ verify_checksum data (calculate_checksum data) = true
  /\ accepted s p r seq_num data
  /\ total_packets_received s' = total_packets_received s + 1
  /\ total_packets_dropped s' = total_packets_dropped s
  /\ total_checksum_errors s' = total_checksum_errors s
  /\ client_addr s' = Some (default addr (client_addr s)).
Proof.
  intros Hp Hr. cbv zeta.
  assert (Hv : verify_checksum data (calculate_checksum data) = true)
    by (unfold verify_checksum; by rewrite bool_decide_eq_true_2).
  assert (Hacc : accepted s p r seq_num data).
  { exists (calculate_checksum data).
    split; [exact (packet_fields_create _ _ _ Hp)|done]. }
  split; [exact (packet_fields_create _ _ _ Hp)|]. split; [done|].
  split; [done|]. exact (process_packet_accepted_counters _ _ addr _ _ _ Hacc).
Qed.

Lemma sum_bytes_perm data data' :
  data ≡ₚ data' -> sum_bytes data = sum_bytes data'.
Proof.
  unfold sum_bytes.
  induction 1 as [|x l l' _ IH|x y l|l l' l'' _ IH1 _ IH2]; simpl;
    [done|by rewrite IH|lia|congruence].
Qed.

Lemma calculate_checksum_perm data data' :
  data ≡ₚ data' -> calculate_checksum data = calculate_checksum data'.
Proof.
  intros Hp. unfold calculate_checksum.
  rewrite (sum_bytes_perm _ _ Hp).
  pose proof (Permutation_length Hp) as Hl.
  by destruct data, data'.
Qed.

(** X3.  The checksum is a sum, so it does not see the order of the payload
    bytes: if the payload of a datagram is rearranged in transit, the
    receiver's check still passes and the rearranged payload is taken
    for the segment. *)
Theorem checksum_ignores_order seq_num data data' p r s :
  create_packet seq_num data = Some p ->
  data ≡ₚ data' ->
  Qltb r (loss_prob s) = false ->
  calculate_checksum data' = calculate_checksum data
  /\ verify_checksum data' (calculate_checksum data) = true
  /\ accepted s (take (SEQ_NUM_SIZE + CHECKSUM_SIZE) p ++ data') r
       seq_num data'.
Proof.
  intros Hp Hperm Hr.
  pose proof (calculate_checksum_perm _ _ Hperm) as Hck.
  split; [done|]. split.
  { unfold verify_checksum. by rewrite bool_decide_eq_true_2. }
  destruct (create_packet_Some seq_num data (create_packet_range _ _ _ Hp))
    as (hdr & ck & Hhdr & Hpk & Hp1).
  rewrite Hp1 in Hp. injection Hp as <-.
  assert (create_packet seq_num data' = Some (hdr ++ ck ++ data')) as Hp'.
  { unfold create_packet. rewrite Hhdr. simpl. rewrite <- Hck, Hpk. done. }
  pose proof (pack_u32_length _ _ Hhdr) as Lh.
  pose proof (pack_u16_length _ _ Hpk) as Lc.
  assert (take (SEQ_NUM_SIZE + CHECKSUM_SIZE) (hdr ++ ck ++ data)
          = hdr ++ ck) as ->.
  { rewrite app_assoc. apply take_app_length'.
    rewrite length_app, Lh, Lc. done. }
  rewrite <- app_assoc.
  exists (calculate_checksum data').
  split; [by apply packet_fields_create|]. split; [done|].
  unfold verify_checksum. by rewrite bool_decide_eq_true_2.
Qed.

(** ** Wire format: the acknowledgement *)

(** X4.  Round trip of an acknowledgement.  When [send_ack] returns it has
    sent one datagram of exactly [ACK_SIZE] bytes to the address given,
    and an iteration of the sender's [receiver_thread] that receives
    this datagram calls [handle_ack] with the very number that was
    acknowledged. *)
Theorem ack_round_trip addr ack_num s s' :
  send_ack addr ack_num s = (Returned, s') ->
  exists ack_packet,
    outbox s' = outbox s ++ [(ack_packet, addr)]
    /\ length ack_packet = ACK_SIZE
    /\ forall now clock c,
         receiver_thread_iter (recv_data ack_packet) now clock c
         = match handle_ack now ack_num c with
           | (Returned, c') => (Continue, c')
           | (Raised, c') => receiver_thread_except c'
           end.
Proof.
  unfold send_ack. destruct (pack_u32 ack_num) as [pk|] eqn:Hpk; [|done].
  intros [= <-]. exists pk. split; [done|].
  pose proof (pack_u32_length _ _ Hpk) as Hl. split; [done|].
  intros now clock c. unfold receiver_thread_iter.
  rewrite Hl. simpl. by rewrite (unpack_pack_u32 _ _ Hpk).
Qed.

(** ** Segmenter: the scan of the segment table *)

(** X5.  The scan [for s, chunk_data in self.chunks: if s == seq] that
    [can_send_more], [handle_ack] and [check_timeouts] run over the
    table of [read_file] finds a payload exactly for the multiples of
    1024 below the file length, and the payload it finds is the slice of
    the file at that offset.  In particular it finds nothing at the
    file length, the value of the final ACK. *)
Theorem find_chunk_read_file (file_data : bytes) (seq_num : Z) :
  (forall d,
     find_chunk (read_file_chunks file_data) seq_num = Some d
     <-> exists k : nat,
           seq_num = 1024 * Z.of_nat k
           /\ (1024 * k < length file_data)%nat
           /\ d = slice file_data (1024 * k) (1024 * k + 1024))
  /\ find_chunk (read_file_chunks file_data) (Z.of_nat (length file_data))
     = None.
Proof.
  assert (Hiff : forall sq d,
    find_chunk (read_file_chunks file_data) sq = Some d
    <-> exists k : nat,
          sq = 1024 * Z.of_nat k
          /\ (1024 * k < length file_data)%nat
          /\ d = slice file_data (1024 * k) (1024 * k + 1024)).
  { intros sq d. split.
    - intros [k Hk]%find_chunk_elem%list_elem_of_lookup.
      apply read_file_chunks_lookup in Hk as (-> & -> & Hlt).
      unfold CHUNK_SIZE in *. exists k.
      replace (1024 * k)%nat with (k * 1024)%nat by lia.
      split; [lia|done].
    - intros (k & -> & Hlt & ->).
      assert (k < length (read_file_chunks file_data))%nat as Hk.
      { rewrite read_file_chunks_length.
        apply Nat.div_le_lower_bound; lia. }
      apply lookup_lt_is_Some in Hk as [[s d] Hk].
      pose proof (read_file_chunks_lookup _ _ _ _ Hk) as (Hs & Hd & _).
      unfold CHUNK_SIZE in *.
      pose proof (find_chunk_lookup _ _ _ _ _ (contig_read_file _) Hk) as Hf.
      replace (1024 * Z.of_nat k) with s by lia.
      replace (1024 * k)%nat with (k * 1024)%nat by lia.
      by rewrite <- Hd. }
  split; [apply Hiff|].
  destruct (find_chunk _ _) as [d|] eqn:Hd; [|done].
  apply Hiff in Hd as (k & Hk & Hlt & _). lia.
Qed.

(** ** Sender: what every operation leaves alone *)

Lemma send_packet_frame t seq_num d r c :
  let c' := (send_packet t seq_num d r c).2 in
  chunks c' = chunks c /\ cwnd c' = cwnd c /\ ssthresh c' = ssthresh c
  /\ state c' = state c /\ last_acked_seq c' = last_acked_seq c
  /\ last_ack_received c' = last_ack_received c
  /\ duplicate_ack_count c' = duplicate_ack_count c.
Proof.
  cbv zeta. unfold send_packet.
  destruct (create_packet seq_num d); [|done]. client_simpl.
  by destruct (dict_get (unacked_packets c) seq_num) as [[[? ?] ?]|],
    r.
Qed.

(** The datagram and the count of one call of [send_packet]. *)
Lemma send_packet_trace t seq_num d r c :
  match create_packet seq_num d with
  | None => send_packet t seq_num d r c = (Raised, c)
  | Some p =>
      exists c',
        send_packet t seq_num d r c = (Returned, c')
        /\ sent c' = sent c ++ [p]
        /\ total_retransmissions c'
           = total_retransmissions c
             + (if r then 1
                else match dict_get (unacked_packets c) seq_num with
                     | Some _ => 1
                     | None => 0
                     end)
  end.
Proof.
  unfold send_packet. destruct (create_packet seq_num d) as [p|]; [|done].
  client_simpl.
  destruct (dict_get (unacked_packets c) seq_num) as [[[? ?] ?]|], r;
    eexists; (split; [reflexivity|]); client_simpl; split; (done || lia).
Qed.

Lemma sender_progress_refl c : sender_progress c c [].
Proof.
  unfold sender_progress. rewrite app_nil_r.
  repeat split; (done || lia || by constructor).
Qed.

Lemma sender_progress_trans c1 c2 c3 new1 new2 :
  sender_progress c1 c2 new1 -> sender_progress c2 c3 new2 ->
  sender_progress c1 c3 (new1 ++ new2).
Proof.
  intros (Hch1 & ? & ? & Hs1 & Hn1) (Hch2 & ? & ? & Hs2 & Hn2).
  unfold sender_progress. rewrite Hch2, Hch1, Hs2, Hs1, app_assoc.
  repeat split; try (done || lia).
  apply Forall_app. split; [done|].
  eapply Forall_impl; [exact Hn2|]. intros p (seg & Hin & Hp).
  exists seg. by rewrite <- Hch1.
Qed.

Lemma send_packet_progress t seq_num d r c :
  (seq_num, d) ∈ chunks c ->
  exists new,
    sender_progress c (send_packet t seq_num d r c).2 new
    /\ (length new <= 1)%nat
    /\ ((send_packet t seq_num d r c).1 = Returned -> length new = 1%nat)
    /\ total_retransmissions c
       <= total_retransmissions (send_packet t seq_num d r c).2
       <= total_retransmissions c + Z.of_nat (length new)
    /\ (r = true ->
        total_retransmissions (send_packet t seq_num d r c).2
        = total_retransmissions c + Z.of_nat (length new)).
Proof.
  intros Hin. pose proof (send_packet_trace t seq_num d r c) as Htr.
  destruct (send_packet_frame t seq_num d r c)
    as (Hch & _ & _ & _ & Hla & Hlar & _).
  destruct (create_packet seq_num d) as [p|] eqn:Hp.
  - destruct Htr as (c' & Hrun & Hsent & Htot). rewrite Hrun in *.
    simpl in *. exists [p]. unfold sender_progress.
    rewrite Hch, Hla, Hlar, Hsent, Htot.
    split.
    { repeat split; try (done || lia). constructor; [|done].
      by exists (seq_num, d). }
    simpl. split; [lia|]. split; [done|].
    split; [|by intros ->].
    destruct r; [lia|]. by destruct (dict_get _ _); lia.
  - rewrite Htr. exists []. simpl.
    split; [apply sender_progress_refl|].
    split; [lia|]. split; [done|]. split; [lia|]. intros _. lia.
Qed.

Lemma fast_retransmit_progress t ack_num c :
  exists new,
    sender_progress c (fast_retransmit t ack_num c).2 new
    /\ total_retransmissions (fast_retransmit t ack_num c).2
       = total_retransmissions c + Z.of_nat (length new).
Proof.
  unfold fast_retransmit.
  destruct (find_chunk (chunks c) ack_num) as [d|] eqn:Hd.
  2: { exists []. split; [apply sender_progress_refl|simpl; lia]. }
  destruct (create_packet ack_num d) as [p|] eqn:Hp.
  2: { exists []. split; [apply sender_progress_refl|simpl; lia]. }
  exists [p]. client_simpl. unfold sender_progress. client_simpl.
  split; [|done].
  repeat split; try (done || lia). constructor; [|done].
  exists (ack_num, d). split; [by apply find_chunk_elem|done].
Qed.

Lemma handle_ack_progress t ack_num c :
  exists new,
    sender_progress c (handle_ack t ack_num c).2 new
    /\ total_retransmissions (handle_ack t ack_num c).2
       = total_retransmissions c + Z.of_nat (length new).
Proof.
  destruct (decide (ack_num = last_ack_received c)) as [Heq|Hne].
  - unfold handle_ack. rewrite decide_True by done.
    destruct (decide _).
    + exact (fast_retransmit_progress t ack_num
               (set_duplicate_ack_count (duplicate_ack_count c + 1) c)).
    + exists []. split; [exact (sender_progress_refl c)|simpl; lia].
  - destruct (Z.lt_ge_cases (last_ack_received c) ack_num) as [Hnew|Hold].
    + rewrite handle_ack_new by done.
      set (c1 := set_last_acked_seq _ _). set (k := Z.of_nat _).
      destruct (grow_window_frame k c1)
        as (Hch & _ & Hla & _ & Hlar & _ & Htot & _ & _ & Hsent).
      exists []. unfold sender_progress.
      rewrite Hch, Hla, Hlar, Htot, Hsent. subst c1. client_simpl.
      rewrite app_nil_r. simpl.
      repeat split; try (done || lia).
    + unfold handle_ack. rewrite decide_False by done.
      rewrite bool_decide_eq_false_2 by lia.
      exists []. split; [apply sender_progress_refl|simpl; lia].
Qed.

Lemma retransmit_all_progress clock seqs k c :
  exists new,
    sender_progress c (retransmit_all clock k seqs c).2 new
    /\ total_retransmissions (retransmit_all clock k seqs c).2
       = total_retransmissions c + Z.of_nat (length new).
Proof.
  revert k c. induction seqs as [|sq seqs IH]; intros k c.
  { exists []. split; [apply sender_progress_refl|simpl; lia]. }
  cbn [retransmit_all].
  destruct (find_chunk (chunks c) sq) as [d|] eqn:Hd; [|apply IH].
  set (c1 := set_state _ _).
  assert (sender_progress c c1 []) as H01.
  { unfold sender_progress. subst c1. client_simpl. rewrite app_nil_r.
    repeat split; try (done || lia). }
  destruct (send_packet_progress (clock k) sq d true c1)
    as (new1 & H12 & _ & _ & _ & Htot1).
  { by apply find_chunk_elem. }
  specialize (Htot1 eq_refl).
  change (total_retransmissions c1) with (total_retransmissions c) in Htot1.
  destruct (send_packet (clock k) sq d true c1) as [[] c2]; simpl in *.
  - destruct (IH (S k) c2) as (new2 & H23 & Htot2).
    exists (new1 ++ new2). split.
    + apply (sender_progress_trans c c1 _ [] (new1 ++ new2) H01).
      by eapply sender_progress_trans.
    + rewrite Htot2, Htot1, length_app. lia.
  - exists new1. split; [|done].
    apply (sender_progress_trans c c1 _ [] new1 H01 H12).
Qed.

(** One action of the sender, whatever it is. *)
Lemma sender_step_trace ack_ok s s' :
  sender_step ack_ok s s' ->
  exists new,
    sender_progress (client s) (client s') new
    /\ (chunk_index s <= chunk_index s' <= S (chunk_index s))%nat
    /\ total_retransmissions (client s)
       <= total_retransmissions (client s')
    /\ Z.of_nat (chunk_index s') + total_retransmissions (client s')
       >= Z.of_nat (chunk_index s) + total_retransmissions (client s)
          + Z.of_nat (length new)
    /\ total_retransmissions (client s')
       <= total_retransmissions (client s) + Z.of_nat (length new).
Proof.
  intros Hstep.
  destruct Hstep as [c i t sq d c' _ Hi Hsend|c i t a o c' Ha _ Hack
                    |c i now clock o c' Hto]; simpl.
  - destruct (send_packet_progress t sq d false c)
      as (new & Hpr & Hlen & _ & Htot & _).
    { by eapply list_elem_of_lookup_2. }
    rewrite Hsend in *. simpl in *. exists new.
    split; [done|]. split; [lia|]. split; [lia|]. split; lia.
  - destruct (handle_ack_progress t a c) as (new & Hpr & Htot).
    rewrite Hack in *. simpl in *. exists new.
    split; [done|]. split; [lia|]. split; [lia|]. split; lia.
  - destruct (retransmit_all_progress clock (timed_out_packets now c) 0 c)
      as (new & Hpr & Htot).
    unfold check_timeouts in Hto. rewrite Hto in *. simpl in *. exists new.
    split; [done|]. split; [lia|]. split; [lia|]. split; lia.
Qed.

(** ** Sender: nothing is taken back *)

(** X6.  No action of the sender (a send of the loop, an ACK, a poll)
    changes the segment table, lowers [last_ack_received] or
    [last_acked_seq], moves [chunk_index] back or by more than one,
    lowers the retransmission count, or touches what was already sent:
    the outbound trace only grows, and only by datagrams that
    [create_packet] builds from segments of the table. *)
Theorem sender_step_monotone ack_ok s s' :
  sender_step ack_ok s s' ->
  chunks (client s') = chunks (client s)
  /\ last_ack_received (client s) <= last_ack_received (client s')
  /\ last_acked_seq (client s) <= last_acked_seq (client s')
  /\ (chunk_index s <= chunk_index s' <= S (chunk_index s))%nat
  /\ total_retransmissions (client s) <= total_retransmissions (client s')
  /\ exists new,
       sent (client s') = sent (client s) ++ new
       /\ forall p, p ∈ new ->
            exists seq_num d,
              (seq_num, d) ∈ chunks (client s)
              /\ create_packet seq_num d = Some p.
Proof.
  intros Hstep.
  destruct (sender_step_trace _ _ _ Hstep)
    as (new & (Hch & Hlar & Hla & Hsent & Hnew) & Hidx & Htot & _).
  do 5 (split; [done|]). exists new. split; [done|].
  intros p Hp. apply (proj1 (Forall_forall _ _) Hnew) in Hp
    as ([sq d] & Hin & Hpk).
  by exists sq, d.
Qed.

(** ** Sender: the outbound trace *)

Lemma sent_inv_step ack_ok s s' :
  sent_inv s -> sender_step ack_ok s s' -> sent_inv s'.
Proof.
  intros (Hall & Hdone & Hcnt) Hstep.
  destruct (sender_step_trace _ _ _ Hstep)
    as (new & (Hch & _ & _ & Hsent & Hnew) & Hidx & Htot & Hlo & Hhi).
  unfold sent_inv. rewrite Hsent, Hch. split; [|split].
  - apply Forall_app. split.
    + eapply Forall_impl; [exact Hall|]. intros p (seg & ? & ?).
      exists seg. by rewrite Hch.
    + eapply Forall_impl; [exact Hnew|]. intros p (seg & ? & ?).
      exists seg. by rewrite Hch.
  - intros i seg Hi Hseg.
    destruct (decide (i < chunk_index s)%nat) as [Hold|Hnow].
    + destruct (Hdone i seg Hold Hseg) as (p & Hp & Hin).
      exists p. split; [done|]. apply elem_of_app. by left.
    + assert (i = chunk_index s) as -> by lia.
      destruct Hstep as [c j t sq d c' _ Hj Hsend|c j t a o c' _ _ _
                        |c j now clock o c' _]; simpl in *; try lia.
      rewrite Hj in Hseg. injection Hseg as <-.
      pose proof (send_packet_trace t sq d false c) as Htr.
      destruct (create_packet sq d) as [p|] eqn:Hp;
        [|rewrite Htr in Hsend; done].
      destruct Htr as (c0 & Hrun & Hs0 & _). rewrite Hrun in Hsend.
      injection Hsend as ->. exists p. split; [done|].
      rewrite <- Hsent, Hs0. apply elem_of_app. right. by left.
  - rewrite length_app. lia.
Qed.

Lemma sender_run_sent_inv ack_ok file_data s :
  sender_run ack_ok file_data s -> sent_inv s.
Proof.
  induction 1 as [|s s' _ IH Hstep]; [|by eapply sent_inv_step].
  unfold sent_inv. simpl. split; [by constructor|]. split; [|lia].
  intros i seg Hi. lia.
Qed.

(** X7.  In every state of a transfer, whatever ACKs arrive: each datagram
    the sender has put on the wire is the datagram [create_packet]
    builds for a segment of the table of [read_file], so the receiver
    reads it as that segment's offset and payload; and each segment the
    send loop has passed has been put on the wire. *)
Theorem sent_datagrams_are_segments file_data s :
  sender_reachable file_data s ->
  (forall p, p ∈ sent (client s) ->
     exists seq_num d,
       (seq_num, d) ∈ read_file_chunks file_data
       /\ create_packet seq_num d = Some p
       /\ packet_fields p = Some (seq_num, calculate_checksum d, d))
  /\ (forall i seq_num d,
        (i < chunk_index s)%nat ->
        read_file_chunks file_data !! i = Some (seq_num, d) ->
        exists p, create_packet seq_num d = Some p
                  /\ p ∈ sent (client s)).
Proof.
  intros Hs. destruct (sender_run_sent_inv _ _ _ Hs) as (Hall & Hdone & _).
  destruct (sender_run_inv _ _ _ Hs) as (Hch & _). split.
  - intros p Hp. apply (proj1 (Forall_forall _ _) Hall) in Hp
      as ([sq d] & Hin & Hpk).
    exists sq, d. rewrite <- Hch. split; [done|]. split; [done|].
    by apply packet_fields_create.
  - intros i sq d Hi Hl. rewrite <- Hch in Hl.
    destruct (Hdone i (sq, d) Hi Hl) as (p & Hp & Hin). by exists p.
Qed.

(** X8.  In every state of a transfer the retransmission counter never
    exceeds the number of datagrams sent, and the number of datagrams
    sent never exceeds the segments the send loop has passed plus the
    retransmissions counted.  (The two can differ: a send of the loop
    for a segment that a fast retransmission has already put in
    [unacked_packets] is counted as a retransmission.) *)
Theorem datagrams_sent_bounds file_data s :
  sender_reachable file_data s ->
  total_retransmissions (client s)
  <= Z.of_nat (length (sent (client s)))
  <= Z.of_nat (chunk_index s) + total_retransmissions (client s).
Proof.
  intros Hs. by destruct (sender_run_sent_inv _ _ _ Hs) as (_ & _ & ?).
Qed.

Lemma Forall2_pick {A B} (R : A -> B -> Prop) (l : list A) :
  (forall x, x ∈ l -> exists y, R x y) -> exists k, Forall2 R l k.
Proof.
  induction l as [|x l IH]; intros Hall; [by exists []|].
  destruct (Hall x ltac:(by left)) as [y Hy].
  destruct IH as [k Hk]; [intros z Hz; apply Hall; by right|].
  exists (y :: k). by constructor.
Qed.

(** X9.  End to end.  Once the send loop has passed every segment
    ([chunk_index] has reached the number of chunks), hand a receiver
    with the loss injector off the datagrams the sender has put on the
    wire, in any order and each any number of times (at least once):
    the payloads it delivers, concatenated, are the file, and
    [expected_seq] is the file length. *)
Theorem transfer_end_to_end file_data s arrivals :
  sender_reachable file_data s ->
  chunk_index s = length (chunks (client s)) ->
  (forall p, p ∈ arrivals.*1.*1 <-> p ∈ sent (client s)) ->
  Forall (fun d : bytes * address * Q => (0 <= d.2)%Q) arrivals ->
  concat (output_buffer (receive_all arrivals (server_init 0))) = file_data
  /\ expected_seq (receive_all arrivals (server_init 0))
     = Z.of_nat (length file_data).
Proof.
  intros Hs Hidx Hsame Hr.
  destruct (sender_run_sent_inv _ _ _ Hs) as (Hall & Hdone & _).
  destruct (sender_run_inv _ _ _ Hs) as (Hch & _).
  rewrite Hch in Hdone, Hidx.
  destruct (Forall2_pick packet_of (read_file_chunks file_data))
    as [packets Hpk].
  { intros seg [i Hi]%list_elem_of_lookup.
    destruct (Hdone i seg) as (p & Hp & _); [|done|by exists p].
    rewrite Hidx. by eapply lookup_lt_Some. }
  destruct (receive_all_segments file_data packets arrivals Hpk) as [Hob He];
    [|done|].
  - intros p. rewrite Hsame. split.
    + intros Hin. apply (proj1 (Forall_forall _ _) Hall) in Hin
        as (seg & [i Hi]%list_elem_of_lookup & Hp).
      unfold segment_datagram in *. rewrite Hch in Hi.
      destruct (Forall2_lookup_l _ _ _ _ _ Hpk Hi) as (p' & Hp'i & Hp').
      unfold packet_of in *. rewrite Hp in Hp'. injection Hp' as ->.
      by eapply list_elem_of_lookup_2.
    + intros [i Hi]%list_elem_of_lookup.
      destruct (Forall2_lookup_r _ _ _ _ _ Hpk Hi) as (seg & Hsi & Hp).
      destruct (Hdone i seg) as (p' & Hp' & Hin); [|done|].
      { rewrite Hidx. by eapply lookup_lt_Some. }
      unfold packet_of in *. rewrite Hp in Hp'. by injection Hp' as ->.
  - split; [|done]. rewrite Hob. apply read_file_chunks_concat.
Qed.

(** ** Sender: phase and threshold *)

Lemma fast_retransmit_phase t ack_num c :
  phase_inv c -> phase_inv (fast_retransmit t ack_num c).2.
Proof.
  intros Hph. unfold fast_retransmit.
  destruct (find_chunk (chunks c) ack_num) as [d|]; [|done].
  destruct (create_packet ack_num d) as [p|]; [|done].
  unfold phase_inv. client_simpl. split; [done|lia].
Qed.

(** The update of congestion avoidance never lowers the window. *)
Lemma grow_window_avoidance k c :
  0 <= k -> 1 <= cwnd c -> state c = congestion_avoidance ->
  grow_window k c = (Returned, set_cwnd (cwnd c + k / cwnd c) c).
Proof.
  intros Hk Hw Hst. unfold grow_window. rewrite Hst.
  rewrite decide_False by lia. rewrite clamp_trunc, py_int_growth by lia.
  pose proof (Z.div_pos k (cwnd c) ltac:(lia) ltac:(lia)).
  do 2 f_equal. lia.
Qed.

Lemma grow_window_phase k c :
  0 <= k -> 1 <= cwnd c -> phase_inv c -> phase_inv (grow_window k c).2.
Proof.
  intros Hk Hw Hph. destruct (state c) eqn:Hst.
  - unfold grow_window. rewrite Hst. client_simpl.
    case_bool_decide as Hge; unfold phase_inv; client_simpl.
    + split; [done|lia].
    + rewrite Hst. split; [lia|done].
  - rewrite grow_window_avoidance by done. unfold phase_inv in *.
    client_simpl. rewrite Hst in *.
    pose proof (Z.div_pos k (cwnd c) ltac:(lia) ltac:(lia)).
    split; [done|]. intros Hlt. apply Hph. lia.
Qed.

Lemma handle_ack_phase t ack_num c :
  1 <= cwnd c -> phase_inv c -> phase_inv (handle_ack t ack_num c).2.
Proof.
  intros Hw Hph.
  destruct (decide (ack_num = last_ack_received c)) as [Heq|Hne].
  - unfold handle_ack. rewrite decide_True by done.
    destruct (decide _); [|done]. by apply fast_retransmit_phase.
  - destruct (Z.lt_ge_cases (last_ack_received c) ack_num) as [Hnew|Hold].
    + rewrite handle_ack_new by done. apply grow_window_phase; [lia|done..].
    + unfold handle_ack. rewrite decide_False by done.
      by rewrite bool_decide_eq_false_2 by lia.
Qed.

Lemma retransmit_all_phase clock seqs k c :
  phase_inv c -> phase_inv (retransmit_all clock k seqs c).2.
Proof.
  revert k c. induction seqs as [|sq seqs IH]; intros k c Hph; [done|].
  cbn [retransmit_all].
  destruct (find_chunk (chunks c) sq) as [d|]; [|by apply IH].
  set (c1 := set_state _ _).
  assert (phase_inv c1) as H1.
  { unfold phase_inv. subst c1. client_simpl. unfold INITIAL_CWND.
    pose proof (halved_ge c). split; [lia|done]. }
  destruct (send_packet_frame (clock k) sq d true c1)
    as (_ & Hw & Hss & Hst & _).
  assert (phase_inv (send_packet (clock k) sq d true c1).2) as H2.
  { unfold phase_inv in *. by rewrite Hw, Hss, Hst. }
  destruct (send_packet (clock k) sq d true c1) as [[] c2]; [|done].
  by apply IH.
Qed.

Lemma sender_run_phase ack_ok file_data s :
  sender_run ack_ok file_data s -> phase_inv (client s).
Proof.
  induction 1 as [|s s' Hrun IH Hstep].
  { unfold phase_inv. simpl. split; [done|intros _; done]. }
  pose proof (sender_run_inv _ _ _ Hrun) as (_ & _ & _ & Hw & _).
  destruct Hstep as [c i t sq d c' _ Hi Hsend|c i t a o c' Ha _ Hack
                    |c i now clock o c' Hto]; simpl in *.
  - destruct (send_packet_frame t sq d false c)
      as (_ & Hw' & Hss & Hst & _).
    rewrite Hsend in *. simpl in *. unfold phase_inv in *.
    by rewrite Hw', Hss, Hst.
  - pose proof (handle_ack_phase t a c Hw IH) as H'. by rewrite Hack in H'.
  - pose proof (retransmit_all_phase clock (timed_out_packets now c) 0 c IH)
      as H'.
    unfold check_timeouts in Hto. by rewrite Hto in H'.
Qed.

(** X10.  In every state of a transfer the phase is the one the window and
    the threshold call for: slow start exactly while [cwnd < ssthresh],
    congestion avoidance exactly while [cwnd >= ssthresh]. *)
Theorem phase_matches_threshold file_data s :
  sender_reachable file_data s ->
  (state (client s) = slow_start <-> cwnd (client s) < ssthresh (client s))
  /\ (state (client s) = congestion_avoidance
      <-> ssthresh (client s) <= cwnd (client s)).
Proof.
  intros Hph%sender_run_phase. unfold phase_inv in Hph. split; [done|].
  destruct (state (client s)).
  - split; [done|]. intros Hle. assert (slow_start = slow_start) as H by done.
    apply Hph in H. lia.
  - split; [|done]. intros _.
    destruct (Z.lt_ge_cases (cwnd (client s)) (ssthresh (client s)))
      as [Hlt|]; [|done].
    by apply Hph in Hlt.
Qed.

(** X11.  In congestion avoidance the fraction [packets_acked / cwnd] is lost
    by [int]: a new ACK that acknowledges fewer segments than [cwnd]
    leaves the window as it is, and the window grows (by
    floor(K / cwnd)) only when one ACK acknowledges at least [cwnd]
    segments. *)
Theorem avoidance_growth_needs_full_window send_time ack_num c :
  state c = congestion_avoidance ->
  1 <= cwnd c ->
  last_ack_received c < ack_num ->
  let K := Z.of_nat (length (acked_packets c ack_num)) in
  let c' := (handle_ack send_time ack_num c).2 in
  (K < cwnd c -> cwnd c' = cwnd c)
  /\ (cwnd c <= K -> cwnd c < cwnd c')
  /\ cwnd c <= cwnd c' <= cwnd c + K
  /\ state c' = congestion_avoidance.
Proof.
  intros Hst Hw Hnew K c'. subst c'. rewrite handle_ack_new by done.
  fold K. rewrite grow_window_avoidance by (done || lia). client_simpl.
  assert (0 <= K) as HK by lia.
  pose proof (Z.div_pos K (cwnd c) HK ltac:(lia)) as Hge.
  split; [intros Hlt; rewrite Z.div_small by lia; lia|].
  split.
  { intros Hle.
    pose proof (Z.div_le_lower_bound K (cwnd c) 1 ltac:(lia) ltac:(lia)).
    lia. }
  split; [|done].
  pose proof (Z.div_le_upper_bound K (cwnd c) K ltac:(lia) ltac:(nia)).
  lia.
Qed.

(** ** Sender: when its operations raise *)




(** ** Sender: the end of a transfer *)

Lemma contig_last off cs s d :
  contig off cs -> last cs = Some (s, d) ->
  s + Z.of_nat (length d) = end_offset off cs.
Proof.
  intros Hc [cs' ->]%last_Some.
  apply contig_app in Hc as [_ (-> & _)].
  rewrite end_offset_app. unfold end_offset at 2. simpl. lia.
Qed.

Lemma read_file_end file_data :
  end_offset 0 (read_file_chunks file_data) = Z.of_nat (length file_data).
Proof. by rewrite end_offset_payloads, read_file_chunks_concat. Qed.

Lemma read_file_chunks_nil file_data :
  read_file_chunks file_data = [] <-> file_data = [].
Proof.
  split.
  - intros Hnil. rewrite <- (read_file_chunks_concat file_data).
    by rewrite Hnil.
  - intros ->. done.
Qed.

(** The exit test of [receiver_thread] in a state of a transfer. *)
Lemma transfer_acked_spec file_data c :
  client_inv file_data c ->
  transfer_acked c
  = match file_data with
    | [] => None
    | _ :: _ =>
        Some (bool_decide (Z.of_nat (length file_data)
                           <= last_ack_received c))
    end.
Proof.
  intros (Hch & _ & _ & _ & _ & _ & Hla). unfold transfer_acked.
  rewrite Hch.
  destruct (last (read_file_chunks file_data)) as [[s d]|] eqn:Hlast.
  - pose proof (contig_last _ _ _ _ (contig_read_file file_data) Hlast)
      as Hend.
    rewrite read_file_end in Hend.
    destruct file_data as [|b file_data]; [done|].
    f_equal. apply bool_decide_ext. simpl length in *. lia.
  - destruct file_data as [|b file_data]; [done|].
    apply last_None in Hlast. by apply read_file_chunks_nil in Hlast.
Qed.

(** X13.  In a state of a transfer, a new ACK whose value is the file length
    or more (the receiver's final ACK is the file length) removes every
    entry from [unacked_packets], so that the wait loop
    [while len(self.unacked_packets) > 0] of [transfer_file] ends, and
    makes the exit test of [receiver_thread] true. *)
Theorem final_ack_clears_unacked file_data s send_time ack_num :
  sender_reachable file_data s ->
  Z.of_nat (length file_data) <= ack_num ->
  last_ack_received (client s) < ack_num ->
  let c' := (handle_ack send_time ack_num (client s)).2 in
  unacked_packets c' = []
  /\ last_ack_received c' = ack_num
  /\ last_acked_seq c' = ack_num - 1
  /\ in_flight_count c' = 0%nat
  /\ (file_data <> [] -> transfer_acked c' = Some true).
Proof.
  intros Hs Hfin Hnew c'.
  pose proof (sender_run_inv _ _ _ Hs) as Hinv.
  pose proof (handle_ack_inv file_data send_time ack_num (client s)
                ltac:(lia) Hinv) as Hinv'.
  fold c' in Hinv'.
  pose proof Hinv as (Hch & Hnd & Hent & _ & _ & _ & Hla).
  assert (Hrun : c' = (handle_ack send_time ack_num (client s)).2) by done.
  rewrite handle_ack_new in Hrun by done.
  set (c1 := set_last_acked_seq _ _) in Hrun.
  set (k := Z.of_nat _) in Hrun.
  destruct (grow_window_frame k c1)
    as (_ & _ & Hla' & Hun' & Hlar' & _).
  rewrite <- Hrun in Hla', Hun', Hlar'. subst c1. client_simpl.
  assert (unacked_packets c' = []) as Hempty.
  { apply (fmap_nil_inv fst). fold (dict_keys (unacked_packets c')).
    rewrite Hun', dict_keys_pop_all by done.
    apply elem_of_nil_inv. intros sq [Hnot Hsq]%list_elem_of_filter.
    apply Hnot. unfold acked_packets. apply list_elem_of_filter.
    split; [|done]. apply covered_spec.
    destruct (dict_key_get _ _ Hsq) as [[[p t0] n] Hg].
    destruct (Hent _ _ _ _ Hg) as (d & Hd & _). exists d.
    split; [done|].
    pose proof (find_chunk_elem _ _ _ Hd) as Hin. rewrite Hch in Hin.
    destruct (contig_elem _ _ _ _ (contig_read_file file_data) Hin)
      as (_ & Hend & Hne).
    rewrite read_file_end in Hend. split; [done|lia]. }
  split; [done|]. split; [done|]. split; [lia|]. split.
  { unfold in_flight_count. by rewrite Hempty. }
  intros Hne. rewrite (transfer_acked_spec file_data c' Hinv').
  destruct file_data as [|b file_data]; [done|].
  f_equal. apply bool_decide_eq_true_2. lia.
Qed.

(** ** Sender: the loop of [receiver_thread] *)


(** ** Sender: entries of [unacked_packets] *)

Lemma dict_keys_set_incl {V} (d : list (Z * V)) k k' v :
  k ∈ dict_keys d -> k ∈ dict_keys (dict_set d k' v).
Proof.
  intros Hk. destruct (dict_get d k') eqn:Hg.
  - by rewrite dict_keys_set_old by (by rewrite Hg).
  - rewrite dict_keys_set_new by done. apply elem_of_app. by left.
Qed.

Lemma send_packet_keys t seq_num d r c k :
  k ∈ dict_keys (unacked_packets c) ->
  k ∈ dict_keys (unacked_packets (send_packet t seq_num d r c).2).
Proof.
  intros Hk. unfold send_packet.
  destruct (create_packet seq_num d); [|done]. client_simpl.
  destruct (dict_get (unacked_packets c) seq_num) as [[[? ?] ?]|], r;
    client_simpl; by apply dict_keys_set_incl.
Qed.

Lemma fast_retransmit_keys t ack_num c k :
  k ∈ dict_keys (unacked_packets c) ->
  k ∈ dict_keys (unacked_packets (fast_retransmit t ack_num c).2).
Proof.
  intros Hk. unfold fast_retransmit.
  destruct (find_chunk (chunks c) ack_num); [|done].
  destruct (create_packet ack_num _); [|done]. client_simpl.
  by apply dict_keys_set_incl.
Qed.

(** X15.  The sender never forgets a segment that is not acknowledged.  If
    an action of the sender in a transfer removes a key from
    [unacked_packets], the action was a new ACK (it raised
    [last_ack_received]) and the ACK covers the whole segment: sends
    of the loop, duplicate and stale ACKs, fast retransmissions and
    timeout polls remove nothing. *)
Theorem unacked_removed_only_by_ack ack_ok file_data s s' seq_num :
  sender_run ack_ok file_data s ->
  sender_step ack_ok s s' ->
  seq_num ∈ dict_keys (unacked_packets (client s)) ->
  seq_num ∉ dict_keys (unacked_packets (client s')) ->
  last_ack_received (client s) < last_ack_received (client s')
  /\ exists d,
       find_chunk (chunks (client s)) seq_num = Some d
       /\ seq_num + Z.of_nat (length d) <= last_ack_received (client s').
Proof.
  intros Hrun Hstep Hin Hout.
  pose proof (sender_run_inv _ _ _ Hrun) as (_ & Hnd & _).
  destruct Hstep as [c i t sq d c' _ Hi Hsend|c i t a o c' Ha _ Hack
                    |c i now clock o c' Hto]; simpl in *.
  - exfalso. apply Hout.
    pose proof (send_packet_keys t sq d false c seq_num Hin) as H'.
    by rewrite Hsend in H'.
  - destruct (decide (a = last_ack_received c)) as [Heq|Hne].
    + exfalso. apply Hout. unfold handle_ack in Hack.
      rewrite decide_True in Hack by done.
      destruct (decide _) in Hack; [|by injection Hack as <- <-].
      pose proof (fast_retransmit_keys t a
                    (set_duplicate_ack_count (duplicate_ack_count c + 1) c)
                    seq_num Hin) as H'.
      by rewrite Hack in H'.
    + destruct (Z.lt_ge_cases (last_ack_received c) a) as [Hnew|Hold].
      * rewrite handle_ack_new in Hack by done.
        set (c1 := set_last_acked_seq _ _) in Hack.
        set (k := Z.of_nat _) in Hack.
        destruct (grow_window_frame k c1)
          as (_ & _ & _ & Hun' & Hlar' & _).
        rewrite Hack in Hun', Hlar'. simpl in Hun', Hlar'.
        rewrite Hlar'. split; [done|].
        rewrite Hun', dict_keys_pop_all in Hout by done.
        destruct (decide (seq_num ∈ acked_packets c a)) as [Hcov|Hnot].
        -- apply list_elem_of_filter in Hcov as [Hcov _].
           apply covered_spec in Hcov as (d & Hd & _ & Hle). by exists d.
        -- exfalso. apply Hout. by apply list_elem_of_filter.
      * exfalso. apply Hout. unfold handle_ack in Hack.
        rewrite decide_False in Hack by done.
        rewrite bool_decide_eq_false_2 in Hack by lia.
        by injection Hack as <- <-.
  - exfalso. apply Hout. unfold check_timeouts in Hto.
    destruct (retransmit_all_keys clock (timed_out_packets now c) 0 c)
      as (Hk & _).
    { intros sq (p & t & n & Hg & _)%timed_out_packets_spec; [|done].
      by rewrite Hg. }
    rewrite Hto in Hk. simpl in Hk. by rewrite Hk.
Qed.

(** ** Sender: the window pump *)

Lemma dict_set_length {V} (d : list (Z * V)) k v :
  (length (dict_set d k v) <= S (length d))%nat.
Proof.
  rewrite <- !dict_keys_length. destruct (dict_get d k) eqn:Hg.
  - rewrite dict_keys_set_old by (by rewrite Hg). lia.
  - rewrite dict_keys_set_new by done. rewrite length_app. simpl. lia.
Qed.

(** X16.  The send loop respects the window.  While no ACK runs ahead of the
    send loop, right after the loop has sent a segment the number of
    entries of [unacked_packets] is at most [cwnd]: the segment was
    let in with fewer than [cwnd] entries outstanding and added at most
    one. *)
Theorem send_respects_window file_data s s' :
  sender_reachable_within_sent file_data s ->
  sender_step acks_within_sent s s' ->
  chunk_index s' = S (chunk_index s) ->
  Z.of_nat (length (unacked_packets (client s))) < cwnd (client s)
  /\ Z.of_nat (length (unacked_packets (client s'))) <= cwnd (client s')
  /\ cwnd (client s') = cwnd (client s).
Proof.
  intros Hs Hstep Hidx.
  destruct (sender_within_sent_inv _ _ Hs) as [_ [_ Hall]].
  pose proof (in_flight_count_all _ Hall) as Hcount.
  destruct Hstep as [c i t sq d c' Hcan Hi Hsend|c i t a o c' _ _ _
                    |c i now clock o c' _]; simpl in *; try lia.
  unfold can_send_more in Hcan. apply bool_decide_eq_true in Hcan.
  rewrite Hcount in Hcan. split; [done|].
  destruct (send_packet_frame t sq d false c) as (_ & Hw & _).
  rewrite Hsend in Hw. simpl in Hw. rewrite Hw. split; [|done].
  unfold send_packet in Hsend.
  destruct (create_packet sq d) as [p|]; [|done]. client_simpl.
  destruct (dict_get (unacked_packets c) sq) as [[[p0 t0] n0]|];
    injection Hsend as <-; client_simpl;
    match goal with |- context [dict_set ?x ?k ?v] =>
      pose proof (dict_set_length x k v) end; lia.
Qed.

(** ** Receiver: every datagram, by cases *)

(** A datagram of six bytes or more always has its two header fields
    read: no [struct.error] from [struct.unpack]. *)
Lemma packet_fields_long p :
  (SEQ_NUM_SIZE + CHECKSUM_SIZE <= length p)%nat ->
  unpack_u32 (slice p 0 SEQ_NUM_SIZE)
  = Some (be_value (slice p 0 SEQ_NUM_SIZE))
  /\ unpack_u16 (slice p SEQ_NUM_SIZE (SEQ_NUM_SIZE + CHECKSUM_SIZE))
     = Some (be_value (slice p SEQ_NUM_SIZE (SEQ_NUM_SIZE + CHECKSUM_SIZE)))
  /\ packet_fields p
     = Some (be_value (slice p 0 SEQ_NUM_SIZE),
             be_value (slice p SEQ_NUM_SIZE (SEQ_NUM_SIZE + CHECKSUM_SIZE)),
             drop (SEQ_NUM_SIZE + CHECKSUM_SIZE) p).
Proof.
  intros Hlen. unfold SEQ_NUM_SIZE, CHECKSUM_SIZE in *.
  assert (unpack_u32 (slice p 0 4) = Some (be_value (slice p 0 4))) as H32.
  { unfold unpack_u32. rewrite bool_decide_eq_true_2; [done|].
    rewrite length_slice. lia. }
  assert (unpack_u16 (slice p 4 (4 + 2))
          = Some (be_value (slice p 4 (4 + 2)))) as H16.
  { unfold unpack_u16. rewrite bool_decide_eq_true_2; [done|].
    rewrite length_slice. lia. }
  split; [done|]. split; [done|]. unfold packet_fields.
  unfold SEQ_NUM_SIZE, CHECKSUM_SIZE.
  destruct (Nat.ltb_spec (length p) (4 + 2)); [lia|].
  rewrite H32. cbn [mbind option_bind]. rewrite H16. done.
Qed.

Lemma process_packet_long p addr r s :
  (SEQ_NUM_SIZE + CHECKSUM_SIZE <= length p)%nat ->
  process_packet p addr r s
  = let seq_num := be_value (slice p 0 SEQ_NUM_SIZE) in
    let checksum :=
      be_value (slice p SEQ_NUM_SIZE (SEQ_NUM_SIZE + CHECKSUM_SIZE)) in
    let data := drop (SEQ_NUM_SIZE + CHECKSUM_SIZE) p in
    if Qltb r (loss_prob s) then (Returned, count_dropped s)
    else if negb (verify_checksum data checksum)
    then (Returned, count_checksum_error (count_received s))
    else
      let s2 := latched addr s in
      if bool_decide (seq_num < expected_seq s2)
      then send_ack addr (expected_seq s2) s2
      else
        let s3 := match received_data s2 !! seq_num with
                  | None => store_new seq_num data s2
                  | Some _ => s2
                  end in
        (Returned, deliver_loop (size (received_data s3)) s3).
Proof.
  intros Hlen. destruct (packet_fields_long p Hlen) as (H32 & H16 & _).
  unfold process_packet.
  destruct (Nat.ltb_spec (length p) (SEQ_NUM_SIZE + CHECKSUM_SIZE)); [lia|].
  rewrite H32, H16. cbv zeta.
  destruct (Qltb r (loss_prob s)); [done|].
  by destruct (negb _).
Qed.

Lemma process_packet_short p addr r s :
  (length p < SEQ_NUM_SIZE + CHECKSUM_SIZE)%nat ->
  process_packet p addr r s = (Returned, s).
Proof.
  intros Hlen. unfold process_packet.
  by destruct (Nat.ltb_spec (length p) (SEQ_NUM_SIZE + CHECKSUM_SIZE));
    [|lia].
Qed.

Lemma process_packet_rejected_returns p addr r s :
  (forall seq_num data, ~ accepted s p r seq_num data) ->
  (process_packet p addr r s).1 = Returned.
Proof.
  intros Hrej.
  destruct (Nat.lt_ge_cases (length p) (SEQ_NUM_SIZE + CHECKSUM_SIZE))
    as [Hlt|Hge]; [by rewrite process_packet_short|].
  rewrite process_packet_long by done. cbv zeta.
  destruct (Qltb r (loss_prob s)) eqn:Hr; [done|].
  destruct (verify_checksum _ _) eqn:Hv; [|done].
  exfalso. eapply Hrej.
  exists (be_value (slice p SEQ_NUM_SIZE (SEQ_NUM_SIZE + CHECKSUM_SIZE))).
  split; [apply (packet_fields_long p Hge)|done].
Qed.

(** X17.  The datagrams that are not accepted.  One shorter than the six
    header bytes leaves the receiver exactly as it was: it is not even
    counted.  One that the loss injector drops adds one to
    [total_packets_dropped] and changes nothing else.  One whose payload
    does not sum to the checksum field adds one to
    [total_packets_received] and to [total_checksum_errors] and changes
    nothing else; in particular it does not latch [client_addr].  None
    of them raises, and none is answered. *)
Theorem rejected_datagram_effects p addr r s :
  ((length p < SEQ_NUM_SIZE + CHECKSUM_SIZE)%nat ->
   process_packet p addr r s = (Returned, s))
  /\ ((SEQ_NUM_SIZE + CHECKSUM_SIZE <= length p)%nat ->
      Qltb r (loss_prob s) = true ->
      process_packet p addr r s = (Returned, count_dropped s))
  /\ ((SEQ_NUM_SIZE + CHECKSUM_SIZE <= length p)%nat ->
      Qltb r (loss_prob s) = false ->
      calculate_checksum (drop (SEQ_NUM_SIZE + CHECKSUM_SIZE) p)
      <> be_value (slice p SEQ_NUM_SIZE (SEQ_NUM_SIZE + CHECKSUM_SIZE)) ->
      process_packet p addr r s
      = (Returned, count_checksum_error (count_received s)))
  /\ ((forall seq_num data, ~ accepted s p r seq_num data) ->
      (process_packet p addr r s).1 = Returned
      /\ receiver_state (process_packet p addr r s).2 = receiver_state s
      /\ outbox (process_packet p addr r s).2 = outbox s).
Proof.
  split; [|split; [|split]].
  - apply process_packet_short.
  - intros Hlen Hr. rewrite process_packet_long by done. cbv zeta.
    by rewrite Hr.
  - intros Hlen Hr Hck. rewrite process_packet_long by done. cbv zeta.
    rewrite Hr. unfold verify_checksum.
    by rewrite bool_decide_eq_false_2.
  - intros Hrej.
    destruct (process_packet_rejected s p addr r Hrej) as (Hst & Hout & _).
    split; [by apply process_packet_rejected_returns|done].
Qed.

(** X18.  [process_packet] raises in one situation only: a datagram that is
    accepted with a sequence number below [expected_seq] when
    [expected_seq] has reached 2^32, so that the ACK cannot be packed.
    Any other datagram, whatever its length and content, is handled
    without an exception. *)
Theorem process_packet_raises_iff p addr r s :
  0 <= expected_seq s ->
  (process_packet p addr r s).1 = Raised
  <-> 2 ^ 32 <= expected_seq s
      /\ exists seq_num data,
           accepted s p r seq_num data /\ seq_num < expected_seq s.
Proof.
  intros Hnn.
  destruct (accepted_dec s p r) as [(seq_num & data & Hacc)|Hrej].
  - rewrite (process_packet_accepted _ _ addr _ _ _ Hacc). cbv zeta.
    destruct (latched_frame addr s) as (He & _).
    assert (forall sq d, accepted s p r sq d -> sq = seq_num) as Huniq.
    { intros sq d (ck & Hf & _). destruct Hacc as (ck' & Hf' & _).
      rewrite Hf in Hf'. by injection Hf'. }
    case_bool_decide as Hlt.
    + destruct (send_ack_cases addr (expected_seq (latched addr s))
                  (latched addr s))
        as [(pk & Hpk & Ho & _)|[Hnone Hrun]].
      * rewrite Ho. split; [done|]. intros [Hov _].
        apply pack_u32_range in Hpk. lia.
      * rewrite Hrun. simpl. split; [|done]. intros _. split.
        -- destruct (Z.lt_ge_cases (expected_seq s) (2 ^ 32)) as [Hfit|];
             [|done].
           destruct (pack_u32_Some (expected_seq s) ltac:(lia)) as [x Hx].
           rewrite He in Hnone. congruence.
        -- exists seq_num, data. split; [done|lia].
    + simpl. split; [done|]. intros [_ (sq & d & Hacc' & Hlt')].
      rewrite (Huniq _ _ Hacc') in Hlt'. lia.
  - rewrite (process_packet_rejected_returns p addr r s Hrej).
    split; [done|]. intros [_ (sq & d & Hacc & _)]. by destruct (Hrej sq d).
Qed.

(** ** Receiver: the buffer and the delayed-ACK timer *)

Lemma store_new_timer seq_num data s :
  ack_timer_active (store_new seq_num data s) = true
  /\ timer_threads (store_new seq_num data s)
     = (if ack_timer_active s then timer_threads s
        else S (timer_threads s)).
Proof.
  unfold store_new. simpl.
  by destruct (ack_timer_active s) eqn:Hf; simpl; rewrite ?Hf.
Qed.

Lemma latched_addr_Some addr s : is_Some (client_addr (latched addr s)).
Proof.
  destruct (latched_frame addr s) as (_ & _ & _ & _ & _ & _ & _ & ->). eauto.
Qed.

(** What the delivery loop appends came out of the buffer, and
    [expected_seq] advances by its length. *)
Lemma deliver_loop_spec fuel s :
  exists more,
    output_buffer (deliver_loop fuel s) = output_buffer s ++ more
    /\ expected_seq (deliver_loop fuel s)
       = expected_seq s + Z.of_nat (sum_list_with length more)
    /\ Forall (fun d => exists k, received_data s !! k = Some d) more
    /\ received_data (deliver_loop fuel s) ⊆ received_data s.
Proof.
  revert s. induction fuel as [|fuel IH]; intros s; simpl.
  { exists []. rewrite app_nil_r. simpl. split; [done|]. split; [lia|].
    split; [by constructor|done]. }
  destruct (received_data s !! expected_seq s) as [data|] eqn:Hl.
  2: { exists []. rewrite app_nil_r. simpl. split; [done|]. split; [lia|].
       split; [by constructor|done]. }
  destruct (IH (deliver data s)) as (more & Hob & He & Hall & Hsub).
  exists (data :: more). rewrite Hob, He. simpl.
  split; [by rewrite <- app_assoc|]. split; [lia|]. split.
  - constructor; [by exists (expected_seq s)|].
    eapply Forall_impl; [exact Hall|]. intros d [k Hk].
    cbn [received_data deliver] in Hk.
    apply lookup_delete_Some in Hk as [_ Hk]. by exists k.
  - etrans; [exact Hsub|]. apply delete_subseteq.
Qed.

(** With nothing buffered at [expected_seq] the loop does not run. *)
Lemma deliver_loop_idle fuel s :
  received_data s !! expected_seq s = None -> deliver_loop fuel s = s.
Proof. intros Hn. destruct fuel; [done|]. simpl. by rewrite Hn. Qed.

Lemma process_packet_timer_inv p addr r s :
  timer_inv s -> timer_inv (process_packet p addr r s).2.
Proof.
  intros (H1 & H2 & H3 & H4 & H5).
  destruct (accepted_dec s p r) as [(seq_num & data & Hacc)|Hrej].
  - rewrite (process_packet_accepted _ _ addr _ _ _ Hacc). cbv zeta.
    destruct (latched_frame addr s)
      as (He & Hrd & Hob & Hat & Htt & Hout & _ & Hca).
    case_bool_decide as Hlt.
    + assert (timer_inv (latched addr s)) as Hinv2.
      { unfold timer_inv. rewrite He, Hrd, Hat, Htt, Hca.
        do 2 (split; [done|]). split; [done|]. by split. }
      destruct (send_ack_cases addr (expected_seq (latched addr s))
                  (latched addr s))
        as [(pk & _ & _ & Hout' & Hst & _)|[_ ->]]; [|done].
      unfold receiver_state in Hst.
      injection Hst as He' Hrd' _ Hca' Hat' Htt'.
      unfold timer_inv. rewrite He', Hrd', Hat', Htt', Hca'.
      rewrite He, Hrd, Hat, Htt, Hca.
      do 2 (split; [done|]). split; [done|]. by split.
    + cbn [snd].
      set (s3 := match received_data (latched addr s) !! seq_num with
                 | Some _ => latched addr s
                 | None => store_new seq_num data (latched addr s)
                 end).
      destruct (deliver_loop_frame (size (received_data s3)) s3)
        as (_ & Hat4 & Htt4 & Hca4 & _).
      pose proof (deliver_loop_mono (size (received_data s3)) s3) as Hmono.
      assert (expected_seq s3 = expected_seq s
              /\ is_Some (client_addr s3)
              /\ (ack_timer_active s3 = ack_timer_active s
                  /\ timer_threads s3 = timer_threads s
                  \/ ack_timer_active s = false
                     /\ ack_timer_active s3 = true
                     /\ timer_threads s3 = S (timer_threads s)))
        as (He3 & Hca3 & Htimer).
      { subst s3. destruct (received_data (latched addr s) !! seq_num).
        - rewrite He, Hat, Htt. split; [done|].
          split; [apply latched_addr_Some|by left].
        - destruct (store_new_frame seq_num data (latched addr s))
            as (-> & _ & _ & -> & _).
          destruct (store_new_timer seq_num data (latched addr s))
            as (Hat3 & Htt3).
          rewrite Hat3, Htt3, Hat, Htt. split; [done|].
          split; [apply latched_addr_Some|].
          destruct (ack_timer_active s) eqn:Hflag; [by left|by right]. }
      unfold timer_inv. rewrite Hat4, Htt4, Hca4.
      split; [|split; [|split; [|split]]].
      * destruct Htimer as [[_ ->]|(Hf & _ & ->)]; [done|].
        rewrite (H2 Hf). lia.
      * destruct Htimer as [[-> ->]|(_ & -> & _)]; [done|done].
      * intros Hn. rewrite Hn in Hca3. by destruct Hca3.
      * by apply deliver_loop_done.
      * intros Hfit Hflag.
        destruct Htimer as [[Hat3 ->]|(Hf & _ & ->)].
        -- apply H5; [lia|]. by rewrite <- Hat3.
        -- by rewrite (H2 Hf).
  - destruct (process_packet_rejected s p addr r Hrej) as (Hst & Hout & _).
    unfold receiver_state in Hst. injection Hst as He Hrd _ Hca Hat Htt.
    unfold timer_inv. by rewrite He, Hrd, Hca, Hat, Htt, Hout.
Qed.

Lemma send_ack_after_rtt_timer_inv s :
  0 <= expected_seq s -> timer_inv s -> (0 < timer_threads s)%nat ->
  timer_inv (send_ack_after_rtt s).2.
Proof.
  intros Hnn (H1 & H2 & H3 & H4 & H5) Hpending.
  assert (ack_timer_active s = true) as Hflag.
  { destruct (ack_timer_active s) eqn:Hf; [done|].
    rewrite H2 in Hpending; [lia|done]. }
  destruct (client_addr s) as [addr|] eqn:Hca.
  2: { destruct (H3 eq_refl) as (Hf & _). congruence. }
  unfold send_ack_after_rtt. cbn [ack_timer_active set_timer_threads].
  rewrite Hflag.
  change (client_addr (set_timer_threads _ s)) with (client_addr s).
  change (expected_seq (set_timer_threads _ s)) with (expected_seq s).
  rewrite Hca.
  set (s1 := set_timer_threads _ s).
  destruct (send_ack_cases addr (expected_seq s) s1)
    as [(pk & _ & Ho & Hout' & Hst & _)|[Hnone ->]].
  - destruct (send_ack addr (expected_seq s) s1) as [o s2]. simpl in *.
    subst o. unfold receiver_state in Hst.
    injection Hst as He' Hrd' _ Hca' _ Htt'.
    unfold timer_inv. cbn. rewrite He', Hrd', Htt', Hca', Hca.
    split; [lia|]. split; [intros _; lia|]. split; [done|].
    split; [done|]. done.
  - unfold timer_inv. subst s1. cbn. rewrite Hca, Hflag.
    split; [lia|]. split; [done|]. split; [done|]. split; [done|].
    intros Hfit _. destruct (pack_u32_Some (expected_seq s) ltac:(lia))
      as [x Hx]. congruence.
Qed.

Lemma server_reachable_timer_inv loss s :
  server_reachable loss s -> timer_inv s.
Proof.
  induction 1 as [|s s' Hreach IH Hstep].
  { unfold timer_inv. simpl. split; [lia|]. split; [done|].
    split; [done|]. split; [apply lookup_empty|done]. }
  destruct (server_reachable_inv _ _ Hreach) as [[Hsum _] _].
  destruct Hstep as [s p addr r o s' _ _ _ Hpp|s o s' Hpending Hrtt].
  - pose proof (process_packet_timer_inv p addr r s IH) as H'.
    by rewrite Hpp in H'.
  - pose proof (send_ack_after_rtt_timer_inv s) as H'.
    rewrite Hrtt in H'. apply H'; [|done|done].
    rewrite Hsum. unfold delivered_bytes. lia.
Qed.

(** X19.  In every state the receiver reaches, at most one delayed-ACK
    thread is pending; none is pending while [ack_timer_active] is
    false; the flag is only ever set with [client_addr] latched (the
    thread will have an address to send to); and, as long as
    [expected_seq] fits an ACK, the flag is set exactly when a thread is
    pending: a set flag always has a thread that will clear it. *)
Theorem single_delayed_ack_timer loss s :
  server_reachable loss s ->
  (timer_threads s <= 1)%nat
  /\ (ack_timer_active s = false -> timer_threads s = 0%nat)
  /\ (ack_timer_active s = true -> is_Some (client_addr s))
  /\ (expected_seq s < 2 ^ 32 ->
      (ack_timer_active s = true <-> timer_threads s = 1%nat)).
Proof.
  intros (H1 & H2 & H3 & _ & H5)%server_reachable_timer_inv.
  split; [done|]. split; [done|]. split.
  - intros Hflag. destruct (client_addr s); [eauto|].
    destruct (H3 eq_refl) as [Hf _]. congruence.
  - intros Hfit. split; [by apply H5|]. intros Hone.
    destruct (ack_timer_active s); [done|]. rewrite H2 in Hone; [lia|done].
Qed.

(** X20.  In every state the receiver reaches nothing is buffered at
    [expected_seq]: whatever can be delivered has been delivered before
    [process_packet] returns.  Before the first accepted datagram
    ([client_addr] still [None]) the buffer is empty and no ACK has
    been sent. *)
Theorem expected_seq_never_buffered loss s :
  server_reachable loss s ->
  received_data s !! expected_seq s = None
  /\ (client_addr s = None ->
      received_data s = ∅ /\ expected_seq s = 0 /\ outbox s = []).
Proof.
  intros Hs.
  destruct (server_reachable_timer_inv _ _ Hs) as (_ & _ & H3 & H4 & _).
  destruct (server_reachable_inv _ _ Hs) as [[_ Hzero] _].
  split; [done|]. intros Hn. destruct (H3 Hn) as (_ & ? & ?). auto.
Qed.

(** X21.  A delayed-ACK thread that wakes up in a state the receiver reaches,
    with [expected_seq] fitting an ACK, finds the flag set and an
    address latched: it sends exactly one ACK, carrying [expected_seq],
    to the latched address, clears the flag, and changes nothing
    else.  No thread is pending afterwards. *)
Theorem delayed_ack_fires loss s :
  server_reachable loss s ->
  (0 < timer_threads s)%nat ->
  expected_seq s < 2 ^ 32 ->
  exists addr ack_packet s',
    client_addr s = Some addr
    /\ ack_timer_active s = true
    /\ send_ack_after_rtt s = (Returned, s')
    /\ unpack_u32 ack_packet = Some (expected_seq s)
    /\ outbox s' = outbox s ++ [(ack_packet, addr)]
    /\ ack_timer_active s' = false
    /\ timer_threads s' = 0%nat
    /\ expected_seq s' = expected_seq s
    /\ received_data s' = received_data s
    /\ output_buffer s' = output_buffer s
    /\ client_addr s' = client_addr s.
Proof.
  intros Hs Hpending Hfit.
  destruct (server_reachable_timer_inv _ _ Hs) as (H1 & H2 & H3 & _).
  destruct (server_reachable_inv _ _ Hs) as [[Hsum _] _].
  assert (ack_timer_active s = true) as Hflag.
  { destruct (ack_timer_active s) eqn:Hf; [done|].
    rewrite H2 in Hpending; [lia|done]. }
  destruct (client_addr s) as [addr|] eqn:Hca.
  2: { destruct (H3 eq_refl) as (Hf & _). congruence. }
  destruct (pack_u32_Some (expected_seq s)) as [pk Hpk].
  { rewrite Hsum at 1. unfold delivered_bytes. lia. }
  exists addr, pk. eexists. split; [done|]. split; [done|].
  unfold send_ack_after_rtt. cbn [ack_timer_active set_timer_threads].
  rewrite Hflag.
  change (client_addr (set_timer_threads _ s)) with (client_addr s).
  change (expected_seq (set_timer_threads _ s)) with (expected_seq s).
  rewrite Hca.
  unfold send_ack. rewrite Hpk. split; [reflexivity|]. cbn.
  split; [by apply unpack_pack_u32|]. split; [done|]. split; [done|].
  split; [lia|]. done.
Qed.

(** ** Receiver: accepted datagrams at or beyond [expected_seq] *)

(** X22.  A second copy of a segment that is still buffered (accepted, at or
    beyond [expected_seq]) changes nothing but the received counter:
    the payload stored first is kept, no ACK is sent and no timer is
    started. *)
Theorem buffered_duplicate_ignored loss s p addr r seq_num data old :
  server_reachable loss s ->
  accepted s p r seq_num data ->
  expected_seq s <= seq_num ->
  received_data s !! seq_num = Some old ->
  process_packet p addr r s = (Returned, count_received s).
Proof.
  intros Hs Hacc Hge Hold.
  destruct (server_reachable_timer_inv _ _ Hs) as (_ & _ & H3 & H4 & _).
  rewrite (process_packet_accepted _ _ addr _ _ _ Hacc). cbv zeta.
  assert (latched addr s = count_received s) as ->.
  { unfold latched. cbn [client_addr count_received].
    destruct (client_addr s) eqn:Hca; [done|].
    destruct (H3 eq_refl) as (_ & Hrd & _). rewrite Hrd in Hold.
    by apply lookup_empty_Some in Hold. }
  cbn [expected_seq received_data count_received].
  rewrite bool_decide_eq_false_2 by lia. rewrite Hold.
  by rewrite deliver_loop_idle.
Qed.

(** X23.  An accepted segment beyond [expected_seq] that is not yet buffered
    is stored and nothing is delivered: [expected_seq] and
    [output_buffer] stay, no ACK is sent by the call, and the
    delayed-ACK flag is set afterwards, a thread being started exactly
    when the flag was clear. *)
Theorem out_of_order_packet_buffered loss s p addr r seq_num data :
  server_reachable loss s ->
  accepted s p r seq_num data ->
  expected_seq s < seq_num ->
  received_data s !! seq_num = None ->
  let s' := (process_packet p addr r s).2 in
  (process_packet p addr r s).1 = Returned
  /\ received_data s' = <[seq_num := data]> (received_data s)
  /\ output_buffer s' = output_buffer s
  /\ expected_seq s' = expected_seq s
  /\ outbox s' = outbox s
  /\ ack_timer_active s' = true
  /\ timer_threads s'
     = (if ack_timer_active s then timer_threads s else 1%nat).
Proof.
  intros Hs Hacc Hgt Hnew.
  destruct (server_reachable_timer_inv _ _ Hs) as (_ & H2 & _ & H4 & _).
  cbv zeta. rewrite (process_packet_accepted _ _ addr _ _ _ Hacc). cbv zeta.
  destruct (latched_frame addr s)
    as (He & Hrd & Hob & Hat & Htt & Hout & _ & Hca).
  rewrite He, Hrd, Hnew. rewrite bool_decide_eq_false_2 by lia.
  destruct (store_new_frame seq_num data (latched addr s))
    as (He3 & Hrd3 & Hob3 & _ & Hout3 & _).
  destruct (store_new_timer seq_num data (latched addr s)) as (Hat3 & Htt3).
  rewrite deliver_loop_idle.
  2: { rewrite He3, Hrd3, He, Hrd. rewrite lookup_insert_ne by lia. done. }
  cbn [fst snd]. rewrite Hrd3, Hob3, He3, Hout3, Hat3, Htt3.
  rewrite Hrd, Hob, He, Hout, Hat, Htt.
  do 6 (split; [done|]).
  destruct (ack_timer_active s) eqn:Hf; [done|]. by rewrite H2.
Qed.

(** X24.  The accepted segment at [expected_seq] is delivered at once,
    followed by whatever the buffer holds at the offsets that follow:
    [output_buffer] grows by the payload and then by buffered payloads,
    [expected_seq] advances by their total length, and nothing is left
    buffered at the new [expected_seq].  The call itself sends no ACK;
    it leaves the delayed-ACK flag set. *)
Theorem in_order_packet_delivered loss s p addr r data :
  server_reachable loss s ->
  accepted s p r (expected_seq s) data ->
  let s' := (process_packet p addr r s).2 in
  (process_packet p addr r s).1 = Returned
  /\ exists more,
       output_buffer s' = output_buffer s ++ data :: more
       /\ Forall (fun d => exists k, received_data s !! k = Some d) more
       /\ expected_seq s'
          = expected_seq s + Z.of_nat (length data)
            + Z.of_nat (sum_list_with length more)
       /\ received_data s' !! expected_seq s' = None
       /\ received_data s' ⊆ received_data s
       /\ outbox s' = outbox s
       /\ ack_timer_active s' = true.
Proof.
  intros Hs Hacc.
  destruct (server_reachable_timer_inv _ _ Hs) as (_ & H2 & _ & H4 & _).
  cbv zeta. rewrite (process_packet_accepted _ _ addr _ _ _ Hacc). cbv zeta.
  destruct (latched_frame addr s)
    as (He & Hrd & Hob & Hat & Htt & Hout & _ & Hca).
  rewrite He, Hrd, H4. rewrite bool_decide_eq_false_2 by lia.
  set (s3 := store_new (expected_seq s) data (latched addr s)).
  destruct (store_new_frame (expected_seq s) data (latched addr s))
    as (He3 & Hrd3 & Hob3 & _ & Hout3 & _).
  destruct (store_new_timer (expected_seq s) data (latched addr s))
    as (Hat3 & _).
  fold s3 in He3, Hrd3, Hob3, Hout3, Hat3.
  rewrite He in He3. rewrite Hrd in Hrd3. rewrite Hob in Hob3.
  rewrite Hout in Hout3.
  cbn [fst snd]. split; [done|].
  assert (size (received_data s3) = S (size (received_data s))) as Hsize.
  { rewrite Hrd3. by apply map_size_insert_None. }
  pose proof (deliver_loop_done (size (received_data s3)) s3
                ltac:(done)) as Hdone.
  destruct (deliver_loop_frame (size (received_data s3)) s3)
    as (_ & Hat4 & _ & _ & _ & _ & _ & Hout4).
  rewrite Hsize in *. cbn [deliver_loop] in *.
  rewrite He3, Hrd3, lookup_insert_eq in *.
  destruct (deliver_loop_spec (size (received_data s)) (deliver data s3))
    as (more & Hob5 & He5 & Hall & Hsub).
  assert (received_data (deliver data s3) = received_data s) as Hrd5.
  { cbn [received_data deliver]. rewrite He3, Hrd3.
    rewrite delete_insert_eq. by apply delete_id. }
  rewrite Hrd5 in Hall, Hsub.
  exists more. rewrite Hob5, He5. cbn [output_buffer expected_seq deliver].
  rewrite Hob3, He3, <- app_assoc.
  split; [done|]. split; [done|]. split; [done|]. split; [|split; [done|]].
  - rewrite He5 in Hdone. cbn [expected_seq deliver] in Hdone.
    by rewrite He3 in Hdone.
  - by rewrite Hout4, Hat4.
Qed.

(** ** Receiver: nothing is taken back *)

Lemma latched_addr_cases addr s :
  client_addr (latched addr s) = client_addr s
  \/ client_addr s = None /\ client_addr (latched addr s) = Some addr.
Proof.
  destruct (latched_frame addr s) as (_ & _ & _ & _ & _ & _ & _ & ->).
  destruct (client_addr s); [by left|by right].
Qed.

Lemma process_packet_effect p addr r s :
  let s' := (process_packet p addr r s).2 in
  expected_seq s <= expected_seq s'
  /\ (exists more, output_buffer s' = output_buffer s ++ more)
  /\ (outbox s' = outbox s
      \/ exists pk, outbox s' = outbox s ++ [(pk, addr)])
  /\ (client_addr s' = client_addr s
      \/ client_addr s = None /\ client_addr s' = Some addr)
  /\ loss_prob s' = loss_prob s
  /\ total_packets_received s <= total_packets_received s'
  /\ total_packets_dropped s <= total_packets_dropped s'
  /\ total_checksum_errors s <= total_checksum_errors s'.
Proof.
  cbv zeta.
  assert (Hnil : exists more : list bytes,
             output_buffer s = output_buffer s ++ more)
    by (exists []; by rewrite app_nil_r).
  destruct (Nat.lt_ge_cases (length p) (SEQ_NUM_SIZE + CHECKSUM_SIZE))
    as [Hlt|Hge].
  { rewrite process_packet_short by done. simpl.
    split; [lia|]. split; [done|]. split; [by left|]. split; [by left|].
    split; [done|]. lia. }
  rewrite process_packet_long by done. cbv zeta.
  destruct (Qltb r (loss_prob s)).
  { simpl. split; [lia|]. split; [done|]. split; [by left|].
    split; [by left|]. split; [done|]. lia. }
  destruct (negb _).
  { simpl. split; [lia|]. split; [done|]. split; [by left|].
    split; [by left|]. split; [done|]. lia. }
  set (seq_num := be_value _). set (data := drop _ p).
  destruct (latched_frame addr s)
    as (He & Hrd & Hob & _ & _ & Hout & Hlp & _).
  destruct (latched_counters addr s) as (Hrc & Hdr & Hce).
  pose proof (latched_addr_cases addr s) as Hca.
  case_bool_decide as Hdup.
  - destruct (send_ack_counters addr (expected_seq (latched addr s))
                (latched addr s)) as (Hrc' & Hdr' & Hce').
    rewrite Hrc', Hdr', Hce', Hrc, Hdr, Hce.
    destruct (send_ack_cases addr (expected_seq (latched addr s))
                (latched addr s))
      as [(pk & _ & _ & Hout' & Hst & Hlp')|[_ ->]].
    + unfold receiver_state in Hst. injection Hst as He' _ Hob' Hca' _ _.
      rewrite He', Hob', Hca', Hout', Hlp', He, Hob, Hout, Hlp.
      split; [lia|]. split; [done|]. split; [right; by exists pk|].
      split; [done|]. split; [done|]. lia.
    + cbn [snd]. rewrite He, Hob, Hout, Hlp.
      split; [lia|]. split; [done|]. split; [by left|].
      split; [done|]. split; [done|]. lia.
  - cbn [snd].
    set (s3 := match received_data (latched addr s) !! seq_num with
               | Some _ => latched addr s
               | None => store_new seq_num data (latched addr s)
               end).
    assert (expected_seq s3 = expected_seq s
            /\ output_buffer s3 = output_buffer s
            /\ outbox s3 = outbox s /\ loss_prob s3 = loss_prob s
            /\ client_addr s3 = client_addr (latched addr s)
            /\ total_packets_received s3 = total_packets_received s + 1
            /\ total_packets_dropped s3 = total_packets_dropped s
            /\ total_checksum_errors s3 = total_checksum_errors s)
      as (He3 & Hob3 & Hout3 & Hlp3 & Hca3 & Hrc3 & Hdr3 & Hce3).
    { subst s3. destruct (received_data (latched addr s) !! seq_num).
      - by rewrite He, Hob, Hout, Hlp, Hrc, Hdr, Hce.
      - destruct (store_new_frame seq_num data (latched addr s))
          as (-> & _ & -> & -> & -> & ->).
        destruct (store_new_counters seq_num data (latched addr s))
          as (-> & -> & ->).
        by rewrite He, Hob, Hout, Hlp, Hrc, Hdr, Hce. }
    destruct (deliver_loop_frame (size (received_data s3)) s3)
      as (Hlp4 & _ & _ & Hca4 & Hrc4 & Hdr4 & Hce4 & Hout4).
    destruct (deliver_loop_spec (size (received_data s3)) s3)
      as (more & Hob4 & He4 & _).
    rewrite Hlp4, Hca4, Hrc4, Hdr4, Hce4, Hout4, Hob4, He4.
    rewrite He3, Hob3, Hout3, Hlp3, Hca3, Hrc3, Hdr3, Hce3.
    split; [lia|]. split; [by exists more|]. split; [by left|].
    split; [done|]. split; [done|]. lia.
Qed.

Lemma send_ack_after_rtt_effect s :
  let s' := (send_ack_after_rtt s).2 in
  expected_seq s' = expected_seq s
  /\ received_data s' = received_data s
  /\ output_buffer s' = output_buffer s
  /\ client_addr s' = client_addr s
  /\ loss_prob s' = loss_prob s
  /\ total_packets_received s' = total_packets_received s
  /\ total_packets_dropped s' = total_packets_dropped s
  /\ total_checksum_errors s' = total_checksum_errors s
  /\ (outbox s' = outbox s
      \/ exists pk addr,
           client_addr s = Some addr
           /\ pack_u32 (expected_seq s) = Some pk
           /\ outbox s' = outbox s ++ [(pk, addr)]).
Proof.
  cbv zeta. unfold send_ack_after_rtt.
  set (s1 := set_timer_threads _ s).
  destruct (ack_timer_active s1); [|by repeat split; auto].
  destruct (client_addr s1) as [addr|] eqn:Hca; [|by repeat split; auto].
  unfold send_ack.
  destruct (pack_u32 (expected_seq s1)) as [pk|] eqn:Hpk;
    [|by repeat split; auto].
  cbn. do 8 (split; [done|]). right. by exists pk, addr.
Qed.

(** X25.  No action of the receiver (a datagram handed to [process_packet],
    a delayed-ACK thread) takes anything back: [expected_seq] never
    decreases, [output_buffer] and the trace of ACKs sent only grow at
    the end, a latched [client_addr] is never replaced, [loss_prob] is
    never changed, and no statistics counter decreases. *)
Theorem server_step_monotone s s' :
  server_step s s' ->
  expected_seq s <= expected_seq s'
  /\ output_buffer s `prefix_of` output_buffer s'
  /\ outbox s `prefix_of` outbox s'
  /\ (forall a, client_addr s = Some a -> client_addr s' = Some a)
  /\ loss_prob s' = loss_prob s
  /\ total_packets_received s <= total_packets_received s'
  /\ total_packets_dropped s <= total_packets_dropped s'
  /\ total_checksum_errors s <= total_checksum_errors s'.
Proof.
  intros [s0 p addr r o s0' _ _ _ Hpp|s0 o s0' _ Hrtt].
  - destruct (process_packet_effect p addr r s0)
      as (He & [more Hob] & Hout & Hca & Hlp & Hcnt).
    rewrite Hpp in *. simpl in *.
    split; [done|]. split; [by exists more|]. split.
    { destruct Hout as [->|[pk ->]]; [done|by eexists]. }
    split; [|done].
    intros a Ha. destruct Hca as [->|[Hn _]]; [done|congruence].
  - destruct (send_ack_after_rtt_effect s0)
      as (He & _ & Hob & Hca & Hlp & Hrc & Hdr & Hce & Hout).
    rewrite Hrtt in *. simpl in *. rewrite He, Hob, Hca, Hlp, Hrc, Hdr, Hce.
    split; [lia|]. split; [done|]. split.
    { destruct Hout as [->|(pk & addr & _ & _ & ->)]; [done|by eexists]. }
    split; [done|]. split; [done|]. lia.
Qed.

(** ** Receiver: the loop of [run] *)

Lemma run_iter_packet p addr r now st :
  let ca := default addr (run_client_addr st) in
  exists st',
    run_iter (got_packet p addr) r now st = (Continue, st')
    /\ server st' = (process_packet p ca r (server st)).2
    /\ run_client_addr st' = Some ca.
Proof.
  cbv zeta. unfold run_iter.
  assert (match run_client_addr st with
          | Some a => a
          | None => addr
          end = default addr (run_client_addr st)) as ->
    by (by destruct (run_client_addr st)).
  destruct (process_packet p _ r (server st)) as [[] s']; by eexists.
Qed.

Lemma run_iter_idle ev r now st st' :
  ev = got_timeout \/ ev = got_error ->
  run_iter ev r now st = (Continue, st') -> st' = st.
Proof.
  intros [-> | ->]; simpl.
  - destruct (transfer_complete now st); by intros [= <-].
  - by intros [= <-].
Qed.

Lemma run_from_reachable loss seen st :
  run_from loss seen st -> server_reachable loss (server st).
Proof.
  induction 1 as [|seen st p addr r now st' _ IH Hlen Hr0 Hr1 Hit
                  |seen st ev r now st' _ IH Hev Hit
                  |seen st o s' _ IH Hpending Hrtt].
  - apply server_reach_init.
  - destruct (run_iter_packet p addr r now st) as (st2 & Hit2 & Hsrv & _).
    rewrite Hit in Hit2. injection Hit2 as <-.
    eapply server_reach_step; [exact IH|].
    eapply (step_packet _ p _ r); [done..|].
    rewrite Hsrv. apply surjective_pairing.
  - by rewrite (run_iter_idle _ _ _ _ _ Hev Hit).
  - eapply server_reach_step; [exact IH|]. by eapply step_timer.
Qed.

Lemma run_from_inv loss seen st : run_from loss seen st -> run_inv seen st.
Proof.
  induction 1 as [|seen st p addr r now st' Hrun IH Hlen Hr0 Hr1 Hit
                  |seen st ev r now st' _ IH Hev Hit
                  |seen st o s' Hrun IH Hpending Hrtt].
  - by split.
  - destruct IH as [Hhead IH].
    destruct (run_iter_packet p addr r now st) as (st2 & Hit2 & Hsrv & Hca2).
    rewrite Hit in Hit2. injection Hit2 as <-.
    pose proof (server_reachable_timer_inv _ _ (run_from_reachable _ _ _ Hrun))
      as (_ & _ & H3 & _).
    destruct (process_packet_effect p (default addr (run_client_addr st)) r
                (server st)) as (_ & _ & Hout & Hca & _).
    rewrite <- Hsrv in Hout, Hca.
    unfold run_inv. rewrite Hca2. split.
    { rewrite Hhead. by destruct seen. }
    destruct (run_client_addr st) as [a|] eqn:Hrca; simpl in *.
    + destruct IH as [Hcl Hall]. split.
      * destruct Hca as [->|[_ ->]]; [done|by right].
      * destruct Hout as [->|[pk ->]]; [done|].
        apply Forall_app. split; [done|]. by constructor.
    + destruct (H3 IH) as (_ & _ & Hempty). rewrite Hempty in Hout. split.
      * destruct Hca as [->|[_ ->]]; [by left|by right].
      * destruct Hout as [->|[pk ->]]; [done|]. by repeat constructor.
  - by rewrite (run_iter_idle _ _ _ _ _ Hev Hit).
  - destruct IH as [Hhead IH]. split; [done|].
    destruct (send_ack_after_rtt_effect (server st))
      as (_ & _ & _ & Hca & _ & _ & _ & _ & Hout).
    rewrite Hrtt in *. simpl in *. rewrite Hca.
    destruct (run_client_addr st) as [a|].
    + destruct IH as [Hcl Hall]. split; [done|].
      destruct Hout as [->|(pk & addr & Haddr & _ & ->)]; [done|].
      apply Forall_app. split; [done|]. constructor; [|done]. simpl.
      destruct Hcl as [Hn|Hs]; congruence.
    + done.
Qed.

(** X26.  The receiver serves one peer.  In every state of [run], every ACK
    sent so far, immediate or delayed, went to the source address of
    the first datagram [recvfrom] returned, whatever the sources of the
    later datagrams and whether or not that first datagram was
    accepted; and nothing was sent before a datagram arrived. *)
Theorem acks_go_to_first_peer loss seen st :
  run_from loss seen st ->
  forall ack_packet a,
    (ack_packet, a) ∈ outbox (server st) ->
    exists first rest, seen = first :: rest /\ a = first.2.
Proof.
  intros Hrun ack_packet a Hin.
  destruct (run_from_inv _ _ _ Hrun) as [Hhead Hinv].
  pose proof (server_reachable_timer_inv _ _ (run_from_reachable _ _ _ Hrun))
    as (_ & _ & H3 & _).
  destruct (run_client_addr st) as [a0|].
  - destruct Hinv as [_ Hall].
    apply (proj1 (Forall_forall _ _) Hall) in Hin. simpl in Hin.
    destruct seen as [|first rest]; [done|]. simpl in Hhead.
    exists first, rest. split; [done|]. congruence.
  - destruct (H3 Hinv) as (_ & _ & Hempty). rewrite Hempty in Hin.
    by apply elem_of_nil in Hin.
Qed.

(** ** Receiver: what [run] writes *)

Lemma reassembly_safe_ext cs s s' :
  output_buffer s' = output_buffer s ->
  expected_seq s' = expected_seq s ->
  received_data s' = received_data s ->
  reassembly_safe cs s -> reassembly_safe cs s'.
Proof. unfold reassembly_safe. by intros -> -> ->. Qed.

Lemma reassembly_safe_deliver cs s x :
  contig 0 cs -> reassembly_safe cs s ->
  received_data s !! expected_seq s = Some x ->
  reassembly_safe cs (deliver x s).
Proof.
  intros Hc (dl & todo & Hcs & Hob & He & Hkeys) Hx.
  pose proof (Hkeys _ _ Hx) as Hin.
  rewrite Hcs in Hc. apply contig_app in Hc as [_ Hc]. rewrite <- He in Hc.
  destruct todo as [|[s0 d0] todo]; [by apply elem_of_nil in Hin|].
  pose proof Hc as (Hs0 & Hd0 & Hc').
  assert (x = d0) as ->.
  { eapply (contig_functional _ _ _ _ _ Hc Hin). rewrite Hs0. by left. }
  exists (dl ++ [(s0, d0)]), todo. simpl.
  split; [by rewrite <- app_assoc|].
  split; [by rewrite Hob, fmap_app|].
  split; [rewrite end_offset_app, <- He; unfold end_offset; simpl; lia|].
  intros seq_num d [Hne Hd]%lookup_delete_Some.
  apply Hkeys, elem_of_cons in Hd as [[= -> ->]|Hd]; [done|done].
Qed.

Lemma reassembly_safe_loop cs fuel s :
  contig 0 cs -> reassembly_safe cs s ->
  reassembly_safe cs (deliver_loop fuel s).
Proof.
  intros Hc. revert s. induction fuel as [|fuel IH]; intros s Hs; [done|].
  simpl. destruct (received_data s !! expected_seq s) as [x|] eqn:Hx;
    [|done].
  apply IH. by apply reassembly_safe_deliver.
Qed.

Lemma reassembly_safe_store cs s s' c :
  contig 0 cs -> reassembly_safe cs s -> c ∈ cs ->
  expected_seq s <= c.1 ->
  output_buffer s' = output_buffer s ->
  expected_seq s' = expected_seq s ->
  received_data s' = <[c.1 := c.2]> (received_data s) ->
  reassembly_safe cs s'.
Proof.
  intros Hc (dl & todo & Hcs & Hob & He & Hkeys) Hin Hge Hob' He' Hrd'.
  assert (c ∈ todo) as Hct.
  { rewrite Hcs in Hin, Hc. apply contig_app in Hc as [Hdl _].
    apply elem_of_app in Hin as [Hin|Hin]; [|done].
    destruct c as [s0 d0].
    destruct (contig_elem _ _ _ _ Hdl Hin) as (_ & Hend & Hd0).
    destruct d0; [done|]. simpl in *. lia. }
  exists dl, todo. rewrite Hob', He', Hrd'. do 3 (split; [done|]).
  intros seq_num d [[<- <-]|[_ Hd]]%lookup_insert_Some; [|by apply Hkeys].
  by destruct c.
Qed.

(** One datagram of a segment, whatever the loss injector draws. *)
Lemma reassembly_safe_process cs s c p addr r :
  contig 0 cs -> reassembly_safe cs s -> c ∈ cs -> packet_of c p ->
  reassembly_safe cs (process_packet p addr r s).2.
Proof.
  intros Hc Hs Hin Hp.
  destruct (accepted_dec s p r) as [(seq_num & data & Hacc)|Hrej].
  - assert (seq_num = c.1 /\ data = c.2) as [-> ->].
    { destruct Hacc as (ck & Hf & _).
      rewrite (packet_fields_create _ _ _ Hp) in Hf. by injection Hf. }
    rewrite (process_packet_accepted _ _ addr _ _ _ Hacc). cbv zeta.
    destruct (latched_frame addr s) as (He & Hrd & Hob & _).
    assert (reassembly_safe cs (latched addr s)) as Hs2
      by (by eapply reassembly_safe_ext).
    case_bool_decide as Hlt.
    + destruct (send_ack_cases addr (expected_seq (latched addr s))
                  (latched addr s))
        as [(pk & _ & _ & _ & Hst & _)|[_ ->]]; [|done].
      unfold receiver_state in Hst. injection Hst as He' Hrd' Hob' _ _ _.
      by eapply reassembly_safe_ext.
    + cbn [snd]. apply reassembly_safe_loop; [done|].
      destruct (received_data (latched addr s) !! c.1); [done|].
      destruct (store_new_frame c.1 c.2 (latched addr s))
        as (He3 & Hrd3 & Hob3 & _).
      eapply (reassembly_safe_store cs (latched addr s)); eauto. lia.
  - destruct (process_packet_rejected s p addr r Hrej) as (Hst & _).
    unfold receiver_state in Hst. injection Hst as He Hrd Hob _ _ _.
    by eapply reassembly_safe_ext.
Qed.

Lemma run_from_safe loss file_data seen st :
  run_from loss seen st ->
  (forall p, p ∈ seen.*1 ->
     exists seg, seg ∈ read_file_chunks file_data /\ packet_of seg p) ->
  reassembly_safe (read_file_chunks file_data) (server st).
Proof.
  pose proof (contig_read_file file_data) as Hc.
  induction 1 as [|seen st p addr r now st' Hrun IH Hlen Hr0 Hr1 Hit
                  |seen st ev r now st' _ IH Hev Hit
                  |seen st o s' Hrun IH Hpending Hrtt]; intros Hseen.
  - by exists [], (read_file_chunks file_data).
  - rewrite fmap_app in Hseen.
    destruct (run_iter_packet p addr r now st) as (st2 & Hit2 & Hsrv & _).
    rewrite Hit in Hit2. injection Hit2 as <-. rewrite Hsrv.
    destruct (Hseen p) as (seg & Hin & Hp).
    { apply elem_of_app. right. by left. }
    eapply reassembly_safe_process; eauto.
    apply IH. intros q Hq. apply Hseen, elem_of_app. by left.
  - rewrite (run_iter_idle _ _ _ _ _ Hev Hit). by apply IH.
  - destruct (send_ack_after_rtt_effect (server st))
      as (He & Hrd & Hob & _).
    rewrite Hrtt in *. simpl in *.
    eapply reassembly_safe_ext; eauto.
Qed.

(** X27.  Safety of the transfer under loss, reordering and duplication.
    Whatever the loss probability and the draws of the loss injector,
    as long as every datagram that reached [run] is one that
    [create_packet] builds for a segment of the file, [output_buffer]
    holds the payloads of the first segments of the file, in order and
    complete: what [run] would write is a prefix of the file, and
    [expected_seq] is its length. *)
Theorem run_output_is_file_prefix loss file_data seen st :
  run_from loss seen st ->
  (forall p, p ∈ seen.*1 ->
     exists seg, seg ∈ read_file_chunks file_data /\ packet_of seg p) ->
  (exists n : nat,
     output_buffer (server st) = take n (read_file_chunks file_data).*2)
  /\ concat (output_buffer (server st)) `prefix_of` file_data
  /\ expected_seq (server st)
     = Z.of_nat (length (concat (output_buffer (server st))))
  /\ (forall f, received_file st = Some f -> f `prefix_of` file_data).
Proof.
  intros Hrun Hseen.
  destruct (run_from_safe _ file_data _ _ Hrun Hseen)
    as (dl & todo & Hcs & Hob & He & _).
  assert (concat (output_buffer (server st)) `prefix_of` file_data) as Hpre.
  { exists (concat todo.*2).
    rewrite <- (read_file_chunks_concat file_data) at 1.
    by rewrite Hcs, fmap_app, concat_app, Hob. }
  split.
  { exists (length dl). rewrite Hcs, Hob, fmap_app.
    rewrite take_app_length'; [done|by rewrite length_fmap]. }
  split; [done|]. split.
  { by rewrite He, end_offset_payloads, Hob. }
  intros f. unfold received_file.
  destruct (output_buffer (server st)); [done|]. by intros [= <-].
Qed.

Lemma run_from_reassembling file_data seen st :
  run_from 0 seen st ->
  (forall p, p ∈ seen.*1 ->
     exists seg, seg ∈ read_file_chunks file_data /\ packet_of seg p) ->
  reassembling (read_file_chunks file_data) seen.*1 (server st).
Proof.
  pose proof (contig_read_file file_data) as Hc.
  induction 1 as [|seen st p addr r now st' Hrun IH Hlen Hr0 Hr1 Hit
                  |seen st ev r now st' _ IH Hev Hit
                  |seen st o s' Hrun IH Hpending Hrtt]; intros Hseen.
  - apply reassembling_init.
  - rewrite fmap_app in *.
    destruct (run_iter_packet p addr r now st) as (st2 & Hit2 & Hsrv & _).
    rewrite Hit in Hit2. injection Hit2 as <-. rewrite Hsrv.
    destruct (Hseen p) as (seg & Hin & Hp).
    { apply elem_of_app. right. by left. }
    pose proof (server_reachable_timer_inv _ _ (run_from_reachable _ _ _ Hrun))
      as (_ & _ & _ & H4 & _).
    eapply (reassembling_process _ _ _ seg); eauto.
    apply IH. intros q Hq. apply Hseen, elem_of_app. by left.
  - rewrite (run_iter_idle _ _ _ _ _ Hev Hit). by apply IH.
  - destruct (send_ack_after_rtt_effect (server st))
      as (He & Hrd & Hob & _ & Hlp & _).
    rewrite Hrtt in *. simpl in *.
    eapply reassembling_ext; eauto.
Qed.

(** X28.  Completion of the transfer.  With the loss injector off, once a
    datagram of every segment of a non-empty file has reached [run], in
    any order, any number of times, from any addresses and with
    delayed ACKs fired at any moments, [output_buffer] holds the whole
    file; the first socket timeout more than 30 seconds after the last
    datagram handled then ends the loop, and what [run] writes is
    exactly the file. *)
Theorem run_completes_with_file file_data seen st t now r :
  run_from 0 seen st ->
  (forall p, p ∈ seen.*1 ->
     exists seg, seg ∈ read_file_chunks file_data /\ packet_of seg p) ->
  (forall seg, seg ∈ read_file_chunks file_data ->
     exists p, packet_of seg p /\ p ∈ seen.*1) ->
  file_data <> [] ->
  last_packet_time st = Some t ->
  ~ (t == 0)%Q ->
  (COMPLETION_TIMEOUT < now - t)%Q ->
  run_iter got_timeout r now st = (Break, st)
  /\ received_file st = Some file_data
  /\ expected_seq (server st) = Z.of_nat (length file_data).
Proof.
  intros Hrun Hseen Hall Hne Ht Ht0 Hlate.
  pose proof (run_from_reassembling file_data _ _ Hrun Hseen) as Hre.
  pose proof (server_reachable_timer_inv _ _ (run_from_reachable _ _ _ Hrun))
    as (_ & _ & _ & H4 & _).
  destruct (reassembling_complete _ _ _ (contig_read_file file_data) Hre H4
              Hall) as [Hob He].
  rewrite read_file_end in He.
  assert (exists x l, output_buffer (server st) = x :: l) as (x & l & Hcons).
  { rewrite Hob.
    destruct (read_file_chunks file_data) as [|[s0 d0] cs] eqn:Hcs.
    - by apply read_file_chunks_nil in Hcs.
    - by eexists _, _. }
  split; [|split; [|done]].
  - unfold run_iter, transfer_complete. rewrite Ht, He, Hcons.
    assert (Qeq_bool t 0 = false) as ->.
    { destruct (Qeq_bool t 0) eqn:Hq; [|done].
      by apply Qeq_bool_iff in Hq. }
    apply Qltb_lt in Hlate. rewrite Hlate.
    rewrite bool_decide_eq_true_2; [done|].
    destruct file_data; [done|]. simpl length. lia.
  - unfold received_file. rewrite Hcons, <- Hcons, Hob.
    by rewrite read_file_chunks_concat.
Qed.

(** ** The further theorems at concrete inputs *)

Lemma small_packet_created : create_packet 0 small_file = Some small_packet.
Proof. vm_compute. reflexivity. Qed.

Lemma second_packet_created :
  create_packet 1024 full_payload = Some second_packet.
Proof. vm_compute. reflexivity. Qed.

Lemma dup_c1_reachable :
  sender_reachable small_file {| client := dup_c1; chunk_index := 1 |}.
Proof.
  eapply run_step; [apply run_init|].
  apply (step_send _ _ 0%nat 0%Q 0 small_file dup_c1); by vm_compute.
Qed.

Lemma run_c1_c2_step :
  sender_step (fun _ _ => True)
    {| client := run_c1; chunk_index := 1 |}
    {| client := run_c2; chunk_index := 1 |}.
Proof.
  apply (step_ack _ run_c1 1%nat 0%Q 1024 Returned run_c2);
    [lia|done|by vm_compute].
Qed.

Lemma first_segment_step :
  server_step (server_init 0) (after_segments some_addr 1).
Proof.
  eapply (full_payload_step some_addr _ 0); [done|done|done|lia|].
  apply after_segments_first.
Qed.

Lemma buffered_second_reachable : server_reachable 0 buffered_second.
Proof.
  eapply server_reach_step; [apply server_reach_init|].
  apply (step_packet _ second_packet some_addr 0 Returned);
    [by vm_compute|done|done|by vm_compute].
Qed.

Lemma run_r1_from : run_from 0 [(first_packet, some_addr)] run_r1.
Proof.
  apply (run_recv 0 [] (run_entry 0) first_packet some_addr 0 1 run_r1);
    [apply run_start|by vm_compute|done|done|by vm_compute].
Qed.

Lemma run_r2_from :
  run_from 0 [(first_packet, some_addr); (first_packet, other_addr)] run_r2.
Proof.
  apply (run_recv 0 [(first_packet, some_addr)] run_r1 first_packet
           other_addr 0 2 run_r2);
    [apply run_r1_from|by vm_compute|done|done|by vm_compute].
Qed.

(** The first segment of a file of zero bytes, handed to a fresh
    receiver. *)
Lemma created_packet_accepted_witness :
  create_packet 0 full_payload = Some first_packet
  /\ accepted (server_init 0) first_packet 0 0 full_payload
  /\ total_checksum_errors
       (process_packet first_packet some_addr 0 (server_init 0)).2
     = total_checksum_errors (server_init 0).
Proof.
  split; [exact first_packet_created|].
  destruct (created_packet_accepted 0 full_payload first_packet some_addr 0
              (server_init 0) first_packet_created eq_refl)
    as (_ & _ & Hacc & _ & _ & Hce & _).
  split; assumption.
Defined.

(** The payload 1, 2, 3 arriving as 3, 2, 1. *)
Lemma checksum_ignores_order_witness :
  accepted (server_init 0)
    (take (SEQ_NUM_SIZE + CHECKSUM_SIZE) small_packet ++ [x03; x02; x01])
    0 0 [x03; x02; x01].
Proof.
  exact (proj2 (proj2 (checksum_ignores_order 0 small_file [x03; x02; x01]
                         small_packet 0 (server_init 0) small_packet_created
                         (Permutation_rev small_file) eq_refl))).
Defined.

(** The ACK 1024 of the receiver, received by the sender in the state
    [run_c1]. *)
Lemma ack_round_trip_witness :
  exists ack_packet,
    outbox (send_ack some_addr 1024 (server_init 0)).2
    = [(ack_packet, some_addr)]
    /\ length ack_packet = ACK_SIZE
    /\ receiver_thread_iter (recv_data ack_packet) 0 (fun _ => 0%Q) run_c1
       = (Continue, run_c2).
Proof.
  destruct (ack_round_trip some_addr 1024 (server_init 0)
              (send_ack some_addr 1024 (server_init 0)).2 eq_refl)
    as (pk & Hout & Hlen & Hiter).
  exists pk. split; [exact Hout|]. split; [exact Hlen|].
  rewrite Hiter. by vm_compute.
Defined.

(** The first ACK of the run of [run_c8]. *)
Lemma sender_step_monotone_witness :
  let s := {| client := run_c1; chunk_index := 1 |} in
  let s' := {| client := run_c2; chunk_index := 1 |} in
  last_ack_received (client s) <= last_ack_received (client s')
  /\ last_acked_seq (client s) <= last_acked_seq (client s')
  /\ chunks (client s') = chunks (client s).
Proof.
  intros s s'.
  destruct (sender_step_monotone _ s s' run_c1_c2_step)
    as (Hch & Hlar & Hla & _).
  split; [exact Hlar|]. split; [exact Hla|exact Hch].
Defined.

Lemma sent_datagrams_are_segments_witness :
  let s := {| client := run_c8; chunk_index := 2 |} in
  (forall p, p ∈ sent (client s) ->
     exists seq_num d,
       (seq_num, d) ∈ read_file_chunks three_segment_file
       /\ create_packet seq_num d = Some p
       /\ packet_fields p = Some (seq_num, calculate_checksum d, d))
  /\ (forall i seq_num d,
        (i < chunk_index s)%nat ->
        read_file_chunks three_segment_file !! i = Some (seq_num, d) ->
        exists p, create_packet seq_num d = Some p
                  /\ p ∈ sent (client s)).
Proof.
  intros s.
  exact (sent_datagrams_are_segments three_segment_file s run_c8_reachable).
Defined.

Lemma datagrams_sent_bounds_witness :
  let s := {| client := run_c8; chunk_index := 2 |} in
  total_retransmissions (client s)
  <= Z.of_nat (length (sent (client s)))
  <= Z.of_nat (chunk_index s) + total_retransmissions (client s).
Proof.
  intros s.
  exact (datagrams_sent_bounds three_segment_file s run_c8_reachable).
Defined.

(** A one-segment file: the send loop has sent its segment, and the
    datagram reaches the receiver twice. *)
Lemma transfer_end_to_end_witness :
  let arrivals : list (bytes * address * Q) :=
    [(small_packet, some_addr, 0%Q); (small_packet, some_addr, 0%Q)] in
  concat (output_buffer (receive_all arrivals (server_init 0))) = small_file
  /\ expected_seq (receive_all arrivals (server_init 0))
     = Z.of_nat (length small_file).
Proof.
  intros arrivals.
  apply (transfer_end_to_end small_file
           {| client := dup_c1; chunk_index := 1 |} arrivals
           dup_c1_reachable).
  - reflexivity.
  - intros p. change (arrivals.*1.*1) with [small_packet; small_packet].
    change (sent (client {| client := dup_c1; chunk_index := 1 |}))
      with [small_packet].
    rewrite !elem_of_cons. tauto.
  - repeat constructor; by vm_compute.
Defined.

Lemma phase_matches_threshold_witness :
  let s := {| client := run_c8; chunk_index := 2 |} in
  (state (client s) = slow_start <-> cwnd (client s) < ssthresh (client s))
  /\ (state (client s) = congestion_avoidance
      <-> ssthresh (client s) <= cwnd (client s)).
Proof.
  intros s.
  exact (phase_matches_threshold three_segment_file s run_c8_reachable).
Defined.

(** After the fast retransmission of the run the window is 5; the ACK
    2048 acknowledges one segment and leaves it at 5. *)
Lemma avoidance_growth_needs_full_window_witness :
  state run_c5 = congestion_avoidance
  /\ cwnd run_c5 = 5
  /\ Z.of_nat (length (acked_packets run_c5 2048)) = 1
  /\ cwnd (handle_ack 0 2048 run_c5).2 = cwnd run_c5.
Proof.
  assert (H1 : state run_c5 = congestion_avoidance) by (by vm_compute).
  assert (H2 : cwnd run_c5 = 5) by (by vm_compute).
  assert (H3 : last_ack_received run_c5 < 2048) by (by vm_compute).
  assert (H4 : Z.of_nat (length (acked_packets run_c5 2048)) = 1)
    by (by vm_compute).
  split; [exact H1|]. split; [exact H2|]. split; [exact H4|].
  apply (avoidance_growth_needs_full_window 0 2048 run_c5 H1);
    [rewrite H2; lia|exact H3|rewrite H2, H4; lia].
Defined.


(** The final ACK of the one-segment transfer. *)
Lemma final_ack_clears_unacked_witness :
  unacked_packets (handle_ack 0 3 dup_c1).2 = []
  /\ transfer_acked (handle_ack 0 3 dup_c1).2 = Some true.
Proof.
  destruct (final_ack_clears_unacked small_file
              {| client := dup_c1; chunk_index := 1 |} 0 3
              dup_c1_reachable)
    as (Hun & _ & _ & _ & Hdone); [by vm_compute|by vm_compute|].
  split; [exact Hun|]. by apply Hdone.
Defined.


(** Segment 0 leaves [unacked_packets] with the first ACK of the
    run. *)
Lemma unacked_removed_only_by_ack_witness :
  let s := {| client := run_c1; chunk_index := 1 |} in
  let s' := {| client := run_c2; chunk_index := 1 |} in
  last_ack_received (client s) < last_ack_received (client s')
  /\ exists d,
       find_chunk (chunks (client s)) 0 = Some d
       /\ 0 + Z.of_nat (length d) <= last_ack_received (client s').
Proof.
  intros s s'.
  apply (unacked_removed_only_by_ack _ three_segment_file s s' 0
           run_c1_reachable run_c1_c2_step).
  - assert (dict_keys (unacked_packets (client s)) = [0]) as ->
      by (by vm_compute).
    by left.
  - assert (dict_keys (unacked_packets (client s')) = []) as ->
      by (by vm_compute).
    apply not_elem_of_nil.
Defined.

(** The send of the second segment in a run that stays within what was
    sent: segment 0 is sent and acknowledged, then segment 1024 is
    sent. *)
Lemma send_respects_window_witness :
  Z.of_nat (length (unacked_packets
                      (send_packet 0 1024 full_payload false run_c2).2))
  <= cwnd (send_packet 0 1024 full_payload false run_c2).2.
Proof.
  assert (H2 : sender_reachable_within_sent three_segment_file
                 {| client := run_c2; chunk_index := 1 |}).
  { eapply (run_step _ _ {| client := run_c1; chunk_index := 1 |}).
    - eapply run_step; [apply run_init|].
      apply (step_send _ _ 0%nat 0%Q 0 full_payload run_c1); by vm_compute.
    - apply (step_ack _ run_c1 1%nat 0%Q 1024 Returned run_c2);
        [lia|by vm_compute|by vm_compute]. }
  assert (H3 : sender_step acks_within_sent
                 {| client := run_c2; chunk_index := 1 |}
                 {| client := (send_packet 0 1024 full_payload false
                                 run_c2).2;
                    chunk_index := 2 |}).
  { apply (step_send _ run_c2 1%nat 0%Q 1024 full_payload); by vm_compute. }
  exact (proj1 (proj2 (send_respects_window three_segment_file _ _ H2 H3
                         eq_refl))).
Defined.

(** A fresh receiver never raises. *)
Lemma process_packet_raises_iff_witness :
  (process_packet first_packet some_addr 0 (server_init 0)).1 = Raised
  <-> 2 ^ 32 <= expected_seq (server_init 0)
      /\ exists seq_num data,
           accepted (server_init 0) first_packet 0 seq_num data
           /\ seq_num < expected_seq (server_init 0).
Proof.
  exact (process_packet_raises_iff first_packet some_addr 0 (server_init 0)
           (Z.le_refl 0)).
Defined.

(** The receiver after the first segment: the flag is set and one
    thread is pending. *)
Lemma single_delayed_ack_timer_witness :
  (timer_threads (after_segments some_addr 1) <= 1)%nat
  /\ (expected_seq (after_segments some_addr 1) < 2 ^ 32 ->
      (ack_timer_active (after_segments some_addr 1) = true
       <-> timer_threads (after_segments some_addr 1) = 1%nat)).
Proof.
  destruct (single_delayed_ack_timer 0 (after_segments some_addr 1)
              (after_segments_reachable some_addr 1 ltac:(lia) ltac:(lia)))
    as (H1 & _ & _ & H4).
  split; [exact H1|exact H4].
Defined.

Lemma expected_seq_never_buffered_witness :
  received_data buffered_second !! expected_seq buffered_second = None.
Proof.
  exact (proj1 (expected_seq_never_buffered 0 buffered_second
                  buffered_second_reachable)).
Defined.

Lemma delayed_ack_fires_witness :
  exists addr ack_packet s',
    client_addr (after_segments some_addr 1) = Some addr
    /\ send_ack_after_rtt (after_segments some_addr 1) = (Returned, s')
    /\ unpack_u32 ack_packet = Some 1024
    /\ outbox s' = [(ack_packet, addr)]
    /\ ack_timer_active s' = false.
Proof.
  destruct (delayed_ack_fires 0 (after_segments some_addr 1)
              (after_segments_reachable some_addr 1 ltac:(lia) ltac:(lia)))
    as (addr & pk & s' & Hca & _ & Hrun & Hpk & Hout & Hflag & _);
    [simpl; lia|simpl; lia|].
  exists addr, pk, s'. repeat split; assumption.
Defined.

(** A second copy of the buffered second segment. *)
Lemma buffered_duplicate_ignored_witness :
  process_packet second_packet some_addr 0 buffered_second
  = (Returned, count_received buffered_second).
Proof.
  apply (buffered_duplicate_ignored 0 buffered_second second_packet
           some_addr 0 1024 full_payload full_payload
           buffered_second_reachable).
  - apply accepted_create; [done|apply second_packet_created].
  - by vm_compute.
  - by vm_compute.
Defined.

(** The second segment arriving first. *)
Lemma out_of_order_packet_buffered_witness :
  received_data (process_packet second_packet some_addr 0 (server_init 0)).2
  = <[1024 := full_payload]> ∅
  /\ output_buffer
       (process_packet second_packet some_addr 0 (server_init 0)).2 = []
  /\ expected_seq
       (process_packet second_packet some_addr 0 (server_init 0)).2 = 0.
Proof.
  destruct (out_of_order_packet_buffered 0 (server_init 0) second_packet
              some_addr 0 1024 full_payload (server_reach_init 0))
    as (_ & Hrd & Hob & He & _).
  - apply accepted_create; [done|apply second_packet_created].
  - simpl. lia.
  - apply lookup_empty.
  - split; [exact Hrd|]. split; [exact Hob|exact He].
Defined.

(** The first segment arriving after the second has been buffered:
    both are delivered. *)
Lemma in_order_packet_delivered_witness :
  exists more,
    output_buffer (process_packet first_packet some_addr 0 buffered_second).2
    = output_buffer buffered_second ++ full_payload :: more
    /\ expected_seq
         (process_packet first_packet some_addr 0 buffered_second).2
       = expected_seq buffered_second + Z.of_nat (length full_payload)
         + Z.of_nat (sum_list_with length more).
Proof.
  destruct (in_order_packet_delivered 0 buffered_second first_packet
              some_addr 0 full_payload buffered_second_reachable)
    as (_ & more & Hob & _ & He & _).
  - apply accepted_create; [done|apply first_packet_created].
  - exists more. split; [exact Hob|exact He].
Defined.

Lemma server_step_monotone_witness :
  expected_seq (server_init 0) <= expected_seq (after_segments some_addr 1)
  /\ output_buffer (server_init 0)
     `prefix_of` output_buffer (after_segments some_addr 1).
Proof.
  destruct (server_step_monotone _ _ first_segment_step) as (He & Hob & _).
  split; [exact He|exact Hob].
Defined.

(** The second copy of the first segment comes from [other_addr]; the
    ACK that answers it goes to [some_addr], the source of the first
    datagram. *)
Lemma acks_go_to_first_peer_witness :
  exists ack_packet,
    outbox (server run_r2) = [(ack_packet, some_addr)]
    /\ exists first rest,
         [(first_packet, some_addr); (first_packet, other_addr)]
         = first :: rest
         /\ some_addr = first.2.
Proof.
  assert (Hout : exists ack_packet,
             outbox (server run_r2) = [(ack_packet, some_addr)])
    by (eexists; by vm_compute).
  destruct Hout as [pk Hout]. exists pk. split; [exact Hout|].
  apply (acks_go_to_first_peer 0 _ run_r2 run_r2_from pk some_addr).
  rewrite Hout. by left.
Defined.

(** One of the three segments of the file has arrived. *)
Lemma run_output_is_file_prefix_witness :
  concat (output_buffer (server run_r1)) `prefix_of` three_segment_file.
Proof.
  assert (Hcs : read_file_chunks three_segment_file
                = [(0, full_payload); (1024, full_payload); (2048, [x00])])
    by (by vm_compute).
  destruct (run_output_is_file_prefix 0 three_segment_file
              [(first_packet, some_addr)] run_r1 run_r1_from)
    as (_ & Hpre & _); [|exact Hpre].
  intros p ->%list_elem_of_singleton. exists (0, full_payload).
  split; [rewrite Hcs; by left|apply first_packet_created].
Defined.

(** A file of one full segment: the segment arrives at time 1, and a
    socket timeout at time 32 ends the loop. *)
Lemma run_completes_with_file_witness :
  run_iter got_timeout 0 32 run_r1 = (Break, run_r1)
  /\ received_file run_r1 = Some full_payload.
Proof.
  assert (Hcs : read_file_chunks full_payload = [(0, full_payload)])
    by (by vm_compute).
  destruct (run_completes_with_file full_payload
              [(first_packet, some_addr)] run_r1 1 32 0 run_r1_from)
    as (Hbreak & Hfile & _).
  - intros p ->%list_elem_of_singleton. exists (0, full_payload).
    split; [rewrite Hcs; by left|apply first_packet_created].
  - intros seg. rewrite Hcs. intros ->%list_elem_of_singleton.
    exists first_packet. split; [apply first_packet_created|by left].
  - done.
  - by vm_compute.
  - by vm_compute.
  - by vm_compute.
  - split; [exact Hbreak|exact Hfile].
Defined.
